(** * AgentX: the Raydium raw-pool trading path, the plugin system and
    the foundation client

    A shallow embedding of

    - [agentx/tools/use_raydium.py]: [RaydiumManager.buy_with_raydium] and
      [RaydiumManager.sell_with_raydium];
    - [agentx/plugins/event_bus.py]: [EventBus.subscribe], [unsubscribe],
      [publish];
    - [agentx/plugins/plugin.py]: [PluginRegistry] and [register_plugin];
    - [agentx/foundation/config.py]: the class [Config];
    - [agentx/foundation/base_client.py]:
      [BaseSolanaClient.send_transaction];
    - [agentx/foundation/account_ops.py]:
      [AccountOps.burn_and_close_account] and [burn_and_close_multiple];

    together with the swap-math function the specification describes
    ([native_for_asset]), whose code lives in [agentx/utils/raydium/utils.py]
    and is not among the sources.

    Python [float] is IEEE binary64 and is embedded as Rocq's primitive
    [float]; Python [int] is [Z].  Calls that leave the process (RPC
    requests, the operating system's entropy source, the helpers of
    [agentx.utils.raydium]) are answered by a [World] record; every call
    is logged, in order, in the trace a run returns.  The console takes
    whatever [print] writes to it; the one thing that can fail in a
    [print] of the sources is the conversion of a caught exception to a
    string.  The methods of the
    foundation layer thread one state, which stands for everything
    outside the client, and log the events they publish and the requests
    they send. *)

From stdpp Require Import base option list strings gmap.
From Stdlib Require Import ZArith QArith Qround Floats Lia Lqa Bool Ascii String.
From Stdlib Require Import Strings.Byte.

Local Open Scope Z_scope.

(* ===================================================================== *)
(** * Exceptions and results *)
(* ===================================================================== *)

(** A raised Python exception, identified by the name of its class.
    [Exn] is an instance of [Exception]: what [except Exception]
    catches.  [BaseExn] is an instance of [BaseException] that is not
    one of [Exception] ([KeyboardInterrupt], [SystemExit],
    [GeneratorExit], [asyncio.CancelledError]): [except Exception] lets
    it through. *)
Inductive exn : Type :=
| Exn (cls : string)
| BaseExn (cls : string).

(** [isinstance(e, Exception)]. *)
Definition is_Exception (e : exn) : bool :=
  match e with
  | Exn _ => true
  | BaseExn _ => false
  end.

Definition TypeError : exn := Exn "TypeError".
Definition KeyboardInterrupt : exn := BaseExn "KeyboardInterrupt".
Definition CancelledError : exn := BaseExn "CancelledError".

Definition ValueError : exn := Exn "ValueError".
Definition OverflowError : exn := Exn "OverflowError".
Definition ZeroDivisionError : exn := Exn "ZeroDivisionError".

(** What the evaluation of an expression yields: a value, or an exception
    on its way up. *)
Inductive result (A : Type) : Type :=
| Ok (a : A)
| Raise (e : exn).
Arguments Ok {A} a.
Arguments Raise {A} e.

#[global] Instance exn_eq_dec : EqDecision exn.
Proof. solve_decision. Defined.

#[global] Instance result_eq_dec {A} `{EqDecision A} : EqDecision (result A).
Proof. solve_decision. Defined.

(* ===================================================================== *)
(** * Python numbers *)
(* ===================================================================== *)

Module PyFloat.

(** An integer as an (unrounded) binary number [m * 2^0]. *)
Definition Z2SF (z : Z) : spec_float :=
  match z with
  | Z0 => S754_zero false
  | Zpos p => S754_finite false p 0
  | Zneg p => S754_finite true p 0
  end.

Definition is_finite (f : float) : bool :=
  match Prim2SF f with
  | S754_zero _ | S754_finite _ _ _ => true
  | S754_infinity _ | S754_nan => false
  end.

(** [float(z)]: the nearest binary64 (ties to even); [OverflowError]
    when [z] is beyond the range of the format. *)
Definition of_int (z : Z) : result float :=
  let f := SF2Prim (binary_normalize prec emax z 0 false) in
  if is_finite f then Ok f else Raise OverflowError.

(** [a / b] on two [int]s: the correctly rounded quotient. *)
Definition int_truediv (a b : Z) : result float :=
  if b =? 0 then Raise ZeroDivisionError
  else
    let f := SF2Prim (SF64div (Z2SF a) (Z2SF b)) in
    if is_finite f then Ok f else Raise OverflowError.

(** [int(f)]: truncation toward zero; [ValueError] on NaN,
    [OverflowError] on an infinity. *)
Definition to_int (f : float) : result Z :=
  match Prim2SF f with
  | S754_zero _ => Ok 0
  | S754_finite s m e => Ok (cond_Zopp s (Z.shiftl (Zpos m) e))
  | S754_infinity _ => Raise OverflowError
  | S754_nan => Raise ValueError
  end.

(** [f * z] with [f] a [float] and [z] an [int]: [z] is converted
    first. *)
Definition mul_int (f : float) (z : Z) : result float :=
  match of_int z with
  | Ok g => Ok (f * g)%float
  | Raise e => Raise e
  end.

(** [z - f] with [z] an [int] and [f] a [float]. *)
Definition int_sub (z : Z) (f : float) : result float :=
  match of_int z with
  | Ok g => Ok (g - f)%float
  | Raise e => Raise e
  end.

End PyFloat.

(* ===================================================================== *)
(** * The data model of the Raydium path *)
(* ===================================================================== *)

(** Account addresses, signatures and block hashes are opaque
    identifiers. *)
Definition Pubkey := string.
Definition Signature := string.
Definition Blockhash := string.

Record Keypair := { kp_pubkey : Pubkey }.

(** [SolanaAgentKit], reduced to the two attributes the path reads. *)
Record SolanaAgentKit := {
  rpc_url : string;
  wallet : Keypair
}.

(** [solana.rpc.api.Client]: constructing one only stores the endpoint. *)
Record Client := { endpoint : string }.

(** The pool snapshot [fetch_pool_keys] returns. *)
Record PoolKeys := {
  amm_id : Pubkey;
  base_mint : Pubkey;
  quote_mint : Pubkey;
  base_vault : Pubkey;
  quote_vault : Pubkey
}.

(** The names imported from [agentx.utils.raydium.constants] and
    [agentx.utils.raydium.layouts], which are not among the sources: they
    are parameters of the model. *)
Record Constants := {
  SOL_DECIMAL : float;
  TOKEN_PROGRAM_ID : Pubkey;
  UNIT_BUDGET : Z;
  UNIT_PRICE : Z;
  WSOL : Pubkey;
  ACCOUNT_LAYOUT_sizeof : Z
}.

(** The instructions the path builds, each holding the arguments its
    builder was called with. *)
Inductive Instruction : Type :=
| set_compute_unit_limit (units : Z)
| set_compute_unit_price (micro_lamports : Z)
| create_account_with_seed
    (from_pubkey to_pubkey base : Pubkey) (seed : string)
    (lamports space : Z) (owner : Pubkey)
| initialize_account (program_id account mint owner : Pubkey)
| create_associated_token_account (payer owner mint : Pubkey)
| make_swap_instruction
    (amount_in minimum_amount_out : Z)
    (token_account_in token_account_out : Pubkey)
    (accounts : PoolKeys) (owner : Keypair)
| close_account (program_id account dest owner : Pubkey).

Record Message := {
  msg_payer : Pubkey;
  msg_instructions : list Instruction;
  msg_recent_blockhash : Blockhash
}.

Record VersionedTransaction := {
  tx_message : Message;
  tx_signers : list Keypair
}.

(** The calls that leave the function, as they appear in a trace. *)
Inductive call : Type :=
| CFetchPoolKeys (pair_address : string)
| CGetTokenBalance (mint : string)
| CGetTokenReserves (pool_keys : PoolKeys)
| CGetTokenAccountsByOwner (c : Client) (owner mint : Pubkey)
| CUrandom (n : nat)
| CGetMinBalanceRent (c : Client)
| CGetLatestBlockhash (c : Client)
| CTryCompile (payer : Pubkey) (instructions : list Instruction)
    (recent_blockhash : Blockhash)
| CSendTransaction (c : Client) (txn : VersionedTransaction)
    (skip_preflight : bool)
| CConfirmTxn (txn_sig : Signature).

(** The calls that go to the network: everything but the entropy source
    and the local compilation of the message. *)
Definition is_network_call (c : call) : bool :=
  match c with
  | CUrandom _ | CTryCompile _ _ _ => false
  | _ => true
  end.

(** The answers of everything outside the two functions.  A field of type
    [result _] may raise, and so may a step whose field is an
    [option exn] (it raises on [Some e]).  [builder_raises] is the
    argument validation of the instruction builders (integer ranges, seed
    length).  [entropy] is the byte stream of the operating system's
    random source.

    [fetch_pool_keys], [get_token_balance], [get_token_reserves],
    [sol_for_tokens], [tokens_for_sol], [confirm_txn] and
    [make_swap_instruction] are defined in
    [agentx/utils/raydium/utils.py], which is not among the sources: the
    first six are answered by the world, and the swap instruction stands
    as the record of the arguments it was built from.  The amounts
    [sol_for_tokens] and [tokens_for_sol] return are taken to be
    [float]s, [token_decimal] a natural number and the answer of
    [confirm_txn] a boolean.

    [str_of_exn e] is [str(e)], which the handler's [print] evaluates
    on the exception it caught: it runs the [__str__] of the exception,
    which returns a string or raises. *)
Record World := {
  fetch_pool_keys : string -> result (option PoolKeys);
  get_token_balance : string -> result (option float);
  get_token_reserves : PoolKeys -> result (float * float * N);
  sol_for_tokens : float -> float -> float -> result float;
  tokens_for_sol : float -> float -> float -> result float;
  get_token_accounts_by_owner :
    Client -> Pubkey -> Pubkey -> result (list Pubkey);
  get_associated_token_address : Pubkey -> Pubkey -> Pubkey;
  entropy : nat -> byte;
  create_with_seed : Pubkey -> string -> Pubkey -> result Pubkey;
  get_min_balance_rent_for_exempt_for_account : Client -> result Z;
  builder_raises : Instruction -> option exn;
  get_latest_blockhash : Client -> result Blockhash;
  try_compile_raises : Pubkey -> list Instruction -> Blockhash -> option exn;
  sign_raises : Message -> list Keypair -> option exn;
  send_transaction : Client -> VersionedTransaction -> result Signature;
  confirm_txn : Signature -> result bool;
  str_of_exn : exn -> result string
}.

(* ===================================================================== *)
(** * Effects: traces and exceptions *)
(* ===================================================================== *)

#[global] Instance result_ret : MRet result := fun _ a => Ok a.
#[global] Instance result_bind : MBind result := fun _ _ f m =>
  match m with
  | Ok a => f a
  | Raise e => Raise e
  end.

(** A computation: the calls it made, in order, and how it ended. *)
Definition M (A : Type) : Type := (list call * result A)%type.

#[global] Instance M_ret : MRet M := fun _ a => ([], Ok a).
#[global] Instance M_bind : MBind M := fun _ _ f m =>
  match m with
  | (t, Ok a) => let '(t', r) := f a in (t ++ t', r)
  | (t, Raise e) => (t, Raise e)
  end.

(** A step that makes no call. *)
Definition lift {A} (r : result A) : M A := ([], r).

(** A call [c] that leaves the function, answered by [r]. *)
Definition perform {A} (c : call) (r : result A) : M A := ([c], r).

(** [try: m except Exception as e: h e]: an exception that is not an
    instance of [Exception] passes the handler by. *)
Definition try_except {A} (m : M A) (h : exn -> M A) : M A :=
  match m with
  | (t, Ok a) => (t, Ok a)
  | (t, Raise e) =>
      if is_Exception e then let '(t', r) := h e in (t ++ t', r)
      else (t, Raise e)
  end.

Definition trace {A} (m : M A) : list call := fst m.
Definition outcome {A} (m : M A) : result A := snd m.

(* ===================================================================== *)
(** * Seed generation *)
(* ===================================================================== *)

Definition b64_alphabet : list ascii :=
  list_ascii_of_string
    "ABCDEFGHIJKLMNOPQRSTUVWXYZabcdefghijklmnopqrstuvwxyz0123456789-_".

(** The character of a six-bit group. *)
Definition b64_char (v : Z) : ascii :=
  nth (Z.to_nat v) b64_alphabet "="%char.

Definition byte_val (b : byte) : Z := Z.of_N (Byte.to_N b).

(** [base64.urlsafe_b64encode(bs).decode('utf-8')]: three bytes give four
    characters; a last group of one or two bytes is padded with [=]. *)
Fixpoint urlsafe_b64encode (bs : list byte) : string :=
  match bs with
  | [] => EmptyString
  | [b0] =>
      let n := byte_val b0 * 65536 in
      String (b64_char (n / 262144))
        (String (b64_char (n / 4096 mod 64)) "==")
  | [b0; b1] =>
      let n := byte_val b0 * 65536 + byte_val b1 * 256 in
      String (b64_char (n / 262144))
        (String (b64_char (n / 4096 mod 64))
           (String (b64_char (n / 64 mod 64)) "="))
  | b0 :: b1 :: b2 :: rest =>
      let n := byte_val b0 * 65536 + byte_val b1 * 256 + byte_val b2 in
      String (b64_char (n / 262144))
        (String (b64_char (n / 4096 mod 64))
           (String (b64_char (n / 64 mod 64))
              (String (b64_char (n mod 64)) (urlsafe_b64encode rest))))
  end.

(** The first [n] bytes of the world's entropy. *)
Definition random_bytes (w : World) (n : nat) : list byte :=
  map (entropy w) (seq 0 n).

(** [os.urandom(n)]. *)
Definition os_urandom (w : World) (n : nat) : M (list byte) :=
  perform (CUrandom n) (Ok (random_bytes w n)).

(* ===================================================================== *)
(** * Quote arithmetic *)
(* ===================================================================== *)

(** [slippage_adjustment = 1 - (slippage / 100)]. *)
Definition slippage_adjustment (slippage : Z) : result float :=
  q ← PyFloat.int_truediv slippage 100;
  PyFloat.int_sub 1 q.

(** Buy path:
    [int(amount_out * slippage_adjustment * 10**token_decimal)]. *)
Definition buy_minimum_amount_out
    (amount_out : float) (slippage : Z) (token_decimal : N) : result Z :=
  adj ← slippage_adjustment slippage;
  scaled ← PyFloat.mul_int (amount_out * adj)%float (10 ^ Z.of_N token_decimal);
  PyFloat.to_int scaled.

(** Sell path:
    [amount_out_with_slippage = amount_out * slippage_adjustment];
    [int(amount_out_with_slippage * SOL_DECIMAL)]. *)
Definition sell_minimum_amount_out
    (K : Constants) (amount_out : float) (slippage : Z) : result Z :=
  adj ← slippage_adjustment slippage;
  let amount_out_with_slippage := (amount_out * adj)%float in
  PyFloat.to_int (amount_out_with_slippage * SOL_DECIMAL K)%float.

(** The estimate in smallest units the buy path scales but never names:
    [int(amount_out * 10**token_decimal)]. *)
Definition buy_amount_out_estimate
    (amount_out : float) (token_decimal : N) : result Z :=
  scaled ← PyFloat.mul_int amount_out (10 ^ Z.of_N token_decimal);
  PyFloat.to_int scaled.

(** Likewise on the sell path: [int(amount_out * SOL_DECIMAL)]. *)
Definition sell_amount_out_estimate
    (K : Constants) (amount_out : float) : result Z :=
  PyFloat.to_int (amount_out * SOL_DECIMAL K)%float.

(** The figure the specification gives for the minimum output, in exact
    arithmetic: [floor(estimate * (1 - slippage_percent/100))]. *)
Definition spec_minimum_amount_out (estimate : Q) (slippage_percent : Z) : Z :=
  Qfloor (estimate * (1 - inject_Z slippage_percent / 100))%Q.

(* ===================================================================== *)
(** * The two trading functions *)
(* ===================================================================== *)

(** A call to one of the SDK's instruction builders. *)
Definition build (w : World) (ix : Instruction) : M Instruction :=
  lift (match builder_raises w ix with
        | None => Ok ix
        | Some e => Raise e
        end).

(** [mint = pool_keys.base_mint if pool_keys.base_mint != WSOL
           else pool_keys.quote_mint]. *)
Definition traded_mint (K : Constants) (pool_keys : PoolKeys) : Pubkey :=
  if decide (base_mint pool_keys <> WSOL K) then base_mint pool_keys
  else quote_mint pool_keys.

(** [MessageV0.try_compile(payer, instructions, [], blockhash)]. *)
Definition try_compile (w : World) (payer : Pubkey)
    (instructions : list Instruction) (bh : Blockhash) : M Message :=
  perform (CTryCompile payer instructions bh)
    (match try_compile_raises w payer instructions bh with
     | None => Ok {| msg_payer := payer;
                     msg_instructions := instructions;
                     msg_recent_blockhash := bh |}
     | Some e => Raise e
     end).

(** [VersionedTransaction(message, signers)]: signs the message. *)
Definition sign (w : World) (m : Message) (signers : list Keypair)
  : M VersionedTransaction :=
  lift (match sign_raises w m signers with
        | None => Ok {| tx_message := m; tx_signers := signers |}
        | Some e => Raise e
        end).

(** The last three statements of both functions: compile, send with
    [skip_preflight=True], confirm. *)
Definition submit_and_confirm (w : World) (client : Client)
    (payer_keypair : Keypair) (instructions : list Instruction) : M bool :=
  blockhash ← perform (CGetLatestBlockhash client) (get_latest_blockhash w client);
  compiled_message ← try_compile w (kp_pubkey payer_keypair) instructions blockhash;
  txn ← sign w compiled_message [payer_keypair];
  txn_sig ← perform (CSendTransaction client txn true) (send_transaction w client txn);
  perform (CConfirmTxn txn_sig) (confirm_txn w txn_sig).

(** The body of [buy_with_raydium]'s [try] block. *)
Definition buy_body (K : Constants) (w : World) (agent : SolanaAgentKit)
    (pair_address : string) (sol_in : float) (slippage : Z) : M bool :=
  let client := {| endpoint := rpc_url agent |} in
  let payer_keypair := wallet agent in
  let payer := kp_pubkey payer_keypair in
  pool_keys ← perform (CFetchPoolKeys pair_address) (fetch_pool_keys w pair_address);
  match pool_keys with
  | None => mret false
  | Some pool_keys =>
      let mint := traded_mint K pool_keys in
      amount_in ← lift (PyFloat.to_int (sol_in * SOL_DECIMAL K)%float);
      '(base_reserve, quote_reserve, token_decimal) ←
        perform (CGetTokenReserves pool_keys) (get_token_reserves w pool_keys);
      amount_out ← lift (sol_for_tokens w sol_in base_reserve quote_reserve);
      minimum_amount_out ←
        lift (buy_minimum_amount_out amount_out slippage token_decimal);
      token_account_check ←
        perform (CGetTokenAccountsByOwner client payer mint)
                (get_token_accounts_by_owner w client payer mint);
      '(token_account, token_account_instr) ←
        match token_account_check with
        | first :: _ => mret (first, None)
        | [] =>
            ix ← build w (create_associated_token_account payer payer mint);
            mret (get_associated_token_address w payer mint, Some ix)
        end;
      urandom ← os_urandom w 24;
      let seed := urlsafe_b64encode urandom in
      wsol_token_account ← lift (create_with_seed w payer seed (TOKEN_PROGRAM_ID K));
      balance_needed ←
        perform (CGetMinBalanceRent client)
                (get_min_balance_rent_for_exempt_for_account w client);
      create_wsol_account_instr ←
        build w (create_account_with_seed payer wsol_token_account payer seed
                   (balance_needed + amount_in) (ACCOUNT_LAYOUT_sizeof K)
                   (TOKEN_PROGRAM_ID K));
      init_wsol_account_instr ←
        build w (initialize_account (TOKEN_PROGRAM_ID K) wsol_token_account
                   (WSOL K) payer);
      swap_instructions ←
        build w (make_swap_instruction amount_in minimum_amount_out
                   wsol_token_account token_account pool_keys payer_keypair);
      close_wsol_account_instr ←
        build w (close_account (TOKEN_PROGRAM_ID K) wsol_token_account payer payer);
      limit_instr ← build w (set_compute_unit_limit (UNIT_BUDGET K));
      price_instr ← build w (set_compute_unit_price (UNIT_PRICE K));
      let instructions :=
        [limit_instr; price_instr;
         create_wsol_account_instr; init_wsol_account_instr] in
      let instructions :=
        match token_account_instr with
        | Some ix => instructions ++ [ix]
        | None => instructions
        end in
      let instructions :=
        instructions ++ [swap_instructions; close_wsol_account_instr] in
      submit_and_confirm w client payer_keypair instructions
  end.

(** [print(message, e)] in a handler: the console takes what is
    written to it; converting [e] runs its [__str__]. *)
Definition print_exception (w : World) (e : exn) : M unit :=
  lift (str_of_exn w e);; mret tt.

(** How the handler of both functions ends, [print] and [return False]: [False] for an exception it
    can print, and what [str] raised otherwise. *)
Definition handled (w : World) (e : exn) : result bool :=
  match str_of_exn w e with
  | Ok _ => Ok false
  | Raise e' => Raise e'
  end.

(** [buy_with_raydium]: the body, and
    [except Exception as e: print(..., e); return False]. *)
Definition buy_with_raydium (K : Constants) (w : World) (agent : SolanaAgentKit)
    (pair_address : string) (sol_in : float) (slippage : Z) : M bool :=
  try_except (buy_body K w agent pair_address sol_in slippage)
             (fun e => print_exception w e;; mret false).

(** The body of [sell_with_raydium]'s [try] block. *)
Definition sell_body (K : Constants) (w : World) (agent : SolanaAgentKit)
    (pair_address : string) (percentage : Z) (slippage : Z) : M bool :=
  let client := {| endpoint := rpc_url agent |} in
  let payer_keypair := wallet agent in
  let payer := kp_pubkey payer_keypair in
  if negb ((1 <=? percentage) && (percentage <=? 100)) then mret false
  else
    pool_keys ← perform (CFetchPoolKeys pair_address) (fetch_pool_keys w pair_address);
    match pool_keys with
    | None => mret false
    | Some pool_keys =>
        let mint := traded_mint K pool_keys in
        token_balance ← perform (CGetTokenBalance mint) (get_token_balance w mint);
        match token_balance with
        | None => mret false
        | Some token_balance =>
            if (token_balance =? 0)%float then mret false
            else
              share ← lift (PyFloat.int_truediv percentage 100);
              let token_balance := (token_balance * share)%float in
              '(base_reserve, quote_reserve, token_decimal) ←
                perform (CGetTokenReserves pool_keys) (get_token_reserves w pool_keys);
              amount_out ←
                lift (tokens_for_sol w token_balance base_reserve quote_reserve);
              minimum_amount_out ←
                lift (sell_minimum_amount_out K amount_out slippage);
              amount_in ←
                lift (scaled ← PyFloat.mul_int token_balance
                                 (10 ^ Z.of_N token_decimal);
                      PyFloat.to_int scaled);
              let token_account := get_associated_token_address w payer mint in
              urandom ← os_urandom w 24;
              let seed := urlsafe_b64encode urandom in
              wsol_token_account ←
                lift (create_with_seed w payer seed (TOKEN_PROGRAM_ID K));
              balance_needed ←
                perform (CGetMinBalanceRent client)
                        (get_min_balance_rent_for_exempt_for_account w client);
              create_wsol_account_instr ←
                build w (create_account_with_seed payer wsol_token_account payer
                           seed balance_needed (ACCOUNT_LAYOUT_sizeof K)
                           (TOKEN_PROGRAM_ID K));
              init_wsol_account_instr ←
                build w (initialize_account (TOKEN_PROGRAM_ID K)
                           wsol_token_account (WSOL K) payer);
              swap_instructions ←
                build w (make_swap_instruction amount_in minimum_amount_out
                           token_account wsol_token_account pool_keys
                           payer_keypair);
              close_wsol_account_instr ←
                build w (close_account (TOKEN_PROGRAM_ID K) wsol_token_account
                           payer payer);
              limit_instr ← build w (set_compute_unit_limit (UNIT_BUDGET K));
              price_instr ← build w (set_compute_unit_price (UNIT_PRICE K));
              let instructions :=
                [limit_instr; price_instr;
                 create_wsol_account_instr; init_wsol_account_instr;
                 swap_instructions; close_wsol_account_instr] in
              instructions ←
                (if percentage =? 100 then
                   close_token_account_instr ←
                     build w (close_account (TOKEN_PROGRAM_ID K) token_account
                                payer payer);
                   mret (instructions ++ [close_token_account_instr])
                 else mret instructions);
              submit_and_confirm w client payer_keypair instructions
        end
    end.

(** [sell_with_raydium]: the body, and
    [except Exception as e: print(..., e); return False]. *)
Definition sell_with_raydium (K : Constants) (w : World) (agent : SolanaAgentKit)
    (pair_address : string) (percentage : Z) (slippage : Z) : M bool :=
  try_except (sell_body K w agent pair_address percentage slippage)
             (fun e => print_exception w e;; mret false).

(* ===================================================================== *)
(** * Swap math *)
(* ===================================================================== *)

Definition InvalidReserveStateError : exn := Exn "InvalidReserveStateError".

(** Modelled from the spec: [native_for_asset] (the source calls it
    [tokens_for_sol], in [agentx/utils/raydium/utils.py], which is not among
    the sources).  Section 4.2: [native_out = quote_reserve -
    (base_reserve * quote_reserve) / (base_reserve + asset_in)], in
    arbitrary-precision arithmetic; [base_reserve + asset_in > 0] is the
    one checked precondition, and an input that violates it fails with
    [InvalidReserveStateError]. *)
Definition native_for_asset (asset_in base_reserve quote_reserve : Q) : result Q :=
  if Qlt_le_dec 0 (base_reserve + asset_in) then
    Ok (quote_reserve - (base_reserve * quote_reserve) / (base_reserve + asset_in))%Q
  else Raise InvalidReserveStateError.

(* ===================================================================== *)
(** * The event bus *)
(* ===================================================================== *)

Module EventBus.

(** A Python object handed to [subscribe]: a callable, or anything
    else, with the identity of the object. *)
Inductive PyObject : Type :=
| Callable (id : nat)
| NotCallable (id : nat).

#[global] Instance PyObject_eq_dec : EqDecision PyObject.
Proof. solve_decision. Defined.

Definition callable (o : PyObject) : bool :=
  match o with
  | Callable _ => true
  | NotCallable _ => false
  end.

(** [a != b] for an object that defines no comparison of its own: the
    two are unequal when they are two objects. *)
Definition identity_ne (a b : PyObject) : result bool :=
  Ok (bool_decide (a <> b)).

(** The [Event] dataclass; [data] holds the keyword arguments of
    [publish].  An [Event] is mutable: a handler can assign to its
    fields. *)
Record Event := {
  name : string;
  timestamp : Z;
  data : gmap string string
}.

(** [EventBus._subscribers]. *)
Abbreviation Subscribers := (gmap string (list PyObject)).

(** [EventBus()]. *)
Definition empty_bus : Subscribers := ∅.

(** [self._subscribers.get(event_name, [])]. *)
Definition get_subscribers (bus : Subscribers) (event_name : string)
  : list PyObject :=
  default [] (bus !! event_name).

(** [subscribe]: [ValueError] for a handler that is not callable;
    otherwise [setdefault(event_name, []).append(handler)]. *)
Definition subscribe (bus : Subscribers) (event_name : string)
    (handler : PyObject) : result Subscribers :=
  if negb (callable handler) then Raise ValueError
  else Ok (<[event_name := get_subscribers bus event_name ++ [handler]]> bus).

Section Unsubscribe.

(** The truth value of [h != handler]: Python asks the [__ne__] and
    [__eq__] of the two objects, which answer as they like (two bound
    methods of one object are equal, an object may be unequal to
    itself) or raise.  The comparisons are taken to leave the bus
    alone. *)
Variable py_ne : PyObject -> PyObject -> result bool.

(** [[h for h in handlers if h != handler]]: the comparisons run from
    left to right, and one that raises ends the comprehension. *)
Fixpoint without (handlers : list PyObject) (handler : PyObject)
  : result (list PyObject) :=
  match handlers with
  | [] => Ok []
  | h :: rest =>
      keep ← py_ne h handler;
      kept ← without rest handler;
      Ok (if keep : bool then h :: kept else kept)
  end.

(** [unsubscribe]: rebuilds the list without the handlers equal to
    [handler], when the event name is a key; the entry is assigned only
    when the comprehension has returned. *)
Definition unsubscribe (bus : Subscribers) (event_name : string)
    (handler : PyObject) : result Subscribers :=
  match bus !! event_name with
  | Some hs =>
      kept ← without hs handler;
      Ok (<[event_name := kept]> bus)
  | None => Ok bus
  end.

End Unsubscribe.

(** What a run of [publish] does that can be seen from outside. *)
Inductive action : Type :=
| Invoked (handler : PyObject) (event : Event)
| Printed (event_name : string) (e : exn).

(** [publish(self, event_name, **data)] binds a keyword named [self] or
    [event_name] to a parameter that already has a value. *)
Definition rebinds_parameter (kwargs : gmap string string) : bool :=
  bool_decide (is_Some (kwargs !! "self")) ||
  bool_decide (is_Some (kwargs !! "event_name")).

Section Publish.

(** The state the handlers act on.  Calling an object with the event
    returns or raises, may change that state, and may assign to the
    fields of the event: the result holds the state and the event after
    the call.  The bus itself is not part of the state: a handler
    that subscribes or unsubscribes while [publish] runs is outside the
    model. *)
Context {S : Type}.
Variable call_object : PyObject -> Event -> S -> S * Event * result unit.

(** [str(e)], which the f-string of the handler of [publish]
    evaluates. *)
Variable str_of_exn : exn -> result string.

(** A computation of the loop: it acts on the handlers' state and on
    the one [Event] object of the call, and logs its actions. *)
Definition B (A : Type) : Type :=
  S * Event -> list action * (S * Event) * result A.

Definition bret {A} (a : A) : B A := fun st => ([], st, Ok a).

Definition bbind {A A'} (m : B A) (f : A -> B A') : B A' := fun st =>
  match m st with
  | (l, st1, Ok a) => let '(l', st2, r) := f a st1 in (l ++ l', st2, r)
  | (l, st1, Raise e) => (l, st1, Raise e)
  end.

(** [try: m except Exception as e: h e]. *)
Definition btry {A} (m : B A) (h : exn -> B A) : B A := fun st =>
  match m st with
  | (l, st1, Ok a) => (l, st1, Ok a)
  | (l, st1, Raise e) =>
      if is_Exception e then let '(l', st2, r) := h e st1 in (l ++ l', st2, r)
      else (l, st1, Raise e)
  end.

(** [handler(event)], with [event] the one object of the call. *)
Definition invoke (handler : PyObject) : B unit := fun st =>
  let '(s', event', r) := call_object handler st.2 st.1 in
  ([Invoked handler st.2], (s', event'), r).

(** [print(f"Error in event handler for {event_name}: {e}")]: the line
    is formatted first, and printed if that returns. *)
Definition print_error (event_name : string) (e : exn) : B unit := fun st =>
  match str_of_exn e with
  | Ok _ => ([Printed event_name e], st, Ok tt)
  | Raise e' => ([], st, Raise e')
  end.

(** [for handler in handlers: body handler]. *)
Fixpoint for_each (handlers : list PyObject) (body : PyObject -> B unit)
  : B unit :=
  match handlers with
  | [] => bret tt
  | handler :: rest => bbind (body handler) (fun _ => for_each rest body)
  end.

(** One turn of the loop of [publish]:
    [try: handler(event) except Exception as e: print(...)]. *)
Definition turn (event_name : string) (handler : PyObject) : B unit :=
  btry (invoke handler) (fun e => print_error event_name e).

(** The loop of [publish] over a list of handlers. *)
Definition deliver (event_name : string) (handlers : list PyObject) : B unit :=
  for_each handlers (turn event_name).

(** What the calls of a list of handlers, one after the other, leave of
    the state and of the event, whether they return or raise. *)
Definition effects (called : list PyObject) (st : S * Event) : S * Event :=
  foldl (fun st handler => (call_object handler st.2 st.1).1) st called.

(** How a turn of the loop comes to raise [e]: the call of the handler
    with the event raised [e], which is no instance of [Exception], or
    it raised an [Exception] for which [str] raised [e]. *)
Definition escaped (handler : PyObject) (event : Event) (e : exn) : Prop :=
  exists s0 e0,
    (call_object handler event s0).2 = Raise e0 /\
    ((e = e0 /\ is_Exception e0 = false) \/
     (is_Exception e0 = true /\ str_of_exn e0 = Raise e)).

(** A handler that can do no harm to a run of [publish]: it leaves the
    event as it found it, and it returns or raises an [Exception] that
    can be printed. *)
Definition contained (handler : PyObject) : Prop :=
  forall event s,
    (call_object handler event s).1.2 = event /\
    match (call_object handler event s).2 with
    | Ok _ => True
    | Raise e => is_Exception e = true /\ exists line, str_of_exn e = Ok line
    end.

(** [publish(event_name, **data)], with [now] the value of
    [datetime.now()]: the call fails before the body when a keyword
    takes the place of a parameter. *)
Definition publish (bus : Subscribers) (event_name : string)
    (kwargs : gmap string string) (now : Z)
  : S -> list action * S * result unit := fun s =>
  if rebinds_parameter kwargs then ([], s, Raise TypeError)
  else
    let event := {| name := event_name; timestamp := now; data := kwargs |} in
    let '(log, st, r) :=
      deliver event_name (get_subscribers bus event_name) (s, event) in
    (log, st.1, r).

End Publish.

(** The handler calls of a log, in order. *)
Definition invocations (l : list action) : list (PyObject * Event) :=
  omap (fun a => match a with
                 | Invoked h ev => Some (h, ev)
                 | Printed _ _ => None
                 end) l.

End EventBus.

(* ===================================================================== *)
(** * Observing a run *)
(* ===================================================================== *)

(** The instruction lists a run handed to [MessageV0.try_compile]: the
    operation bundles it assembled. *)
Definition bundles (t : list call) : list (list Instruction) :=
  omap (fun c => match c with
                 | CTryCompile _ ixs _ => Some ixs
                 | _ => None
                 end) t.

(** The lamports of the [create_account_with_seed] instructions of a
    bundle, and the accounts they create. *)
Definition funding (ixs : list Instruction) : list Z :=
  omap (fun ix => match ix with
                  | create_account_with_seed _ _ _ _ lamports _ _ => Some lamports
                  | _ => None
                  end) ixs.

Definition ephemeral_accounts (ixs : list Instruction) : list Pubkey :=
  omap (fun ix => match ix with
                  | create_account_with_seed _ to_pubkey _ _ _ _ _ => Some to_pubkey
                  | _ => None
                  end) ixs.

(** The seeds of the [create_account_with_seed] instructions of a
    bundle. *)
Definition seeds (ixs : list Instruction) : list string :=
  omap (fun ix => match ix with
                  | create_account_with_seed _ _ _ seed _ _ _ => Some seed
                  | _ => None
                  end) ixs.

(** The accounts a bundle closes, in order. *)
Definition closed_accounts (ixs : list Instruction) : list Pubkey :=
  omap (fun ix => match ix with
                  | close_account _ account _ _ => Some account
                  | _ => None
                  end) ixs.

(** A bundle that some call of one of the two functions assembles for the
    wallet of [agent] in world [w]. *)
Definition assembles (K : Constants) (w : World) (agent : SolanaAgentKit)
    (ixs : list Instruction) : Prop :=
  (exists pair_address sol_in slippage,
     In ixs (bundles (trace
       (buy_with_raydium K w agent pair_address sol_in slippage)))) \/
  (exists pair_address percentage slippage,
     In ixs (bundles (trace
       (sell_with_raydium K w agent pair_address percentage slippage)))).

(** Modelled from the spec: the three-variant outcome of section 6, which
    the sources do not define. *)
Inductive Outcome : Type :=
| Confirmed (signature : Signature)
| Rejected (reason : string)
| TimedOut (signature : Signature).

(* ===================================================================== *)
(** * A sample world *)
(* ===================================================================== *)

Module Sample.

Definition constants : Constants := {|
  SOL_DECIMAL := 1e9%float;
  TOKEN_PROGRAM_ID := "TokenkegQfeZyiNwAJbNbGKPFXCWuBvf9Ss623VQ5DA";
  UNIT_BUDGET := 100000;
  UNIT_PRICE := 1000000;
  WSOL := "So11111111111111111111111111111111111111112";
  ACCOUNT_LAYOUT_sizeof := 165
|}.

Definition agent : SolanaAgentKit := {|
  rpc_url := "https://api.mainnet-beta.solana.com";
  wallet := {| kp_pubkey := "wallet" |}
|}.

Definition pool : PoolKeys := {|
  amm_id := "pool";
  base_mint := "mint";
  quote_mint := WSOL constants;
  base_vault := "base-vault";
  quote_vault := "quote-vault"
|}.

Definition u64 (z : Z) : bool := (0 <=? z) && (z <? 2 ^ 64).

(** The builders refuse an amount that is not an unsigned 64-bit
    integer. *)
Definition builder_check (ix : Instruction) : option exn :=
  match ix with
  | create_account_with_seed _ _ _ _ lamports space _ =>
      if u64 lamports && u64 space then None else Some OverflowError
  | make_swap_instruction amount_in minimum_amount_out _ _ _ _ =>
      if u64 amount_in && u64 minimum_amount_out then None
      else Some OverflowError
  | set_compute_unit_limit n | set_compute_unit_price n =>
      if u64 n then None else Some OverflowError
  | _ => None
  end.

(** A world where every stage succeeds: the wallet holds no account for
    the mint yet, holds 250 tokens, and the transaction is confirmed. *)
Definition world (salt : byte) : World := {|
  fetch_pool_keys := fun _ => Ok (Some pool);
  get_token_balance := fun _ => Ok (Some 250%float);
  get_token_reserves := fun _ => Ok (1000000%float, 500000%float, 6%N);
  sol_for_tokens := fun _ _ _ => Ok 1%float;
  tokens_for_sol := fun _ _ _ => Ok 1%float;
  get_token_accounts_by_owner := fun _ _ _ => Ok [];
  get_associated_token_address := fun owner mint => owner +:+ "/" +:+ mint;
  entropy := fun i => if decide (i = 0%nat) then salt else x2a;
  create_with_seed := fun base seed owner => Ok (base +:+ "/" +:+ seed);
  get_min_balance_rent_for_exempt_for_account := fun _ => Ok 2039280;
  builder_raises := builder_check;
  get_latest_blockhash := fun _ => Ok "blockhash";
  try_compile_raises := fun _ _ _ => None;
  sign_raises := fun _ _ => None;
  send_transaction := fun _ _ => Ok "signature";
  confirm_txn := fun _ => Ok true;
  str_of_exn := fun e => Ok (match e with Exn cls | BaseExn cls => cls end)
|}.

(** The network refuses the submission. *)
Definition world_rejected : World := {|
  fetch_pool_keys := fetch_pool_keys (world x00);
  get_token_balance := get_token_balance (world x00);
  get_token_reserves := get_token_reserves (world x00);
  sol_for_tokens := sol_for_tokens (world x00);
  tokens_for_sol := tokens_for_sol (world x00);
  get_token_accounts_by_owner := get_token_accounts_by_owner (world x00);
  get_associated_token_address := get_associated_token_address (world x00);
  entropy := entropy (world x00);
  create_with_seed := create_with_seed (world x00);
  get_min_balance_rent_for_exempt_for_account :=
    get_min_balance_rent_for_exempt_for_account (world x00);
  builder_raises := builder_check;
  get_latest_blockhash := get_latest_blockhash (world x00);
  try_compile_raises := fun _ _ _ => None;
  sign_raises := fun _ _ => None;
  send_transaction := fun _ _ => Raise (Exn "RPCException");
  confirm_txn := confirm_txn (world x00);
  str_of_exn := fun e => Ok (match e with Exn cls | BaseExn cls => cls end)
|}.

(** The submission is accepted and never seen confirmed. *)
Definition world_timed_out : World := {|
  fetch_pool_keys := fetch_pool_keys (world x00);
  get_token_balance := get_token_balance (world x00);
  get_token_reserves := get_token_reserves (world x00);
  sol_for_tokens := sol_for_tokens (world x00);
  tokens_for_sol := tokens_for_sol (world x00);
  get_token_accounts_by_owner := get_token_accounts_by_owner (world x00);
  get_associated_token_address := get_associated_token_address (world x00);
  entropy := entropy (world x00);
  create_with_seed := create_with_seed (world x00);
  get_min_balance_rent_for_exempt_for_account :=
    get_min_balance_rent_for_exempt_for_account (world x00);
  builder_raises := builder_check;
  get_latest_blockhash := get_latest_blockhash (world x00);
  try_compile_raises := fun _ _ _ => None;
  sign_raises := fun _ _ => None;
  send_transaction := send_transaction (world x00);
  confirm_txn := fun _ => Ok false;
  str_of_exn := fun e => Ok (match e with Exn cls | BaseExn cls => cls end)
|}.

End Sample.

(* ===================================================================== *)
(** * More observations of a run *)
(* ===================================================================== *)

(** The Python name of the function a call goes to. *)
Definition call_name (c : call) : string :=
  match c with
  | CFetchPoolKeys _ => "fetch_pool_keys"
  | CGetTokenBalance _ => "get_token_balance"
  | CGetTokenReserves _ => "get_token_reserves"
  | CGetTokenAccountsByOwner _ _ _ => "client.get_token_accounts_by_owner"
  | CUrandom _ => "os.urandom"
  | CGetMinBalanceRent _ => "Token.get_min_balance_rent_for_exempt_for_account"
  | CGetLatestBlockhash _ => "client.get_latest_blockhash"
  | CTryCompile _ _ _ => "MessageV0.try_compile"
  | CSendTransaction _ _ _ => "client.send_transaction"
  | CConfirmTxn _ => "confirm_txn"
  end.

(** The calls of both functions, in the order of the source text. *)
Definition buy_call_order : list string :=
  ["fetch_pool_keys"; "get_token_reserves";
   "client.get_token_accounts_by_owner"; "os.urandom";
   "Token.get_min_balance_rent_for_exempt_for_account";
   "client.get_latest_blockhash"; "MessageV0.try_compile";
   "client.send_transaction"; "confirm_txn"].

Definition sell_call_order : list string :=
  ["fetch_pool_keys"; "get_token_balance"; "get_token_reserves";
   "os.urandom"; "Token.get_min_balance_rent_for_exempt_for_account";
   "client.get_latest_blockhash"; "MessageV0.try_compile";
   "client.send_transaction"; "confirm_txn"].

(** The swap instructions of a bundle: the amounts and the two token
    accounts. *)
Definition swaps (ixs : list Instruction) : list (Z * Z * Pubkey * Pubkey) :=
  omap (fun ix => match ix with
                  | make_swap_instruction amount_in minimum_amount_out
                      token_account_in token_account_out _ _ =>
                      Some (amount_in, minimum_amount_out,
                            token_account_in, token_account_out)
                  | _ => None
                  end) ixs.

(** The associated token accounts a bundle creates: the mints they are
    for. *)
Definition associated_accounts_created (ixs : list Instruction) : list Pubkey :=
  omap (fun ix => match ix with
                  | create_associated_token_account _ _ mint => Some mint
                  | _ => None
                  end) ixs.

(** What both functions hand to [client.send_transaction] and to
    [confirm_txn]. *)
Definition well_submitted (K : Constants) (w : World) (agent : SolanaAgentKit)
    (t : list call) (c : call) : Prop :=
  let client := {| endpoint := rpc_url agent |} in
  match c with
  | CSendTransaction c' txn skip_preflight =>
      c' = client /\ skip_preflight = true /\
      tx_signers txn = [wallet agent] /\
      msg_payer (tx_message txn) = kp_pubkey (wallet agent) /\
      get_latest_blockhash w client = Ok (msg_recent_blockhash (tx_message txn)) /\
      bundles t = [msg_instructions (tx_message txn)]
  | CConfirmTxn txn_sig =>
      exists txn, In (CSendTransaction client txn true) t /\
                  send_transaction w client txn = Ok txn_sig
  | _ => True
  end.

(* ===================================================================== *)
(** * The stages of a run *)
(* ===================================================================== *)

(** The list [instructions] of a buy, from what the stages before it
    returned: the pool, the two amounts of the swap, the token accounts
    the wallet holds for the mint, the address derived from the seed
    and the rent-exempt minimum. *)
Definition buy_instructions (K : Constants) (w : World) (agent : SolanaAgentKit)
    (pool_keys : PoolKeys) (amount_in minimum_amount_out : Z)
    (token_account_check : list Pubkey) (wsol_token_account : Pubkey)
    (balance_needed : Z) : list Instruction :=
  let payer := kp_pubkey (wallet agent) in
  let mint := traded_mint K pool_keys in
  let seed := urlsafe_b64encode (random_bytes w 24) in
  [set_compute_unit_limit (UNIT_BUDGET K);
   set_compute_unit_price (UNIT_PRICE K);
   create_account_with_seed payer wsol_token_account payer seed
     (balance_needed + amount_in) (ACCOUNT_LAYOUT_sizeof K) (TOKEN_PROGRAM_ID K);
   initialize_account (TOKEN_PROGRAM_ID K) wsol_token_account (WSOL K) payer]
  ++ match token_account_check with
     | [] => [create_associated_token_account payer payer mint]
     | _ :: _ => []
     end
  ++ [make_swap_instruction amount_in minimum_amount_out wsol_token_account
        (match token_account_check with
         | [] => get_associated_token_address w payer mint
         | first :: _ => first
         end) pool_keys (wallet agent);
      close_account (TOKEN_PROGRAM_ID K) wsol_token_account payer payer].

(** The list [instructions] of a sell. *)
Definition sell_instructions (K : Constants) (w : World) (agent : SolanaAgentKit)
    (percentage : Z) (pool_keys : PoolKeys) (amount_in minimum_amount_out : Z)
    (wsol_token_account : Pubkey) (balance_needed : Z) : list Instruction :=
  let payer := kp_pubkey (wallet agent) in
  let mint := traded_mint K pool_keys in
  let seed := urlsafe_b64encode (random_bytes w 24) in
  let token_account := get_associated_token_address w payer mint in
  [set_compute_unit_limit (UNIT_BUDGET K);
   set_compute_unit_price (UNIT_PRICE K);
   create_account_with_seed payer wsol_token_account payer seed
     balance_needed (ACCOUNT_LAYOUT_sizeof K) (TOKEN_PROGRAM_ID K);
   initialize_account (TOKEN_PROGRAM_ID K) wsol_token_account (WSOL K) payer;
   make_swap_instruction amount_in minimum_amount_out token_account
     wsol_token_account pool_keys (wallet agent);
   close_account (TOKEN_PROGRAM_ID K) wsol_token_account payer payer]
  ++ (if percentage =? 100
      then [close_account (TOKEN_PROGRAM_ID K) token_account payer payer]
      else []).

(** The world answers every stage of a buy before the block hash is
    asked for: the pool is known, the arithmetic is defined, the
    requests return and the builders accept their arguments. *)
Definition buy_answers (K : Constants) (w : World) (agent : SolanaAgentKit)
    (pair_address : string) (sol_in : float) (slippage : Z)
    (pool_keys : PoolKeys) (amount_in minimum_amount_out : Z)
    (token_account_check : list Pubkey) (wsol_token_account : Pubkey)
    (balance_needed : Z) : Prop :=
  let client := {| endpoint := rpc_url agent |} in
  let payer := kp_pubkey (wallet agent) in
  exists base_reserve quote_reserve token_decimal amount_out,
    fetch_pool_keys w pair_address = Ok (Some pool_keys) /\
    PyFloat.to_int (sol_in * SOL_DECIMAL K) = Ok amount_in /\
    get_token_reserves w pool_keys = Ok (base_reserve, quote_reserve, token_decimal) /\
    sol_for_tokens w sol_in base_reserve quote_reserve = Ok amount_out /\
    buy_minimum_amount_out amount_out slippage token_decimal = Ok minimum_amount_out /\
    get_token_accounts_by_owner w client payer (traded_mint K pool_keys)
      = Ok token_account_check /\
    create_with_seed w payer (urlsafe_b64encode (random_bytes w 24))
      (TOKEN_PROGRAM_ID K) = Ok wsol_token_account /\
    get_min_balance_rent_for_exempt_for_account w client = Ok balance_needed /\
    Forall (fun ix => builder_raises w ix = None)
      (buy_instructions K w agent pool_keys amount_in minimum_amount_out
         token_account_check wsol_token_account balance_needed).

(** Likewise for a sell: the percentage is within [1, 100] and the
    wallet holds some of the token. *)
Definition sell_answers (K : Constants) (w : World) (agent : SolanaAgentKit)
    (pair_address : string) (percentage slippage : Z)
    (pool_keys : PoolKeys) (amount_in minimum_amount_out : Z)
    (wsol_token_account : Pubkey) (balance_needed : Z) : Prop :=
  let client := {| endpoint := rpc_url agent |} in
  let payer := kp_pubkey (wallet agent) in
  exists token_balance share base_reserve quote_reserve token_decimal amount_out,
    1 <= percentage <= 100 /\
    fetch_pool_keys w pair_address = Ok (Some pool_keys) /\
    get_token_balance w (traded_mint K pool_keys) = Ok (Some token_balance) /\
    (token_balance =? 0)%float = false /\
    PyFloat.int_truediv percentage 100 = Ok share /\
    get_token_reserves w pool_keys = Ok (base_reserve, quote_reserve, token_decimal) /\
    tokens_for_sol w (token_balance * share)%float base_reserve quote_reserve
      = Ok amount_out /\
    sell_minimum_amount_out K amount_out slippage = Ok minimum_amount_out /\
    (scaled ← PyFloat.mul_int (token_balance * share)%float
                (10 ^ Z.of_N token_decimal);
     PyFloat.to_int scaled) = Ok amount_in /\
    create_with_seed w payer (urlsafe_b64encode (random_bytes w 24))
      (TOKEN_PROGRAM_ID K) = Ok wsol_token_account /\
    get_min_balance_rent_for_exempt_for_account w client = Ok balance_needed /\
    Forall (fun ix => builder_raises w ix = None)
      (sell_instructions K w agent percentage pool_keys amount_in
         minimum_amount_out wsol_token_account balance_needed).

(** The calls a buy and a sell have made when they ask for the block
    hash. *)
Definition buy_preparation (K : Constants) (agent : SolanaAgentKit)
    (pair_address : string) (pool_keys : PoolKeys) : list call :=
  let client := {| endpoint := rpc_url agent |} in
  [CFetchPoolKeys pair_address;
   CGetTokenReserves pool_keys;
   CGetTokenAccountsByOwner client (kp_pubkey (wallet agent))
     (traded_mint K pool_keys);
   CUrandom 24;
   CGetMinBalanceRent client].

Definition sell_preparation (K : Constants) (agent : SolanaAgentKit)
    (pair_address : string) (pool_keys : PoolKeys) : list call :=
  let client := {| endpoint := rpc_url agent |} in
  [CFetchPoolKeys pair_address;
   CGetTokenBalance (traded_mint K pool_keys);
   CGetTokenReserves pool_keys;
   CUrandom 24;
   CGetMinBalanceRent client].

(** The transaction both functions sign: the compiled message, signed
    by the wallet. *)
Definition signed_transaction (agent : SolanaAgentKit)
    (instructions : list Instruction) (blockhash : Blockhash)
  : VersionedTransaction :=
  {| tx_message := {| msg_payer := kp_pubkey (wallet agent);
                      msg_instructions := instructions;
                      msg_recent_blockhash := blockhash |};
     tx_signers := [wallet agent] |}.

(** The node answers with a block hash, the message compiles and is
    signed, and the node takes the transaction. *)
Definition submission_accepted (w : World) (agent : SolanaAgentKit)
    (instructions : list Instruction) (blockhash : Blockhash)
    (txn_sig : Signature) : Prop :=
  let client := {| endpoint := rpc_url agent |} in
  get_latest_blockhash w client = Ok blockhash /\
  try_compile_raises w (kp_pubkey (wallet agent)) instructions blockhash = None /\
  sign_raises w (tx_message (signed_transaction agent instructions blockhash))
    [wallet agent] = None /\
  send_transaction w client (signed_transaction agent instructions blockhash)
    = Ok txn_sig.

(** The calls of [submit_and_confirm] when the submission is accepted. *)
Definition submission (agent : SolanaAgentKit) (instructions : list Instruction)
    (blockhash : Blockhash) (txn_sig : Signature) : list call :=
  let client := {| endpoint := rpc_url agent |} in
  [CGetLatestBlockhash client;
   CTryCompile (kp_pubkey (wallet agent)) instructions blockhash;
   CSendTransaction client (signed_transaction agent instructions blockhash) true;
   CConfirmTxn txn_sig].




(* ===================================================================== *)
(** * Worlds for the edge cases *)
(* ===================================================================== *)

Module Edge.

(** A world that answers [fetch_pool_keys] by [f] and everything else as
    [w] does. *)
Definition with_pool_lookup (w : World)
    (f : string -> result (option PoolKeys)) : World := {|
  fetch_pool_keys := f;
  get_token_balance := get_token_balance w;
  get_token_reserves := get_token_reserves w;
  sol_for_tokens := sol_for_tokens w;
  tokens_for_sol := tokens_for_sol w;
  get_token_accounts_by_owner := get_token_accounts_by_owner w;
  get_associated_token_address := get_associated_token_address w;
  entropy := entropy w;
  create_with_seed := create_with_seed w;
  get_min_balance_rent_for_exempt_for_account :=
    get_min_balance_rent_for_exempt_for_account w;
  builder_raises := builder_raises w;
  get_latest_blockhash := get_latest_blockhash w;
  try_compile_raises := try_compile_raises w;
  sign_raises := sign_raises w;
  send_transaction := send_transaction w;
  confirm_txn := confirm_txn w;
  str_of_exn := str_of_exn w
|}.

(** Likewise for [get_token_balance]. *)
Definition with_token_balance (w : World)
    (f : string -> result (option float)) : World := {|
  fetch_pool_keys := fetch_pool_keys w;
  get_token_balance := f;
  get_token_reserves := get_token_reserves w;
  sol_for_tokens := sol_for_tokens w;
  tokens_for_sol := tokens_for_sol w;
  get_token_accounts_by_owner := get_token_accounts_by_owner w;
  get_associated_token_address := get_associated_token_address w;
  entropy := entropy w;
  create_with_seed := create_with_seed w;
  get_min_balance_rent_for_exempt_for_account :=
    get_min_balance_rent_for_exempt_for_account w;
  builder_raises := builder_raises w;
  get_latest_blockhash := get_latest_blockhash w;
  try_compile_raises := try_compile_raises w;
  sign_raises := sign_raises w;
  send_transaction := send_transaction w;
  confirm_txn := confirm_txn w;
  str_of_exn := str_of_exn w
|}.

(** Likewise for [client.get_token_accounts_by_owner]. *)
Definition with_token_accounts (w : World)
    (f : Client -> Pubkey -> Pubkey -> result (list Pubkey)) : World := {|
  fetch_pool_keys := fetch_pool_keys w;
  get_token_balance := get_token_balance w;
  get_token_reserves := get_token_reserves w;
  sol_for_tokens := sol_for_tokens w;
  tokens_for_sol := tokens_for_sol w;
  get_token_accounts_by_owner := f;
  get_associated_token_address := get_associated_token_address w;
  entropy := entropy w;
  create_with_seed := create_with_seed w;
  get_min_balance_rent_for_exempt_for_account :=
    get_min_balance_rent_for_exempt_for_account w;
  builder_raises := builder_raises w;
  get_latest_blockhash := get_latest_blockhash w;
  try_compile_raises := try_compile_raises w;
  sign_raises := sign_raises w;
  send_transaction := send_transaction w;
  confirm_txn := confirm_txn w;
  str_of_exn := str_of_exn w
|}.

(** Likewise for [confirm_txn]. *)
Definition with_confirm_txn (w : World)
    (f : Signature -> result bool) : World := {|
  fetch_pool_keys := fetch_pool_keys w;
  get_token_balance := get_token_balance w;
  get_token_reserves := get_token_reserves w;
  sol_for_tokens := sol_for_tokens w;
  tokens_for_sol := tokens_for_sol w;
  get_token_accounts_by_owner := get_token_accounts_by_owner w;
  get_associated_token_address := get_associated_token_address w;
  entropy := entropy w;
  create_with_seed := create_with_seed w;
  get_min_balance_rent_for_exempt_for_account :=
    get_min_balance_rent_for_exempt_for_account w;
  builder_raises := builder_raises w;
  get_latest_blockhash := get_latest_blockhash w;
  try_compile_raises := try_compile_raises w;
  sign_raises := sign_raises w;
  send_transaction := send_transaction w;
  confirm_txn := f;
  str_of_exn := str_of_exn w
|}.


(** Likewise for [str]. *)
Definition with_str (w : World) (f : exn -> result string) : World := {|
  fetch_pool_keys := fetch_pool_keys w;
  get_token_balance := get_token_balance w;
  get_token_reserves := get_token_reserves w;
  sol_for_tokens := sol_for_tokens w;
  tokens_for_sol := tokens_for_sol w;
  get_token_accounts_by_owner := get_token_accounts_by_owner w;
  get_associated_token_address := get_associated_token_address w;
  entropy := entropy w;
  create_with_seed := create_with_seed w;
  get_min_balance_rent_for_exempt_for_account :=
    get_min_balance_rent_for_exempt_for_account w;
  builder_raises := builder_raises w;
  get_latest_blockhash := get_latest_blockhash w;
  try_compile_raises := try_compile_raises w;
  sign_raises := sign_raises w;
  send_transaction := send_transaction w;
  confirm_txn := confirm_txn w;
  str_of_exn := f
|}.


(** The user interrupts the wait for the confirmation. *)
Definition world_interrupted : World :=
  with_confirm_txn (Sample.world x00) (fun _ => Raise KeyboardInterrupt).

(** The node raises an exception whose [__str__] raises in turn. *)
Definition world_unprintable : World :=
  with_str (with_confirm_txn (Sample.world x00) (fun _ => Raise (Exn "RPCException")))
           (fun _ => Raise TypeError).


(** The pool is unknown. *)
Definition world_without_pool : World :=
  with_pool_lookup (Sample.world x00) (fun _ => Ok None).

(** The wallet holds none of the token: the balance is negative zero. *)
Definition world_without_balance : World :=
  with_token_balance (Sample.world x00) (fun _ => Ok (Some (-0)%float)).

(** The wallet already holds two accounts for the mint. *)
Definition world_with_token_account : World :=
  with_token_accounts (Sample.world x00)
    (fun _ _ _ => Ok ["token-account"; "second-token-account"]).

End Edge.

(* ===================================================================== *)
(** * Changes of the event bus *)
(* ===================================================================== *)

(** A call of one of the two methods that change a bus. *)
Inductive bus_call : Type :=
| Subscribe (event_name : string) (handler : EventBus.PyObject)
| Unsubscribe (event_name : string) (handler : EventBus.PyObject).

Definition bus_call_name (c : bus_call) : string :=
  match c with
  | Subscribe event_name _ | Unsubscribe event_name _ => event_name
  end.

(** The bus after a call: [subscribe] raises before it touches
    [_subscribers] and [unsubscribe] before it assigns, so a call that
    raises leaves the bus as it was. *)
Definition after_call
    (py_ne : EventBus.PyObject -> EventBus.PyObject -> result bool)
    (bus : EventBus.Subscribers) (c : bus_call) : EventBus.Subscribers :=
  match c with
  | Subscribe event_name handler =>
      match EventBus.subscribe bus event_name handler with
      | Ok bus' => bus'
      | Raise _ => bus
      end
  | Unsubscribe event_name handler =>
      match EventBus.unsubscribe py_ne bus event_name handler with
      | Ok bus' => bus'
      | Raise _ => bus
      end
  end.

(** The bus a sequence of calls builds from [EventBus()]. *)
Definition after_calls
    (py_ne : EventBus.PyObject -> EventBus.PyObject -> result bool)
    (cs : list bus_call) : EventBus.Subscribers :=
  foldl (after_call py_ne) EventBus.empty_bus cs.

(* ===================================================================== *)
(** * The plugin registry *)
(* ===================================================================== *)

Module PluginRegistry.

(** A plugin class: the [__name__] it was defined with, and the identity
    of the class object. *)
Record PluginClass := {
  __name__ : string;
  class_id : nat
}.

(** [PluginRegistry._plugins], the dictionary of the class. *)
Abbreviation Plugins := (gmap string PluginClass).

(** [register]: files the class under its name and returns it; the
    result is the dictionary after the call and the returned class. *)
Definition register (_plugins : Plugins) (plugin_class : PluginClass)
  : Plugins * PluginClass :=
  let plugin_name := __name__ plugin_class in
  (<[plugin_name := plugin_class]> _plugins, plugin_class).

(** [get_plugin]: [cls._plugins.get(name)]. *)
Definition get_plugin (_plugins : Plugins) (name : string)
  : option PluginClass :=
  _plugins !! name.

(** [list_plugins]: [cls._plugins.copy()], a dictionary with the same
    entries. *)
Definition list_plugins (_plugins : Plugins) : Plugins := _plugins.

End PluginRegistry.

(** The decorator [register_plugin]. *)
Definition register_plugin (_plugins : PluginRegistry.Plugins)
    (plugin_class : PluginRegistry.PluginClass)
  : PluginRegistry.Plugins * PluginRegistry.PluginClass :=
  PluginRegistry.register _plugins plugin_class.

(** The dictionary after the classes of a list have been decorated, in
    order. *)
Definition decorate_all (_plugins : PluginRegistry.Plugins)
    (classes : list PluginRegistry.PluginClass) : PluginRegistry.Plugins :=
  foldl (fun registry plugin_class => (register_plugin registry plugin_class).1)
    _plugins classes.

(* ===================================================================== *)
(** * The configuration *)
(* ===================================================================== *)

Module Config.

(** The values [_config] holds: what [_load_env_vars] stores, and
    [None]. *)
Inductive value : Type :=
| VNone
| VInt (z : Z)
| VFloat (f : float)
| VStr (s : string)
| VDict (d : gmap string string).

(** The two attributes of the class: whether [_instance] has been
    created, and the dictionary [_config], which every instance
    shares. *)
Record state := {
  _instance : bool;
  _config : gmap string value
}.

(** A method of the class: the state after it, and its result. *)
Definition C (A : Type) : Type := state -> state * result A.

#[global] Instance C_ret : MRet C := fun _ a st => (st, Ok a).
#[global] Instance C_bind : MBind C := fun _ _ f m st =>
  match m st with
  | (st', Ok a) => f a st'
  | (st', Raise e) => (st', Raise e)
  end.

(** An expression that reads no attribute of the class. *)
Definition eval {A} (r : result A) : C A := fun st => (st, r).

(** [self._config[key] = v]. *)
Definition setitem (key : string) (v : value) : C unit := fun st =>
  ({| _instance := _instance st; _config := <[key := v]> (_config st) |}, Ok tt).

(** [self._config.get(key, default)]. *)
Definition dict_get (key : string) (default : value) : C value := fun st =>
  (st, Ok (match _config st !! key with
           | Some v => v
           | None => default
           end)).

(** [self._config.clear()]. *)
Definition clear : C unit := fun st =>
  ({| _instance := _instance st; _config := ∅ |}, Ok tt).

Section Environment.

(** The process environment, and the conversions [int(s)] and
    [float(s)] of a string, which raise [ValueError] on a string that
    is not a number. *)
Variable environ : gmap string string.
Variable int_of_str : string -> result Z.
Variable float_of_str : string -> result float.

(** [os.getenv(name, fallback)] with a string for [fallback]. *)
Definition getenv (name fallback : string) : string :=
  match environ !! name with
  | Some s => s
  | None => fallback
  end.

(** [int(os.getenv(name, fallback))] with an [int] for [fallback]. *)
Definition getenv_int (name : string) (fallback : Z) : result Z :=
  match environ !! name with
  | Some s => int_of_str s
  | None => Ok fallback
  end.

(** [float(os.getenv(name, fallback))] with an [int] for [fallback]. *)
Definition getenv_float (name : string) (fallback : Z) : result float :=
  match environ !! name with
  | Some s => float_of_str s
  | None => PyFloat.of_int fallback
  end.

(** The dictionary literal stored under ["TOKENS"]. *)
Definition tokens : gmap string string :=
  list_to_map
    [("SOL", getenv "AGENTX_SOL_ADDRESS" "So11111111111111111111111111111111111111112");
     ("USDC", getenv "AGENTX_USDC_ADDRESS" "EPjFWdd5AufqSSqeM2qN1xzybapC8G4wEGGkZwyTDt1v");
     ("USDT", getenv "AGENTX_USDT_ADDRESS" "Es9vMFrzaCERmJfrF4H2FYD4KCoNkY11McCe8BenwNYB");
     ("USDS", getenv "AGENTX_USDS_ADDRESS" "USDSwr9ApdHk5bvJKMjzff41FfuX8bSxdKcR81vTwcA");
     ("jitoSOL", getenv "AGENTX_JITOSOL_ADDRESS" "J1toso1uCk3RLmjorhTtrVwY9HJ7X8V9yYac6Y7kGCPn");
     ("bSOL", getenv "AGENTX_BSOL_ADDRESS" "bSo13r4TkiE4KumL71LsHTPpL2euBYLFx6h9HP3piy1");
     ("mSOL", getenv "AGENTX_MSOL_ADDRESS" "mSoLzYCxHdYgdzU16g5QSh3i5K3z3KZK7ytfqcJm7So");
     ("BONK", getenv "AGENTX_BONK_ADDRESS" "DezXAZ8z7PnrnRJjz3wXBoRgixCa6xjnB7YaB1pPB263")].

(** [_load_env_vars]: eight assignments, four of which convert a
    number first. *)
Definition _load_env_vars : C unit :=
  v ← eval (getenv_int "AGENTX_LAMPORTS_PER_SOL" 1000000000);
  setitem "LAMPORTS_PER_SOL" (VInt v);;
  setitem "DEFAULT_COMMITMENT"
    (VStr (getenv "AGENTX_DEFAULT_COMMITMENT" "confirmed"));;
  setitem "RPC_URL"
    (VStr (getenv "AGENTX_RPC_URL" "https://api.mainnet-beta.solana.com"));;
  v ← eval (getenv_int "AGENTX_DEFAULT_SLIPPAGE_BPS" 300);
  setitem "DEFAULT_SLIPPAGE_BPS" (VInt v);;
  setitem "JUP_API_URL"
    (VStr (getenv "AGENTX_JUP_API_URL" "https://quote-api.jup.ag/v6"));;
  v ← eval (getenv_int "AGENTX_DEFAULT_TOKEN_DECIMALS" 9);
  setitem "DEFAULT_TOKEN_DECIMALS" (VInt v);;
  v ← eval (getenv_float "AGENTX_DEFAULT_TOKEN_SUPPLY" 1000);
  setitem "DEFAULT_TOKEN_SUPPLY" (VFloat v);;
  setitem "TOKENS" (VDict tokens).

(** [__new__]: creates the instance on the first call. *)
Definition __new__ : C unit := fun st =>
  ({| _instance := true; _config := _config st |}, Ok tt).

(** [__init__]: loads the environment when [_config] is empty. *)
Definition __init__ : C unit := fun st =>
  if bool_decide (size (_config st) = 0%nat) then _load_env_vars st
  else (st, Ok tt).

(** [cls()]: [__new__], then [__init__] on the instance. *)
Definition Config : C unit := __new__;; __init__.

(** [Config.get(key, default)]. *)
Definition get (key : string) (default : value) : C value :=
  Config;; dict_get key default.

(** [Config.set(key, value)]. *)
Definition set (key : string) (v : value) : C unit :=
  Config;; setitem key v.

(** [Config.reload()]. *)
Definition reload : C unit :=
  Config;; clear;; _load_env_vars.

End Environment.

(** The state of the class before the module has created [config]. *)
Definition initial : state := {| _instance := false; _config := ∅ |}.

End Config.

Module SampleEnv.

(** A converter that knows two strings. *)
Definition int_of_str (s : string) : result Z :=
  if decide (s = "250") then Ok 250
  else if decide (s = "1000000") then Ok 1000000
  else Raise ValueError.

Definition float_of_str (s : string) : result float :=
  if decide (s = "0.5") then Ok 0.5%float else Raise ValueError.

(** An environment whose slippage setting is not a number. *)
Definition malformed_slippage : gmap string string :=
  {[ "AGENTX_LAMPORTS_PER_SOL" := "1000000";
     "AGENTX_DEFAULT_SLIPPAGE_BPS" := "3%" ]}.

(** An environment whose first numeric setting is not a number. *)
Definition malformed_lamports : gmap string string :=
  {[ "AGENTX_LAMPORTS_PER_SOL" := "1e9" ]}.

End SampleEnv.

(* ===================================================================== *)
(** * The client of the foundation layer *)
(* ===================================================================== *)

Definition AccountError : exn := Exn "AccountError".

Module Foundation.
Import EventBus.

Section Client.

(** [S] is the state of everything outside the client: the handlers'
    own state, the RPC node, the clock.  [Tx] is the type of
    transactions and [Ix] that of instructions. *)
Context {S Tx Ix : Type}.

(** Calling a subscribed object with an event, as in [EventBus]. *)
Variable call_object : PyObject -> Event -> S -> S * Event * result unit.

(** [datetime.now()], [datetime.isoformat()] and [str(e)]. *)
Variable datetime_now : S -> S * Z.
Variable isoformat : Z -> string.
Variable str_of_exn : exn -> result string.

(** [solana.rpc.async_api.AsyncClient], reduced to the two methods
    the client awaits; the response of [confirm_transaction] is not
    used.  An [await] raises what the request raises, or
    [CancelledError] when the task is cancelled while it waits. *)
Record AsyncClient := {
  conn_send_transaction : Tx -> S -> S * result Signature;
  conn_confirm_transaction : Signature -> S -> S * result unit
}.

(** [BaseSolanaClient]: the attributes set by [__init__]. *)
Record BaseSolanaClient := {
  connection : AsyncClient;
  wallet : Keypair;
  rpc_url : string;
  event_bus : Subscribers
}.

(** The property [public_key]. *)
Definition public_key (self : BaseSolanaClient) : Pubkey :=
  kp_pubkey (wallet self).

(** What a method of the client does that can be seen from outside: a
    call of [event_bus.publish], what that call does in turn, and the
    two requests to the node. *)
Inductive step : Type :=
| Published (event_name : string) (data : gmap string string)
| Delivery (a : action)
| SendRequest (transaction : Tx)
| ConfirmRequest (signature : Signature).

(** A method: the steps it took, the state it left, its result. *)
Definition F (A : Type) : Type := S -> list step * S * result A.

#[global] Instance F_ret : MRet F := fun _ a s => ([], s, Ok a).
#[global] Instance F_bind : MBind F := fun _ _ f m s =>
  match m s with
  | (l, s1, Ok a) => let '(l', s2, r) := f a s1 in (l ++ l', s2, r)
  | (l, s1, Raise e) => (l, s1, Raise e)
  end.

(** [raise e]. *)
Definition fraise {A} (e : exn) : F A := fun s => ([], s, Raise e).

(** An expression that neither reads nor changes the state. *)
Definition pure {A} (r : result A) : F A := fun s => ([], s, r).

(** [try: m except Exception as e: h e]: an exception that is not an
    instance of [Exception] passes the handler by. *)
Definition ftry {A} (m : F A) (h : exn -> F A) : F A := fun s =>
  match m s with
  | (l, s1, Ok a) => (l, s1, Ok a)
  | (l, s1, Raise e) =>
      if is_Exception e then let '(l', s2, r) := h e s1 in (l ++ l', s2, r)
      else (l, s1, Raise e)
  end.

(** [datetime.now().isoformat()]. *)
Definition now_isoformat : F string := fun s =>
  let '(s1, now) := datetime_now s in ([], s1, Ok (isoformat now)).

(** [self.event_bus.publish(event_name, **data)]; [publish] reads the
    clock for the timestamp of the event, once its parameters are
    bound. *)
Definition event_bus_publish (self : BaseSolanaClient) (event_name : string)
    (data : gmap string string) : F unit := fun s =>
  if rebinds_parameter data then ([Published event_name data], s, Raise TypeError)
  else
    let '(s1, now) := datetime_now s in
    let '(log, s2, r) :=
      publish call_object str_of_exn (event_bus self) event_name data now s1 in
    (Published event_name data :: (Delivery <$> log), s2, r).

(** [await self.connection.send_transaction(transaction)]. *)
Definition await_send_transaction (self : BaseSolanaClient) (transaction : Tx)
  : F Signature := fun s =>
  let '(s1, r) := conn_send_transaction (connection self) transaction s in
  ([SendRequest transaction], s1, r).

(** [await self.connection.confirm_transaction(signature)]. *)
Definition await_confirm_transaction (self : BaseSolanaClient)
    (signature : Signature) : F unit := fun s =>
  let '(s1, r) := conn_confirm_transaction (connection self) signature s in
  ([ConfirmRequest signature], s1, r).

(** [BaseSolanaClient.send_transaction]. *)
Definition send_transaction (self : BaseSolanaClient) (transaction : Tx)
  : F Signature :=
  ftry
    (timestamp ← now_isoformat;
     event_bus_publish self "transaction_sending"
       {[ "wallet" := public_key self; "timestamp" := timestamp ]};;
     signature ← await_send_transaction self transaction;
     timestamp ← now_isoformat;
     event_bus_publish self "transaction_submitted"
       {[ "signature" := signature; "wallet" := public_key self;
          "timestamp" := timestamp ]};;
     await_confirm_transaction self signature;;
     timestamp ← now_isoformat;
     event_bus_publish self "transaction_confirmed"
       {[ "signature" := signature; "wallet" := public_key self;
          "timestamp" := timestamp ]};;
     mret signature)
    (fun e =>
       error ← pure (str_of_exn e);
       timestamp ← now_isoformat;
       event_bus_publish self "transaction_failed"
         {[ "error" := error; "wallet" := public_key self;
            "timestamp" := timestamp ]};;
       fraise e).

(** The calls of the SDK that [burn_and_close_account] makes before it
    sends: each returns a value or raises, and none of them talks to
    the node. *)
Record Sdk := {
  Pubkey_from_string : string -> result Pubkey;
  AsyncToken : Pubkey -> Pubkey -> Keypair -> result unit;
  get_associated_token_address : Pubkey -> Pubkey -> Pubkey;
  spl_burn : Pubkey -> Pubkey -> Pubkey -> Z -> result Ix;
  spl_close_account : Pubkey -> Pubkey -> Pubkey -> result Ix;
  Transaction_add : list Ix -> result Tx;
  SPL_TOKEN_PROGRAM_ID : Pubkey
}.

(** [AccountOps.burn_and_close_account]; the message of the
    [AccountError] is built from [str(e)]. *)
Definition burn_and_close_account (sdk : Sdk) (self : BaseSolanaClient)
    (mint : string) : F string :=
  ftry
    (mint_pubkey ← pure (Pubkey_from_string sdk mint);
     pure (AsyncToken sdk mint_pubkey (SPL_TOKEN_PROGRAM_ID sdk) (wallet self));;
     let token_account :=
       get_associated_token_address sdk (public_key self) mint_pubkey in
     burn_ix ←
       pure (spl_burn sdk token_account mint_pubkey (public_key self) 0);
     close_ix ←
       pure (spl_close_account sdk token_account (public_key self)
               (public_key self));
     transaction ← pure (Transaction_add sdk [burn_ix; close_ix]);
     signature ← send_transaction self transaction;
     mret signature)
    (fun e => pure (str_of_exn e);; fraise AccountError).

(** The transaction [burn_and_close_account] has built when it calls
    [send_transaction]: the statements of its [try] block before the
    call. *)
Definition burn_and_close_transaction (sdk : Sdk) (self : BaseSolanaClient)
    (mint : string) : result Tx :=
  mint_pubkey ← Pubkey_from_string sdk mint;
  AsyncToken sdk mint_pubkey (SPL_TOKEN_PROGRAM_ID sdk) (wallet self);;
  let token_account :=
    get_associated_token_address sdk (public_key self) mint_pubkey in
  burn_ix ← spl_burn sdk token_account mint_pubkey (public_key self) 0;
  close_ix ← spl_close_account sdk token_account (public_key self)
               (public_key self);
  Transaction_add sdk [burn_ix; close_ix].

(** The loop of [burn_and_close_multiple], with the signatures
    collected so far. *)
Fixpoint burn_and_close_loop (sdk : Sdk) (self : BaseSolanaClient)
    (mints : list string) (signatures : list string) : F (list string) :=
  match mints with
  | [] => mret signatures
  | mint :: rest =>
      signature ← burn_and_close_account sdk self mint;
      burn_and_close_loop sdk self rest (signatures ++ [signature])
  end.

(** [AccountOps.burn_and_close_multiple]. *)
Definition burn_and_close_multiple (sdk : Sdk) (self : BaseSolanaClient)
    (mints : list string) : F (list string) :=
  burn_and_close_loop sdk self mints [].

End Client.

(** The names of the events a run published, and its requests to the
    node, in order. *)
Definition published {Tx} (log : list (@step Tx)) : list string :=
  omap (fun st => match st with
                  | Published event_name _ => Some event_name
                  | _ => None
                  end) log.

Definition requests {Tx} (log : list (@step Tx)) : list (@step Tx) :=
  omap (fun st => match st with
                  | SendRequest _ | ConfirmRequest _ => Some st
                  | _ => None
                  end) log.

(** How a run of [send_transaction] that raises [e] came to raise:
    with [transaction_failed] published last, after one, two or three
    of the other events; or without it, because [e] is no instance of
    [Exception] or because [str] raised [e] for the exception that was
    caught. *)
Definition failure {Tx} (str_of_exn : exn -> result string)
    (log : list (@step Tx)) (e : exn) : Prop :=
  exists before,
    (before = ["transaction_sending"] \/
     before = ["transaction_sending"; "transaction_submitted"] \/
     before = ["transaction_sending"; "transaction_submitted";
               "transaction_confirmed"]) /\
    (published log = before ++ ["transaction_failed"] \/
     (published log = before /\
      (is_Exception e = false \/
       exists e0, is_Exception e0 = true /\ str_of_exn e0 = Raise e))).

End Foundation.

Module SampleBus.
Import EventBus.

(** Handlers that count the calls they get and leave the event alone;
    the handler [Callable 1] raises. *)
Definition counting (o : PyObject) (event : Event) (calls : nat)
  : nat * Event * result unit :=
  (Datatypes.S calls, event,
   if decide (o = Callable 1) then Raise (Exn "RuntimeError") else Ok tt).


(** Handlers of which [Callable 1] renames the event it is handed. *)
Definition renaming (o : PyObject) (event : Event) (calls : nat)
  : nat * Event * result unit :=
  (Datatypes.S calls,
   if decide (o = Callable 1)
   then {| name := "renamed"; timestamp := timestamp event; data := data event |}
   else event,
   Ok tt).

(** [str(e)] of the built-in exceptions: the arguments they were
    raised with, here the name of the class. *)
Definition str_of_exn (e : exn) : result string :=
  Ok (match e with Exn cls | BaseExn cls => cls end).

(** A comparison by which the bound methods [Callable 1] and
    [Callable 2] of one object are equal, and every object is equal to
    itself. *)
Definition bound_method_ne (a b : PyObject) : result bool :=
  Ok (negb (bool_decide (a = b) ||
            bool_decide (a = Callable 1 /\ b = Callable 2) ||
            bool_decide (a = Callable 2 /\ b = Callable 1))).

(** A comparison by which [Callable 1] is unequal to everything,
    itself included. *)
Definition never_equal_ne (a b : PyObject) : result bool :=
  Ok (bool_decide (a <> b) || bool_decide (a = Callable 1)).

End SampleBus.

Module SampleClient.
Import EventBus Foundation.

(** The state outside the client is the number of clock readings, and
    the clock shows that number. *)
Definition datetime_now (ticks : nat) : nat * Z :=
  (Datatypes.S ticks, Z.of_nat ticks).

Definition isoformat (t : Z) : string :=
  if decide (t = 0) then "2025-01-01T00:00:00" else "2025-01-01T00:00:01".

(** Handlers that return and leave the event alone. *)
Definition call_object (_ : PyObject) (event : Event) (ticks : nat)
  : nat * Event * result unit :=
  (ticks, event, Ok tt).

(** A node that accepts and confirms every transaction. *)
Definition node : AsyncClient (S := nat) (Tx := list string) := {|
  conn_send_transaction := fun _ ticks => (ticks, Ok "signature");
  conn_confirm_transaction := fun _ ticks => (ticks, Ok tt)
|}.

(** A node on which the wait for the confirmation is cancelled. *)
Definition cancelled_node : AsyncClient (S := nat) (Tx := list string) := {|
  conn_send_transaction := fun _ ticks => (ticks, Ok "signature");
  conn_confirm_transaction := fun _ ticks => (ticks, Raise CancelledError)
|}.

(** A node that refuses every transaction. *)
Definition refusing_node : AsyncClient (S := nat) (Tx := list string) := {|
  conn_send_transaction := fun _ ticks => (ticks, Raise (Exn "RPCException"));
  conn_confirm_transaction := fun _ ticks => (ticks, Ok tt)
|}.

(** A client of [node'] with one subscriber to
    ["transaction_confirmed"] and one to ["transaction_failed"]. *)
Definition client_of (node' : AsyncClient (S := nat) (Tx := list string))
  : BaseSolanaClient := {|
  connection := node';
  wallet := {| kp_pubkey := "wallet" |};
  rpc_url := "https://api.mainnet-beta.solana.com";
  event_bus :=
    after_calls identity_ne
      [Subscribe "transaction_confirmed" (Callable 1);
       Subscribe "transaction_failed" (Callable 2)]
|}.

Definition client : BaseSolanaClient := client_of node.

(** An SDK that refuses the empty string as an address. *)
Definition sdk : Sdk (Tx := list string) (Ix := string) := {|
  Pubkey_from_string := fun s =>
    if decide (s = "") then Raise ValueError else Ok s;
  AsyncToken := fun _ _ _ => Ok tt;
  get_associated_token_address := fun owner mint => owner +:+ "/" +:+ mint;
  spl_burn := fun source _ _ _ => Ok ("burn " +:+ source);
  spl_close_account := fun account _ _ => Ok ("close " +:+ account);
  Transaction_add := fun ixs => Ok ixs;
  SPL_TOKEN_PROGRAM_ID := "TokenkegQfeZyiNwAJbNbGKPFXCWuBvf9Ss623VQ5DA"
|}.

End SampleClient.

(** The handlers a run called, each with the name of the event that
    was being published, in order. *)
Fixpoint delivered_during {Tx} (event_name : string)
    (log : list (@Foundation.step Tx)) : list (EventBus.PyObject * string) :=
  match log with
  | [] => []
  | Foundation.Published published_name _ :: rest =>
      delivered_during published_name rest
  | Foundation.Delivery (EventBus.Invoked handler _) :: rest =>
      (handler, event_name) :: delivered_during event_name rest
  | _ :: rest => delivered_during event_name rest
  end.

Definition delivered {Tx} (log : list (@Foundation.step Tx))
  : list (EventBus.PyObject * string) :=
  delivered_during "" log.


(* ===================================================================== *)
(** * Binary64 values, for the proofs about the quote arithmetic *)
(* ===================================================================== *)

(** The index of the multiple of [G] nearest to [v], ties to the even
    index. *)
Definition rne (v G : Z) : Z :=
  let M := v / G in
  let rho := v mod G in
  if (G <? 2 * rho) || ((G =? 2 * rho) && Z.odd M) then M + 1 else M.

(** What [j] right shifts of [(m0, false, false)] have accumulated: the
    quotient, the last bit shifted out, and whether a lower bit was
    set. *)
Definition shifted (m0 : Z) (j : Z) (r : shr_record) : Prop :=
  shr_m r = m0 / 2 ^ j /\
  (shr_r r = true <-> 2 ^ (j - 1) <= m0 mod 2 ^ j) /\
  (shr_s r = true <-> m0 mod 2 ^ (j - 1) <> 0).

(** Values are counted in units of [2^-bias], small enough for every
    product of two binary64 numbers to be a whole number of units. *)
Definition bias : Z := 2148.

(** The value of a float that is not negative; an infinity counts as
    [2^1024]. *)
Definition sfval (f : spec_float) : Z :=
  match f with
  | S754_zero _ => 0
  | S754_finite _ m e => Z.pos m * 2 ^ (e + bias)
  | S754_infinity _ => 2 ^ (1024 + bias)
  | S754_nan => 0
  end.

Definition top : Z := 2 ^ (1024 + bias).

(** Rounding a value to binary64: to the nearest multiple of the unit in
    the last place, ties to even. *)
Definition round64 (v : Z) : Z :=
  let E := Z.max (Z.log2 v - 52) (bias - 1074) in
  rne v (2 ^ E) * 2 ^ E.

(** Zero or a positive finite float. *)
Definition fin (f : spec_float) : bool :=
  match f with
  | S754_zero _ | S754_finite false _ _ => true
  | _ => false
  end.

(** Not negative, not NaN. *)
Definition nonneg (f : spec_float) : bool :=
  match f with
  | S754_zero _ | S754_finite false _ _ | S754_infinity false => true
  | _ => false
  end.

(** At most one: zero, or [m * 2^e] with [e <= 0] and [m <= 2^-e]. *)
Definition le_one (f : spec_float) : bool :=
  match f with
  | S754_zero _ => true
  | S754_finite false m e => (e <=? 0) && (Z.pos m <=? 2 ^ (- e))
  | _ => false
  end.

(** The exact product of two finite floats, in units. *)
Definition pv (x y : spec_float) : Z :=
  match x, y with
  | S754_finite _ mx ex, S754_finite _ my ey =>
      Z.pos mx * Z.pos my * 2 ^ (ex + ey + bias)
  | _, _ => 0
  end.

(** Whether [1 - slippage / 100] is a float between zero and one. *)
Definition adjustment_le_one (slippage : Z) : bool :=
  match slippage_adjustment slippage with
  | Ok j => le_one (Prim2SF j)
  | Raise _ => false
  end.

(* ===================================================================== *)
(** * Reasoning about runs *)
(* ===================================================================== *)

(** The arithmetic of a run is kept folded while its control flow is
    unfolded. *)
Arguments PyFloat.to_int : simpl never.
Arguments PyFloat.mul_int : simpl never.
Arguments PyFloat.int_truediv : simpl never.
Arguments buy_minimum_amount_out : simpl never.
Arguments sell_minimum_amount_out : simpl never.
Arguments urlsafe_b64encode : simpl never.
Arguments random_bytes : simpl never.
Arguments Z.pow : simpl never.
Arguments PrimFloat.mul : simpl never.
Arguments PrimFloat.eqb : simpl never.

Lemma trace_bind {A B} (m : M A) (f : A -> M B) :
  trace (m ≫= f) =
  trace m ++ match outcome m with Ok a => trace (f a) | Raise _ => [] end.
Proof.
  destruct m as [t [a|e]]; unfold mbind, M_bind, trace, outcome; simpl.
  - destruct (f a); reflexivity.
  - rewrite app_nil_r; reflexivity.
Qed.

Lemma outcome_bind {A B} (m : M A) (f : A -> M B) :
  outcome (m ≫= f) =
  match outcome m with Ok a => outcome (f a) | Raise e => Raise e end.
Proof.
  destruct m as [t [a|e]]; unfold mbind, M_bind, trace, outcome; simpl;
    try reflexivity.
  destruct (f a); reflexivity.
Qed.

(** The handler of both functions makes no call. *)
Lemma trace_try_except_print w (m : M bool) :
  trace (try_except m (fun e => print_exception w e;; mret false)) = trace m.
Proof.
  destruct m as [t [a|e]]; unfold trace; simpl; [reflexivity|].
  destruct (is_Exception e); [|reflexivity].
  unfold print_exception, lift. simpl.
  destruct (str_of_exn w e); simpl; rewrite ?app_nil_r; reflexivity.
Qed.

Lemma outcome_try_except_print w (m : M bool) :
  outcome (try_except m (fun e => print_exception w e;; mret false)) =
  match outcome m with
  | Ok b => Ok b
  | Raise e => if is_Exception e then handled w e else Raise e
  end.
Proof.
  destruct m as [t [a|e]]; unfold outcome; simpl; [reflexivity|].
  destruct (is_Exception e); [|reflexivity].
  unfold print_exception, lift, handled. simpl.
  destruct (str_of_exn w e); reflexivity.
Qed.

(** One step of a symbolic run: split on the innermost answer that
    hypothesis [H] still waits for. *)
Ltac run_step H :=
  match type of H with
  | context [match ?x with _ => _ end] =>
      lazymatch x with
      | context [match _ with _ => _ end] => fail
      | _ => let E := fresh "E" in destruct x eqn:E; simpl in H
      end
  end.

(** Run to the end, dropping the branches where [H] has become absurd. *)
Ltac run H := repeat (run_step H; try (exfalso; exact H)).

(** ** What an assembled bundle tells about the run that assembled it *)

Lemma buy_bundle_inv K w agent pair_address sol_in slippage ixs :
  let client := {| endpoint := rpc_url agent |} in
  let payer := kp_pubkey (wallet agent) in
  let seed := urlsafe_b64encode (random_bytes w 24) in
  In ixs (bundles (trace (buy_with_raydium K w agent pair_address sol_in slippage))) ->
  exists pool_keys amount_in reserves amount_out minimum_amount_out
         accounts wsol_token_account balance_needed,
    fetch_pool_keys w pair_address = Ok (Some pool_keys) /\
    PyFloat.to_int (sol_in * SOL_DECIMAL K) = Ok amount_in /\
    get_token_reserves w pool_keys = Ok reserves /\
    sol_for_tokens w sol_in reserves.1.1 reserves.1.2 = Ok amount_out /\
    buy_minimum_amount_out amount_out slippage reserves.2 = Ok minimum_amount_out /\
    get_token_accounts_by_owner w client payer (traded_mint K pool_keys) = Ok accounts /\
    create_with_seed w payer seed (TOKEN_PROGRAM_ID K) = Ok wsol_token_account /\
    get_min_balance_rent_for_exempt_for_account w client = Ok balance_needed /\
    ixs =
      [set_compute_unit_limit (UNIT_BUDGET K);
       set_compute_unit_price (UNIT_PRICE K);
       create_account_with_seed payer wsol_token_account payer seed
         (balance_needed + amount_in) (ACCOUNT_LAYOUT_sizeof K) (TOKEN_PROGRAM_ID K);
       initialize_account (TOKEN_PROGRAM_ID K) wsol_token_account (WSOL K) payer]
      ++ match accounts with
         | [] => [create_associated_token_account payer payer (traded_mint K pool_keys)]
         | _ :: _ => []
         end
      ++ [make_swap_instruction amount_in minimum_amount_out wsol_token_account
            (match accounts with
             | [] => get_associated_token_address w payer (traded_mint K pool_keys)
             | first :: _ => first
             end) pool_keys (wallet agent);
          close_account (TOKEN_PROGRAM_ID K) wsol_token_account payer payer].
Proof.
  intros client payer seed H. subst client payer seed.
  unfold buy_with_raydium in H. rewrite trace_try_except_print in H.
  unfold buy_body, submit_and_confirm in H. simpl in H.
  run H.
  all: destruct H as [H|[]]; subst ixs.
  all: eexists _, _, (_, _, _), _, _, _, _, _; simpl.
  all: repeat split; try eassumption; reflexivity.
Qed.

Lemma sell_bundle_inv K w agent pair_address percentage slippage ixs :
  let client := {| endpoint := rpc_url agent |} in
  let payer := kp_pubkey (wallet agent) in
  let seed := urlsafe_b64encode (random_bytes w 24) in
  In ixs (bundles (trace (sell_with_raydium K w agent pair_address percentage slippage))) ->
  exists pool_keys token_balance share reserves amount_out minimum_amount_out
         amount_in wsol_token_account balance_needed,
    let token_account := get_associated_token_address w payer (traded_mint K pool_keys) in
    1 <= percentage <= 100 /\
    fetch_pool_keys w pair_address = Ok (Some pool_keys) /\
    get_token_balance w (traded_mint K pool_keys) = Ok (Some token_balance) /\
    PyFloat.int_truediv percentage 100 = Ok share /\
    get_token_reserves w pool_keys = Ok reserves /\
    tokens_for_sol w (token_balance * share)%float reserves.1.1 reserves.1.2 = Ok amount_out /\
    sell_minimum_amount_out K amount_out slippage = Ok minimum_amount_out /\
    (scaled ← PyFloat.mul_int (token_balance * share)%float (10 ^ Z.of_N reserves.2);
     PyFloat.to_int scaled) = Ok amount_in /\
    create_with_seed w payer seed (TOKEN_PROGRAM_ID K) = Ok wsol_token_account /\
    get_min_balance_rent_for_exempt_for_account w client = Ok balance_needed /\
    ixs =
      [set_compute_unit_limit (UNIT_BUDGET K);
       set_compute_unit_price (UNIT_PRICE K);
       create_account_with_seed payer wsol_token_account payer seed
         balance_needed (ACCOUNT_LAYOUT_sizeof K) (TOKEN_PROGRAM_ID K);
       initialize_account (TOKEN_PROGRAM_ID K) wsol_token_account (WSOL K) payer;
       make_swap_instruction amount_in minimum_amount_out token_account
         wsol_token_account pool_keys (wallet agent);
       close_account (TOKEN_PROGRAM_ID K) wsol_token_account payer payer]
      ++ (if percentage =? 100
          then [close_account (TOKEN_PROGRAM_ID K) token_account payer payer]
          else []).
Proof.
  intros client payer seed H. subst client payer seed.
  unfold sell_with_raydium in H. rewrite trace_try_except_print in H.
  unfold sell_body, submit_and_confirm in H.
  destruct (negb ((1 <=? percentage) && (percentage <=? 100))) eqn:Hp;
    [exfalso; exact H|].
  apply negb_false_iff, andb_true_iff in Hp as [Hlo Hhi].
  apply Z.leb_le in Hlo, Hhi.
  simpl in H.
  run H.
  all: destruct H as [H|[]]; subst ixs.
  all: eexists _, _, _, (_, _, _), _, _, _, _, _; simpl.
  all: repeat split; try eassumption; try reflexivity.
Qed.

(** ** What a run does when the world answers its stages *)

(** [submit_and_confirm] hands its instruction list to [try_compile]
    as soon as the node has answered with a block hash. *)
Lemma submit_and_confirm_bundles w client payer_keypair instructions blockhash :
  get_latest_blockhash w client = Ok blockhash ->
  bundles (trace (submit_and_confirm w client payer_keypair instructions))
    = [instructions].
Proof.
  intros Hb. unfold submit_and_confirm, try_compile, sign, perform, lift.
  rewrite Hb. simpl.
  destruct (try_compile_raises w _ _ _); simpl; [reflexivity|].
  destruct (sign_raises w _ _); simpl; [reflexivity|].
  destruct (send_transaction w _ _) as [txn_sig|]; simpl; [|reflexivity].
  destruct (confirm_txn w txn_sig); reflexivity.
Qed.

(** An accepted submission ends with the answer of [confirm_txn]. *)
Lemma submit_and_confirm_accepted w agent instructions blockhash txn_sig :
  submission_accepted w agent instructions blockhash txn_sig ->
  submit_and_confirm w {| endpoint := rpc_url agent |} (wallet agent) instructions
    = (submission agent instructions blockhash txn_sig, confirm_txn w txn_sig).
Proof.
  intros (Hb & Hc & Hs & Hsend).
  unfold submit_and_confirm, try_compile, sign, perform, lift.
  unfold signed_transaction in *. simpl in Hs.
  rewrite Hb. simpl. rewrite Hc. simpl. rewrite Hs. simpl. rewrite Hsend. simpl.
  destruct (confirm_txn w txn_sig); reflexivity.
Qed.

Ltac accept_builders H :=
  repeat match type of H with
         | Forall _ (_ :: _) =>
             let Hix := fresh "Hix" in
             apply Forall_cons in H as [Hix H]
         end.

(** A buy whose stages are answered gets to [submit_and_confirm] with
    the list [buy_instructions]. *)
Lemma buy_body_prepares K w agent pair_address sol_in slippage
    pool_keys amount_in minimum_amount_out token_account_check
    wsol_token_account balance_needed :
  buy_answers K w agent pair_address sol_in slippage pool_keys amount_in
    minimum_amount_out token_account_check wsol_token_account balance_needed ->
  buy_body K w agent pair_address sol_in slippage =
    let '(t, r) :=
      submit_and_confirm w {| endpoint := rpc_url agent |} (wallet agent)
        (buy_instructions K w agent pool_keys amount_in minimum_amount_out
           token_account_check wsol_token_account balance_needed) in
    (buy_preparation K agent pair_address pool_keys ++ t, r).
Proof.
  intros (br & qr & td & ao & Hpk & Hai & Hres & Hao & Hmin & Hacc & Hws & Hbn & Hix).
  unfold buy_instructions in Hix.
  unfold buy_body, buy_preparation, os_urandom, build, perform, lift.
  rewrite Hpk. simpl. rewrite Hai. simpl. rewrite Hres. simpl.
  rewrite Hao. simpl. rewrite Hmin. simpl. rewrite Hacc. simpl.
  destruct token_account_check as [|first rest]; simpl in Hix |- *;
    accept_builders Hix;
    repeat (first [ rewrite Hws | rewrite Hbn
                  | match goal with
                    | Hb : builder_raises w _ = None |- _ => rewrite Hb
                    end ]; simpl);
    unfold buy_instructions; simpl;
    destruct (submit_and_confirm _ _ _ _); reflexivity.
Qed.

(** Likewise for a sell, with the list [sell_instructions]. *)
Lemma sell_body_prepares K w agent pair_address percentage slippage
    pool_keys amount_in minimum_amount_out wsol_token_account balance_needed :
  sell_answers K w agent pair_address percentage slippage pool_keys amount_in
    minimum_amount_out wsol_token_account balance_needed ->
  sell_body K w agent pair_address percentage slippage =
    let '(t, r) :=
      submit_and_confirm w {| endpoint := rpc_url agent |} (wallet agent)
        (sell_instructions K w agent percentage pool_keys amount_in
           minimum_amount_out wsol_token_account balance_needed) in
    (sell_preparation K agent pair_address pool_keys ++ t, r).
Proof.
  intros (tb & sh & br & qr & td & ao & Hp & Hpk & Htb & Hnz & Hsh & Hres & Hao
          & Hmin & Hai & Hws & Hbn & Hix).
  unfold sell_instructions in Hix.
  unfold sell_body, sell_preparation, os_urandom, build, perform, lift.
  replace ((1 <=? percentage) && (percentage <=? 100)) with true
    by (symmetry; apply andb_true_iff; split; apply Z.leb_le; lia).
  simpl negb. cbv iota.
  rewrite Hpk. simpl. rewrite Htb. simpl. rewrite Hnz. rewrite Hsh. simpl.
  rewrite Hres. simpl. rewrite Hao. simpl. rewrite Hmin. simpl.
  rewrite Hai. simpl. rewrite Hws. simpl. rewrite Hbn. simpl.
  destruct (percentage =? 100) eqn:Hfull; simpl in Hix |- *;
    accept_builders Hix;
    repeat (match goal with
            | Hb : builder_raises w _ = None |- _ => rewrite Hb
            end; simpl);
    unfold sell_instructions; rewrite ?Hfull; simpl;
    destruct (submit_and_confirm _ _ _ _); reflexivity.
Qed.

Lemma bundles_app t t' : bundles (t ++ t') = bundles t ++ bundles t'.
Proof. apply omap_app. Qed.

(** Such a run assembles one bundle, that list, once the node has
    answered with a block hash. *)
Lemma buy_assembles_bundle K w agent pair_address sol_in slippage
    pool_keys amount_in minimum_amount_out token_account_check
    wsol_token_account balance_needed blockhash :
  buy_answers K w agent pair_address sol_in slippage pool_keys amount_in
    minimum_amount_out token_account_check wsol_token_account balance_needed ->
  get_latest_blockhash w {| endpoint := rpc_url agent |} = Ok blockhash ->
  bundles (trace (buy_with_raydium K w agent pair_address sol_in slippage)) =
    [buy_instructions K w agent pool_keys amount_in minimum_amount_out
       token_account_check wsol_token_account balance_needed].
Proof.
  intros Ha Hb. unfold buy_with_raydium.
  rewrite trace_try_except_print, (buy_body_prepares _ _ _ _ _ _ _ _ _ _ _ _ Ha).
  pose proof (submit_and_confirm_bundles w _ (wallet agent)
                (buy_instructions K w agent pool_keys amount_in
                   minimum_amount_out token_account_check wsol_token_account
                   balance_needed) _ Hb) as Hs.
  destruct (submit_and_confirm _ _ _ _) as [t r]. unfold trace in *.
  cbv beta iota. cbn [fst] in *. rewrite bundles_app, Hs. reflexivity.
Qed.

Lemma sell_assembles_bundle K w agent pair_address percentage slippage
    pool_keys amount_in minimum_amount_out wsol_token_account balance_needed
    blockhash :
  sell_answers K w agent pair_address percentage slippage pool_keys amount_in
    minimum_amount_out wsol_token_account balance_needed ->
  get_latest_blockhash w {| endpoint := rpc_url agent |} = Ok blockhash ->
  bundles (trace (sell_with_raydium K w agent pair_address percentage slippage)) =
    [sell_instructions K w agent percentage pool_keys amount_in
       minimum_amount_out wsol_token_account balance_needed].
Proof.
  intros Ha Hb. unfold sell_with_raydium.
  rewrite trace_try_except_print, (sell_body_prepares _ _ _ _ _ _ _ _ _ _ _ Ha).
  pose proof (submit_and_confirm_bundles w _ (wallet agent)
                (sell_instructions K w agent percentage pool_keys amount_in
                   minimum_amount_out wsol_token_account balance_needed)
                _ Hb) as Hs.
  destruct (submit_and_confirm _ _ _ _) as [t r]. unfold trace in *.
  cbv beta iota. cbn [fst] in *. rewrite bundles_app, Hs. reflexivity.
Qed.

(** When the submission is accepted as well, the whole run is known:
    its calls, and the answer of [confirm_txn] as its end. *)
Lemma buy_body_runs K w agent pair_address sol_in slippage
    pool_keys amount_in minimum_amount_out token_account_check
    wsol_token_account balance_needed blockhash txn_sig :
  let instructions :=
    buy_instructions K w agent pool_keys amount_in minimum_amount_out
      token_account_check wsol_token_account balance_needed in
  buy_answers K w agent pair_address sol_in slippage pool_keys amount_in
    minimum_amount_out token_account_check wsol_token_account balance_needed ->
  submission_accepted w agent instructions blockhash txn_sig ->
  buy_body K w agent pair_address sol_in slippage =
    (buy_preparation K agent pair_address pool_keys
       ++ submission agent instructions blockhash txn_sig,
     confirm_txn w txn_sig).
Proof.
  intros instructions Ha Hs.
  rewrite (buy_body_prepares _ _ _ _ _ _ _ _ _ _ _ _ Ha).
  fold instructions. rewrite (submit_and_confirm_accepted _ _ _ _ _ Hs).
  reflexivity.
Qed.

Lemma sell_body_runs K w agent pair_address percentage slippage
    pool_keys amount_in minimum_amount_out wsol_token_account balance_needed
    blockhash txn_sig :
  let instructions :=
    sell_instructions K w agent percentage pool_keys amount_in
      minimum_amount_out wsol_token_account balance_needed in
  sell_answers K w agent pair_address percentage slippage pool_keys amount_in
    minimum_amount_out wsol_token_account balance_needed ->
  submission_accepted w agent instructions blockhash txn_sig ->
  sell_body K w agent pair_address percentage slippage =
    (sell_preparation K agent pair_address pool_keys
       ++ submission agent instructions blockhash txn_sig,
     confirm_txn w txn_sig).
Proof.
  intros instructions Ha Hs.
  rewrite (sell_body_prepares _ _ _ _ _ _ _ _ _ _ _ Ha).
  fold instructions. rewrite (submit_and_confirm_accepted _ _ _ _ _ Hs).
  reflexivity.
Qed.

(** Settles the stage hypotheses of a run in a given world by
    evaluation. *)
Ltac answer_stages :=
  repeat first [ reflexivity | lia | apply Forall_nil_2 | apply Forall_cons_2
               | split | eexists ].

(* ===================================================================== *)
(** * The assembled bundle *)
(* ===================================================================== *)

(** C4.  Every bundle [buy_with_raydium] or [sell_with_raydium] hands to
    [try_compile] lists its instructions in the stated order: unit limit,
    unit price, creation of the ephemeral account, its initialization,
    then (buy path, when the wallet holds no account for the mint) the
    creation of the associated account, then the swap, then the close of
    the ephemeral account, then (sell path only, optionally) one more
    close.  And a run does hand over such a bundle, exactly one, when
    the world answers its stages up to the block hash: the associated
    account is created when the wallet holds no account for the mint,
    and the last close is there on a sell of 100 percent. *)
Theorem bundle_instruction_order K w agent pair_address sol_in percentage slippage :
  let payer := kp_pubkey (wallet agent) in
  let client := {| endpoint := rpc_url agent |} in
  Forall (fun ixs =>
    exists wsol_token_account seed lamports amount_in minimum_amount_out
           token_account pool_keys associated,
      (associated = [] \/
       associated =
         [create_associated_token_account payer payer (traded_mint K pool_keys)]) /\
      ixs =
        [set_compute_unit_limit (UNIT_BUDGET K);
         set_compute_unit_price (UNIT_PRICE K);
         create_account_with_seed payer wsol_token_account payer seed lamports
           (ACCOUNT_LAYOUT_sizeof K) (TOKEN_PROGRAM_ID K);
         initialize_account (TOKEN_PROGRAM_ID K) wsol_token_account (WSOL K) payer]
        ++ associated
        ++ [make_swap_instruction amount_in minimum_amount_out
              wsol_token_account token_account pool_keys (wallet agent);
            close_account (TOKEN_PROGRAM_ID K) wsol_token_account payer payer])
    (bundles (trace (buy_with_raydium K w agent pair_address sol_in slippage)))
  /\
  Forall (fun ixs =>
    exists wsol_token_account seed lamports amount_in minimum_amount_out
           token_account pool_keys source_close,
      (source_close = [] \/
       source_close =
         [close_account (TOKEN_PROGRAM_ID K) token_account payer payer]) /\
      ixs =
        [set_compute_unit_limit (UNIT_BUDGET K);
         set_compute_unit_price (UNIT_PRICE K);
         create_account_with_seed payer wsol_token_account payer seed lamports
           (ACCOUNT_LAYOUT_sizeof K) (TOKEN_PROGRAM_ID K);
         initialize_account (TOKEN_PROGRAM_ID K) wsol_token_account (WSOL K) payer;
         make_swap_instruction amount_in minimum_amount_out
           token_account wsol_token_account pool_keys (wallet agent);
         close_account (TOKEN_PROGRAM_ID K) wsol_token_account payer payer]
        ++ source_close)
    (bundles (trace (sell_with_raydium K w agent pair_address percentage slippage)))
  /\
  (forall pool_keys amount_in minimum_amount_out token_account_check
          wsol_token_account balance_needed blockhash,
     buy_answers K w agent pair_address sol_in slippage pool_keys amount_in
       minimum_amount_out token_account_check wsol_token_account balance_needed ->
     get_latest_blockhash w client = Ok blockhash ->
     bundles (trace (buy_with_raydium K w agent pair_address sol_in slippage)) =
     [[set_compute_unit_limit (UNIT_BUDGET K);
       set_compute_unit_price (UNIT_PRICE K);
       create_account_with_seed payer wsol_token_account payer
         (urlsafe_b64encode (random_bytes w 24)) (balance_needed + amount_in)
         (ACCOUNT_LAYOUT_sizeof K) (TOKEN_PROGRAM_ID K);
       initialize_account (TOKEN_PROGRAM_ID K) wsol_token_account (WSOL K) payer]
      ++ match token_account_check with
         | [] => [create_associated_token_account payer payer
                    (traded_mint K pool_keys)]
         | _ :: _ => []
         end
      ++ [make_swap_instruction amount_in minimum_amount_out wsol_token_account
            (match token_account_check with
             | [] => get_associated_token_address w payer (traded_mint K pool_keys)
             | first :: _ => first
             end) pool_keys (wallet agent);
          close_account (TOKEN_PROGRAM_ID K) wsol_token_account payer payer]])
  /\
  (forall pool_keys amount_in minimum_amount_out wsol_token_account
          balance_needed blockhash,
     sell_answers K w agent pair_address percentage slippage pool_keys amount_in
       minimum_amount_out wsol_token_account balance_needed ->
     get_latest_blockhash w client = Ok blockhash ->
     let token_account :=
       get_associated_token_address w payer (traded_mint K pool_keys) in
     bundles (trace (sell_with_raydium K w agent pair_address percentage slippage)) =
     [[set_compute_unit_limit (UNIT_BUDGET K);
       set_compute_unit_price (UNIT_PRICE K);
       create_account_with_seed payer wsol_token_account payer
         (urlsafe_b64encode (random_bytes w 24)) balance_needed
         (ACCOUNT_LAYOUT_sizeof K) (TOKEN_PROGRAM_ID K);
       initialize_account (TOKEN_PROGRAM_ID K) wsol_token_account (WSOL K) payer;
       make_swap_instruction amount_in minimum_amount_out
         token_account wsol_token_account pool_keys (wallet agent);
       close_account (TOKEN_PROGRAM_ID K) wsol_token_account payer payer]
      ++ (if percentage =? 100
          then [close_account (TOKEN_PROGRAM_ID K) token_account payer payer]
          else [])]).
Proof.
  intros payer client; split; [|split; [|split]].
  - apply Forall_forall; intros ixs Hin.
    apply list_elem_of_In, buy_bundle_inv in Hin
      as (pk & ai & rs & ao & mo & accs & ws & bn & _ & _ & _ & _ & _ & _ & _ & _ & ->).
    destruct accs as [|first rest].
    + eexists _, _, _, _, _, _, pk, [_]. split; [right|]; reflexivity.
    + eexists _, _, _, _, _, _, pk, []. split; [left|]; reflexivity.
  - apply Forall_forall; intros ixs Hin.
    apply list_elem_of_In, sell_bundle_inv in Hin
      as (pk & tb & sh & rs & ao & mo & ai & ws & bn & _ & _ & _ & _ & _ & _ & _ & _ & _ & _ & ->).
    destruct (percentage =? 100).
    + eexists _, _, _, _, _, _, pk, [_]. split; [right|]; reflexivity.
    + eexists _, _, _, _, _, _, pk, []. split; [left|]; reflexivity.
  - intros pk ai mo accs ws bn bh Ha Hb.
    exact (buy_assembles_bundle _ _ _ _ _ _ _ _ _ _ _ _ _ Ha Hb).
  - intros pk ai mo ws bn bh Ha Hb.
    exact (sell_assembles_bundle _ _ _ _ _ _ _ _ _ _ _ _ Ha Hb).
Qed.

(** In the sample world a buy assembles the seven instructions of a
    wallet without an account for the mint, and a full sell the seven
    of a sell that closes its source account, in that order. *)
Lemma bundle_instruction_order_witness :
  let K := Sample.constants in
  let w := Sample.world x00 in
  let seed := urlsafe_b64encode (random_bytes w 24) in
  let wsol_token_account := ("wallet/" +:+ seed)%string in
  bundles (trace (buy_with_raydium K w Sample.agent "pool" 0.5%float 5)) =
    [[set_compute_unit_limit 100000;
      set_compute_unit_price 1000000;
      create_account_with_seed "wallet" wsol_token_account "wallet" seed
        502039280 165 (TOKEN_PROGRAM_ID K);
      initialize_account (TOKEN_PROGRAM_ID K) wsol_token_account (WSOL K) "wallet";
      create_associated_token_account "wallet" "wallet" "mint";
      make_swap_instruction 500000000 950000 wsol_token_account "wallet/mint"
        Sample.pool (wallet Sample.agent);
      close_account (TOKEN_PROGRAM_ID K) wsol_token_account "wallet" "wallet"]] /\
  bundles (trace (sell_with_raydium K w Sample.agent "pool" 100 5)) =
    [[set_compute_unit_limit 100000;
      set_compute_unit_price 1000000;
      create_account_with_seed "wallet" wsol_token_account "wallet" seed
        2039280 165 (TOKEN_PROGRAM_ID K);
      initialize_account (TOKEN_PROGRAM_ID K) wsol_token_account (WSOL K) "wallet";
      make_swap_instruction 250000000 950000000 "wallet/mint" wsol_token_account
        Sample.pool (wallet Sample.agent);
      close_account (TOKEN_PROGRAM_ID K) wsol_token_account "wallet" "wallet";
      close_account (TOKEN_PROGRAM_ID K) "wallet/mint" "wallet" "wallet"]].
Proof.
  intros K w seed wsol_token_account.
  destruct (bundle_instruction_order K w Sample.agent "pool" 0.5%float 100 5)
    as (_ & _ & Hbuy & Hsell).
  split.
  - apply (Hbuy Sample.pool 500000000 950000 [] wsol_token_account 2039280
             "blockhash"%string); [answer_stages | reflexivity].
  - apply (Hsell Sample.pool 250000000 950000000 wsol_token_account 2039280
             "blockhash"%string); [answer_stages | reflexivity].
Defined.

(** C5.  In every bundle [sell_with_raydium] assembles, the six common
    instructions (the last of which closes the ephemeral account) are
    followed by a close of the source token account when
    [percentage = 100], and by nothing otherwise: the accounts the bundle
    closes are the ephemeral one and, on a full sell only, the source
    one.  And a sell whose stages the world answers up to the block hash
    does assemble one bundle: it closes the ephemeral account and then
    the source account when [percentage = 100], and the ephemeral
    account alone when [percentage < 100]. *)
Theorem sell_source_close K w agent pair_address percentage slippage :
  let payer := kp_pubkey (wallet agent) in
  let client := {| endpoint := rpc_url agent |} in
  Forall (fun ixs =>
    exists common wsol_token_account pool_keys,
      let token_account :=
        get_associated_token_address w payer (traded_mint K pool_keys) in
      fetch_pool_keys w pair_address = Ok (Some pool_keys) /\
      List.length common = 6%nat /\
      closed_accounts common = [wsol_token_account] /\
      last common =
        Some (close_account (TOKEN_PROGRAM_ID K) wsol_token_account payer payer) /\
      (percentage = 100 ->
       ixs = common ++ [close_account (TOKEN_PROGRAM_ID K) token_account payer payer] /\
       closed_accounts ixs = [wsol_token_account; token_account]) /\
      (percentage < 100 ->
       ixs = common /\ closed_accounts ixs = [wsol_token_account]))
    (bundles (trace (sell_with_raydium K w agent pair_address percentage slippage)))
  /\
  (forall pool_keys amount_in minimum_amount_out wsol_token_account
          balance_needed blockhash,
     sell_answers K w agent pair_address percentage slippage pool_keys amount_in
       minimum_amount_out wsol_token_account balance_needed ->
     get_latest_blockhash w client = Ok blockhash ->
     let token_account :=
       get_associated_token_address w payer (traded_mint K pool_keys) in
     exists common,
       List.length common = 6%nat /\
       closed_accounts common = [wsol_token_account] /\
       last common =
         Some (close_account (TOKEN_PROGRAM_ID K) wsol_token_account payer payer) /\
       (percentage = 100 ->
        bundles (trace (sell_with_raydium K w agent pair_address percentage slippage))
          = [common ++ [close_account (TOKEN_PROGRAM_ID K) token_account payer payer]] /\
        closed_accounts <$>
          bundles (trace (sell_with_raydium K w agent pair_address percentage slippage))
          = [[wsol_token_account; token_account]]) /\
       (percentage < 100 ->
        bundles (trace (sell_with_raydium K w agent pair_address percentage slippage))
          = [common] /\
        closed_accounts <$>
          bundles (trace (sell_with_raydium K w agent pair_address percentage slippage))
          = [[wsol_token_account]])).
Proof.
  intros payer client; split.
  - apply Forall_forall; intros ixs Hin.
    apply list_elem_of_In, sell_bundle_inv in Hin
      as (pk & tb & sh & rs & ao & mo & ai & ws & bn & _ & Hpk & _ & _ & _ & _ & _ & _ & _ & _ & ->).
    match goal with
    | |- context [?six ++ (if _ then _ else _)] => exists six, ws, pk; cbv zeta
    end.
    split; [exact Hpk|].
    split; [reflexivity|]. split; [reflexivity|]. split; [reflexivity|].
    split; intros Hp.
    + subst percentage. split; reflexivity.
    + destruct (percentage =? 100) eqn:E; [apply Z.eqb_eq in E; lia|].
      rewrite app_nil_r. split; reflexivity.
  - intros pk ai mo ws bn bh Ha Hb token_account.
    rewrite (sell_assembles_bundle _ _ _ _ _ _ _ _ _ _ _ _ Ha Hb).
    unfold sell_instructions.
    match goal with
    | |- context [?six ++ (if _ then _ else _)] => exists six
    end.
    split; [reflexivity|]. split; [reflexivity|]. split; [reflexivity|].
    split; intros Hp.
    + subst percentage. split; reflexivity.
    + destruct (percentage =? 100) eqn:E; [apply Z.eqb_eq in E; lia|].
      rewrite app_nil_r. split; reflexivity.
Qed.

(** In the sample world a sell of 100 percent closes the ephemeral
    account and the source account, and a sell of 40 percent the
    ephemeral account alone. *)
Lemma sell_source_close_witness :
  let K := Sample.constants in
  let w := Sample.world x00 in
  let wsol_token_account :=
    ("wallet/" +:+ urlsafe_b64encode (random_bytes w 24))%string in
  closed_accounts <$> bundles (trace (sell_with_raydium K w Sample.agent "pool" 100 5))
    = [[wsol_token_account; "wallet/mint"%string]] /\
  closed_accounts <$> bundles (trace (sell_with_raydium K w Sample.agent "pool" 40 5))
    = [[wsol_token_account]].
Proof.
  intros K w wsol_token_account. split.
  - destruct (sell_source_close K w Sample.agent "pool" 100 5) as [_ Hsell].
    destruct (Hsell Sample.pool 250000000 950000000 wsol_token_account 2039280
                "blockhash"%string) as (common & _ & _ & _ & Hfull & _);
      [answer_stages | reflexivity |].
    apply Hfull. reflexivity.
  - destruct (sell_source_close K w Sample.agent "pool" 40 5) as [_ Hsell].
    destruct (Hsell Sample.pool 100000000 950000000 wsol_token_account 2039280
                "blockhash"%string) as (common & _ & _ & _ & _ & Hpart);
      [answer_stages | reflexivity |].
    apply Hpart. lia.
Defined.

(** C6.  In every assembled bundle the one [create_account_with_seed]
    instruction carries [balance_needed + amount_in] lamports on the buy
    path, [amount_in = int(sol_in * SOL_DECIMAL)] being the amount the
    swap spends, and [balance_needed] lamports on the sell path, where
    [balance_needed] is the answer of
    [get_min_balance_rent_for_exempt_for_account].  And a run whose
    stages the world answers up to the block hash does assemble one
    bundle, with one [create_account_with_seed] instruction that
    carries that amount. *)
Theorem ephemeral_account_funding K w agent pair_address sol_in percentage slippage :
  let client := {| endpoint := rpc_url agent |} in
  Forall (fun ixs =>
    exists balance_needed amount_in,
      get_min_balance_rent_for_exempt_for_account w client = Ok balance_needed /\
      PyFloat.to_int (sol_in * SOL_DECIMAL K) = Ok amount_in /\
      funding ixs = [balance_needed + amount_in])
    (bundles (trace (buy_with_raydium K w agent pair_address sol_in slippage)))
  /\
  Forall (fun ixs =>
    exists balance_needed,
      get_min_balance_rent_for_exempt_for_account w client = Ok balance_needed /\
      funding ixs = [balance_needed])
    (bundles (trace (sell_with_raydium K w agent pair_address percentage slippage)))
  /\
  (forall pool_keys amount_in minimum_amount_out token_account_check
          wsol_token_account balance_needed blockhash,
     buy_answers K w agent pair_address sol_in slippage pool_keys amount_in
       minimum_amount_out token_account_check wsol_token_account balance_needed ->
     get_latest_blockhash w client = Ok blockhash ->
     get_min_balance_rent_for_exempt_for_account w client = Ok balance_needed /\
     PyFloat.to_int (sol_in * SOL_DECIMAL K) = Ok amount_in /\
     funding <$> bundles (trace (buy_with_raydium K w agent pair_address sol_in slippage))
       = [[balance_needed + amount_in]])
  /\
  (forall pool_keys amount_in minimum_amount_out wsol_token_account
          balance_needed blockhash,
     sell_answers K w agent pair_address percentage slippage pool_keys amount_in
       minimum_amount_out wsol_token_account balance_needed ->
     get_latest_blockhash w client = Ok blockhash ->
     get_min_balance_rent_for_exempt_for_account w client = Ok balance_needed /\
     funding <$> bundles (trace (sell_with_raydium K w agent pair_address percentage slippage))
       = [[balance_needed]]).
Proof.
  intros client; split; [|split; [|split]].
  - apply Forall_forall; intros ixs Hin.
    apply list_elem_of_In, buy_bundle_inv in Hin
      as (pk & ai & rs & ao & mo & accs & ws & bn & _ & Hai & _ & _ & _ & _ & _ & Hbn & ->).
    exists bn, ai. repeat split; try assumption.
    destruct accs; reflexivity.
  - apply Forall_forall; intros ixs Hin.
    apply list_elem_of_In, sell_bundle_inv in Hin
      as (pk & tb & sh & rs & ao & mo & ai & ws & bn & _ & _ & _ & _ & _ & _ & _ & _ & _ & Hbn & ->).
    exists bn. split; [assumption|].
    destruct (percentage =? 100); reflexivity.
  - intros pk ai mo accs ws bn bh Ha Hb.
    rewrite (buy_assembles_bundle _ _ _ _ _ _ _ _ _ _ _ _ _ Ha Hb).
    destruct Ha as (br & qr & td & ao & _ & Hai & _ & _ & _ & _ & _ & Hbn & _).
    split; [exact Hbn|]. split; [exact Hai|].
    destruct accs; reflexivity.
  - intros pk ai mo ws bn bh Ha Hb.
    rewrite (sell_assembles_bundle _ _ _ _ _ _ _ _ _ _ _ _ Ha Hb).
    destruct Ha as (tb & sh & br & qr & td & ao & _ & _ & _ & _ & _ & _ & _ & _ & _
                    & _ & Hbn & _).
    split; [exact Hbn|].
    unfold sell_instructions. destruct (percentage =? 100); reflexivity.
Qed.

(** In the sample world the rent-exempt minimum is 2039280 lamports: a
    buy of 0.5 SOL funds the ephemeral account with that and 500000000
    more, a sell with that alone. *)
Lemma ephemeral_account_funding_witness :
  let K := Sample.constants in
  let w := Sample.world x00 in
  funding <$> bundles (trace (buy_with_raydium K w Sample.agent "pool" 0.5%float 5))
    = [[2039280 + 500000000]] /\
  funding <$> bundles (trace (sell_with_raydium K w Sample.agent "pool" 40 5))
    = [[2039280]].
Proof.
  intros K w.
  destruct (ephemeral_account_funding K w Sample.agent "pool" 0.5%float 40 5)
    as (_ & _ & Hbuy & Hsell).
  split.
  - apply (Hbuy Sample.pool 500000000 950000 []
             ("wallet/" +:+ urlsafe_b64encode (random_bytes w 24))%string
             2039280 "blockhash"%string); [answer_stages | reflexivity].
  - apply (Hsell Sample.pool 100000000 950000000
             ("wallet/" +:+ urlsafe_b64encode (random_bytes w 24))%string
             2039280 "blockhash"%string); [answer_stages | reflexivity].
Defined.

(* ===================================================================== *)
(** * How a call ends *)
(* ===================================================================== *)

(** C8, as stated, fails: while a buy or a sell waits for the
    confirmation the user presses Ctrl-C; [confirm_txn] raises
    [KeyboardInterrupt], which is no instance of [Exception], and the
    call ends with that exception instead of returning [False]. *)
Lemma interrupt_reaches_the_caller :
  let buy := buy_with_raydium Sample.constants Edge.world_interrupted
               Sample.agent "pool" 0.5%float 5 in
  let sell := sell_with_raydium Sample.constants Edge.world_interrupted
                Sample.agent "pool" 100 5 in
  confirm_txn Edge.world_interrupted "signature" = Raise KeyboardInterrupt /\
  last (trace buy) = Some (CConfirmTxn "signature") /\
  outcome buy = Raise KeyboardInterrupt /\
  last (trace sell) = Some (CConfirmTxn "signature") /\
  outcome sell = Raise KeyboardInterrupt.
Proof. vm_compute. auto 10. Qed.

(** C8, amended.  A call returns what its body returns.  When a stage
    of the body raises [e], the call returns [False] if [e] is an
    instance of [Exception] and the handler can print it; it ends with
    [e] itself if [e] is no instance of [Exception], and with what
    [str(e)] raises if the handler cannot print [e].  The first and the
    last stage are cases in point: the body raises what
    [fetch_pool_keys] raises, and what [confirm_txn] raises on an
    accepted submission. *)
Theorem exceptions_caught_by_class K w agent pair_address sol_in percentage slippage :
  let buy_try := buy_body K w agent pair_address sol_in slippage in
  let buy := buy_with_raydium K w agent pair_address sol_in slippage in
  let sell_try := sell_body K w agent pair_address percentage slippage in
  let sell := sell_with_raydium K w agent pair_address percentage slippage in
  (forall b, outcome buy_try = Ok b -> outcome buy = Ok b) /\
  (forall e, outcome buy_try = Raise e ->
     (is_Exception e = true -> forall s, str_of_exn w e = Ok s ->
      outcome buy = Ok false) /\
     (is_Exception e = true -> forall e', str_of_exn w e = Raise e' ->
      outcome buy = Raise e') /\
     (is_Exception e = false -> outcome buy = Raise e)) /\
  (forall b, outcome sell_try = Ok b -> outcome sell = Ok b) /\
  (forall e, outcome sell_try = Raise e ->
     (is_Exception e = true -> forall s, str_of_exn w e = Ok s ->
      outcome sell = Ok false) /\
     (is_Exception e = true -> forall e', str_of_exn w e = Raise e' ->
      outcome sell = Raise e') /\
     (is_Exception e = false -> outcome sell = Raise e)) /\
  (forall e, fetch_pool_keys w pair_address = Raise e ->
     outcome buy_try = Raise e /\
     (1 <= percentage <= 100 -> outcome sell_try = Raise e)) /\
  (forall e pool_keys amount_in minimum_amount_out token_account_check
          wsol_token_account balance_needed blockhash txn_sig,
     buy_answers K w agent pair_address sol_in slippage pool_keys amount_in
       minimum_amount_out token_account_check wsol_token_account balance_needed ->
     submission_accepted w agent
       (buy_instructions K w agent pool_keys amount_in minimum_amount_out
          token_account_check wsol_token_account balance_needed)
       blockhash txn_sig ->
     confirm_txn w txn_sig = Raise e ->
     outcome buy_try = Raise e) /\
  (forall e pool_keys amount_in minimum_amount_out wsol_token_account
          balance_needed blockhash txn_sig,
     sell_answers K w agent pair_address percentage slippage pool_keys amount_in
       minimum_amount_out wsol_token_account balance_needed ->
     submission_accepted w agent
       (sell_instructions K w agent percentage pool_keys amount_in
          minimum_amount_out wsol_token_account balance_needed)
       blockhash txn_sig ->
     confirm_txn w txn_sig = Raise e ->
     outcome sell_try = Raise e).
Proof.
  cbv zeta. unfold buy_with_raydium, sell_with_raydium.
  rewrite !outcome_try_except_print. unfold handled.
  split; [intros b ->; reflexivity|].
  split; [intros e ->; repeat split; [intros -> s ->|intros -> e' ->|intros ->];
          reflexivity|].
  split; [intros b ->; reflexivity|].
  split; [intros e ->; repeat split; [intros -> s ->|intros -> e' ->|intros ->];
          reflexivity|].
  split; [|split].
  - intros e He. split.
    + unfold buy_body, perform. rewrite He. reflexivity.
    + intros Hp. unfold sell_body, perform.
      replace ((1 <=? percentage) && (percentage <=? 100)) with true
        by (symmetry; apply andb_true_iff; split; apply Z.leb_le; lia).
      simpl negb. cbv iota. rewrite He. reflexivity.
  - intros e pk ai mo accs ws bn bh sig Ha Hs He.
    rewrite (buy_body_runs _ _ _ _ _ _ _ _ _ _ _ _ _ _ Ha Hs). exact He.
  - intros e pk ai mo ws bn bh sig Ha Hs He.
    rewrite (sell_body_runs _ _ _ _ _ _ _ _ _ _ _ _ _ Ha Hs). exact He.
Qed.

(** The three endings of a call whose last stage raises, in worlds that
    differ from the sample world in what [confirm_txn] raises and in
    whether it can be printed: an [Exception] gives [False], a
    [KeyboardInterrupt] ends the call, and so does an [Exception] whose
    [__str__] raises. *)
Lemma exceptions_caught_by_class_witness :
  let refused :=
    Edge.with_confirm_txn (Sample.world x00) (fun _ => Raise (Exn "RPCException")) in
  let buy w := buy_with_raydium Sample.constants w Sample.agent "pool" 0.5%float 5 in
  let sell w := sell_with_raydium Sample.constants w Sample.agent "pool" 100 5 in
  (outcome (buy refused) = Ok false /\ outcome (sell refused) = Ok false) /\
  (outcome (buy Edge.world_interrupted) = Raise KeyboardInterrupt /\
   outcome (sell Edge.world_interrupted) = Raise KeyboardInterrupt) /\
  (outcome (buy Edge.world_unprintable) = Raise TypeError /\
   outcome (sell Edge.world_unprintable) = Raise TypeError).
Proof.
  intros refused buy sell.
  set (wsol := ("wallet/" +:+
                urlsafe_b64encode (random_bytes (Sample.world x00) 24))%string).
  split; [split | split; split].
  - destruct (exceptions_caught_by_class Sample.constants refused Sample.agent
                "pool" 0.5%float 100 5) as (_ & Hbuy & _ & _ & _ & Hlast & _).
    apply (Hbuy (Exn "RPCException")) with (s := "RPCException"%string);
      [|reflexivity|reflexivity].
    apply (Hlast _ Sample.pool 500000000 950000 [] wsol 2039280
             "blockhash"%string "signature"%string);
      [answer_stages | answer_stages | reflexivity].
  - destruct (exceptions_caught_by_class Sample.constants refused Sample.agent
                "pool" 0.5%float 100 5) as (_ & _ & _ & Hsell & _ & _ & Hlast).
    apply (Hsell (Exn "RPCException")) with (s := "RPCException"%string);
      [|reflexivity|reflexivity].
    apply (Hlast _ Sample.pool 250000000 950000000 wsol 2039280
             "blockhash"%string "signature"%string);
      [answer_stages | answer_stages | reflexivity].
  - destruct (exceptions_caught_by_class Sample.constants Edge.world_interrupted
                Sample.agent "pool" 0.5%float 100 5)
      as (_ & Hbuy & _ & _ & _ & Hlast & _).
    apply (Hbuy KeyboardInterrupt); [|reflexivity].
    apply (Hlast _ Sample.pool 500000000 950000 [] wsol 2039280
             "blockhash"%string "signature"%string);
      [answer_stages | answer_stages | reflexivity].
  - destruct (exceptions_caught_by_class Sample.constants Edge.world_interrupted
                Sample.agent "pool" 0.5%float 100 5)
      as (_ & _ & _ & Hsell & _ & _ & Hlast).
    apply (Hsell KeyboardInterrupt); [|reflexivity].
    apply (Hlast _ Sample.pool 250000000 950000000 wsol 2039280
             "blockhash"%string "signature"%string);
      [answer_stages | answer_stages | reflexivity].
  - destruct (exceptions_caught_by_class Sample.constants Edge.world_unprintable
                Sample.agent "pool" 0.5%float 100 5)
      as (_ & Hbuy & _ & _ & _ & Hlast & _).
    apply (Hbuy (Exn "RPCException")); [|reflexivity|reflexivity].
    apply (Hlast _ Sample.pool 500000000 950000 [] wsol 2039280
             "blockhash"%string "signature"%string);
      [answer_stages | answer_stages | reflexivity].
  - destruct (exceptions_caught_by_class Sample.constants Edge.world_unprintable
                Sample.agent "pool" 0.5%float 100 5)
      as (_ & _ & _ & Hsell & _ & _ & Hlast).
    apply (Hsell (Exn "RPCException")); [|reflexivity|reflexivity].
    apply (Hlast _ Sample.pool 250000000 950000000 wsol 2039280
             "blockhash"%string "signature"%string);
      [answer_stages | answer_stages | reflexivity].
Defined.

(** C1, as stated, fails: with [slippage = 150] both functions query the
    network and return [False]; with [slippage = -5] they go on to send
    the transaction and return [True].  No exception reaches the caller
    in either case. *)
Lemma out_of_range_slippage_not_rejected :
  let buy s := buy_with_raydium Sample.constants (Sample.world x00)
                 Sample.agent "pool" 0.5%float s in
  let sell s := sell_with_raydium Sample.constants (Sample.world x00)
                  Sample.agent "pool" 100 s in
  (outcome (buy 150) = Ok false /\
   hd_error (trace (buy 150)) = Some (CFetchPoolKeys "pool") /\
   List.length (filter (fun c => is_network_call c = true) (trace (buy 150))) = 4%nat /\
   outcome (sell 150) = Ok false /\
   hd_error (trace (sell 150)) = Some (CFetchPoolKeys "pool") /\
   List.length (filter (fun c => is_network_call c = true) (trace (sell 150))) = 4%nat) /\
  (outcome (buy (-5)) = Ok true /\
   last (trace (buy (-5))) = Some (CConfirmTxn "signature") /\
   outcome (sell (-5)) = Ok true /\
   last (trace (sell (-5))) = Some (CConfirmTxn "signature")).
Proof. vm_compute. auto 10. Qed.

(** C1, amended.  Neither function checks [slippage] against a range.
    The first thing a buy does is call [fetch_pool_keys], a network
    call, and so does a sell once [percentage] is within [1, 100].
    Whatever the value of [slippage], inside [0, 100] or not, it enters
    the run in one place, the arithmetic of [minimum_amount_out]: when
    that arithmetic is defined and the world answers the stages, the
    run makes every call up to [confirm_txn], submits the one bundle
    whose swap carries that [minimum_amount_out], and returns what
    [confirm_txn] answers. *)
Theorem slippage_is_not_validated K w agent pair_address sol_in percentage slippage :
  let buy := buy_with_raydium K w agent pair_address sol_in slippage in
  let sell := sell_with_raydium K w agent pair_address percentage slippage in
  is_network_call (CFetchPoolKeys pair_address) = true /\
  hd_error (trace buy) = Some (CFetchPoolKeys pair_address) /\
  (1 <= percentage <= 100 ->
   hd_error (trace sell) = Some (CFetchPoolKeys pair_address)) /\
  (forall pool_keys amount_in minimum_amount_out token_account_check
          wsol_token_account balance_needed blockhash txn_sig confirmed,
     let instructions :=
       buy_instructions K w agent pool_keys amount_in minimum_amount_out
         token_account_check wsol_token_account balance_needed in
     buy_answers K w agent pair_address sol_in slippage pool_keys amount_in
       minimum_amount_out token_account_check wsol_token_account balance_needed ->
     submission_accepted w agent instructions blockhash txn_sig ->
     confirm_txn w txn_sig = Ok confirmed ->
     trace buy = buy_preparation K agent pair_address pool_keys
                 ++ submission agent instructions blockhash txn_sig /\
     outcome buy = Ok confirmed /\
     (fun ixs => (swaps ixs).*1.*1.*2) <$> bundles (trace buy)
       = [[minimum_amount_out]]) /\
  (forall pool_keys amount_in minimum_amount_out wsol_token_account
          balance_needed blockhash txn_sig confirmed,
     let instructions :=
       sell_instructions K w agent percentage pool_keys amount_in
         minimum_amount_out wsol_token_account balance_needed in
     sell_answers K w agent pair_address percentage slippage pool_keys amount_in
       minimum_amount_out wsol_token_account balance_needed ->
     submission_accepted w agent instructions blockhash txn_sig ->
     confirm_txn w txn_sig = Ok confirmed ->
     trace sell = sell_preparation K agent pair_address pool_keys
                  ++ submission agent instructions blockhash txn_sig /\
     outcome sell = Ok confirmed /\
     (fun ixs => (swaps ixs).*1.*1.*2) <$> bundles (trace sell)
       = [[minimum_amount_out]]).
Proof.
  cbv zeta. split; [reflexivity|]. split; [|split; [|split]].
  - unfold buy_with_raydium. rewrite trace_try_except_print.
    unfold buy_body. rewrite trace_bind. reflexivity.
  - intros Hp.
    unfold sell_with_raydium. rewrite trace_try_except_print.
    unfold sell_body.
    replace ((1 <=? percentage) && (percentage <=? 100)) with true
      by (symmetry; apply andb_true_iff; split; apply Z.leb_le; lia).
    simpl negb. cbv iota. rewrite trace_bind. reflexivity.
  - intros pk ai mo accs ws bn bh sig b Ha Hs Hc.
    unfold buy_with_raydium.
    rewrite trace_try_except_print, outcome_try_except_print.
    rewrite (buy_body_runs _ _ _ _ _ _ _ _ _ _ _ _ _ _ Ha Hs).
    unfold trace, outcome. cbn [fst snd]. rewrite Hc.
    split; [reflexivity|]. split; [reflexivity|].
    unfold buy_instructions. destruct accs; reflexivity.
  - intros pk ai mo ws bn bh sig b Ha Hs Hc.
    unfold sell_with_raydium.
    rewrite trace_try_except_print, outcome_try_except_print.
    rewrite (sell_body_runs _ _ _ _ _ _ _ _ _ _ _ _ _ Ha Hs).
    unfold trace, outcome. cbn [fst snd]. rewrite Hc.
    split; [reflexivity|]. split; [reflexivity|].
    unfold sell_instructions. destruct (percentage =? 100); reflexivity.
Qed.

(** With [slippage = -5], outside the range, the sample buy and the
    sample sell go through: they submit a swap that asks for more than
    the estimate, 1050000 for 1000000 and 1050000000 for 1000000000,
    and return [True]. *)
Lemma slippage_is_not_validated_witness :
  let K := Sample.constants in
  let w := Sample.world x00 in
  let buy := buy_with_raydium K w Sample.agent "pool" 0.5%float (-5) in
  let sell := sell_with_raydium K w Sample.agent "pool" 100 (-5) in
  (outcome buy = Ok true /\
   (fun ixs => (swaps ixs).*1.*1.*2) <$> bundles (trace buy) = [[1050000]]) /\
  (outcome sell = Ok true /\
   (fun ixs => (swaps ixs).*1.*1.*2) <$> bundles (trace sell) = [[1050000000]]).
Proof.
  intros K w buy sell.
  set (wsol := ("wallet/" +:+ urlsafe_b64encode (random_bytes w 24))%string).
  destruct (slippage_is_not_validated K w Sample.agent "pool" 0.5%float 100 (-5))
    as (_ & _ & _ & Hbuy & Hsell).
  split.
  - destruct (Hbuy Sample.pool 500000000 1050000 [] wsol 2039280
                "blockhash"%string "signature"%string true) as (_ & Ho & Hm);
      [answer_stages | answer_stages | reflexivity |].
    split; assumption.
  - destruct (Hsell Sample.pool 250000000 1050000000 wsol 2039280
                "blockhash"%string "signature"%string true) as (_ & Ho & Hm);
      [answer_stages | answer_stages | reflexivity |].
    split; assumption.
Defined.

(** C2, as stated, fails: a submission the network refuses and a
    transaction that is never seen confirmed both come back as the same
    value, [False]; nothing computed from the returned value can tell
    [Rejected] from [TimedOut]. *)
Lemma rejected_and_timed_out_coincide :
  let buy w := outcome (buy_with_raydium Sample.constants w
                          Sample.agent "pool" 0.5%float 5) in
  let sell w := outcome (sell_with_raydium Sample.constants w
                           Sample.agent "pool" 100 5) in
  (buy Sample.world_rejected = Ok false /\ buy Sample.world_timed_out = Ok false /\
   sell Sample.world_rejected = Ok false /\ sell Sample.world_timed_out = Ok false) /\
  ~ (exists classify : result bool -> Outcome,
       (exists reason, classify (buy Sample.world_rejected) = Rejected reason) /\
       (exists signature, classify (buy Sample.world_timed_out) = TimedOut signature)).
Proof.
  cbv zeta. split; [vm_compute; auto|].
  intros (classify & (reason & Hr) & (signature & Ht)).
  replace (outcome (buy_with_raydium Sample.constants Sample.world_timed_out
                      Sample.agent "pool" 0.5%float 5))
    with (outcome (buy_with_raydium Sample.constants Sample.world_rejected
                     Sample.agent "pool" 0.5%float 5)) in Ht
    by (vm_compute; reflexivity).
  congruence.
Qed.

Ltac settle_run E :=
  injection E as <- <-; simpl;
  repeat match goal with b : bool |- _ => destruct b end;
  (split;
   [ intros Ht;
     first [discriminate Ht | eexists; split; [reflexivity|assumption] ]
   | intros (sig & Hl & Hc);
     first [discriminate Hl | injection Hl as <-; congruence] ]).

(** The body of a buy returns [True] exactly when its last call is a
    [confirm_txn] that answered [True]. *)
Lemma buy_body_confirmed K w agent pair_address sol_in slippage :
  let body := buy_body K w agent pair_address sol_in slippage in
  outcome body = Ok true <->
  exists txn_sig, last (trace body) = Some (CConfirmTxn txn_sig) /\
                  confirm_txn w txn_sig = Ok true.
Proof.
  cbv zeta.
  destruct (buy_body K w agent pair_address sol_in slippage) as [t r] eqn:E.
  unfold buy_body, submit_and_confirm in E. simpl in E.
  unfold trace, outcome; simpl.
  run E; settle_run E.
Qed.

Lemma sell_body_confirmed K w agent pair_address percentage slippage :
  let body := sell_body K w agent pair_address percentage slippage in
  outcome body = Ok true <->
  exists txn_sig, last (trace body) = Some (CConfirmTxn txn_sig) /\
                  confirm_txn w txn_sig = Ok true.
Proof.
  cbv zeta.
  destruct (sell_body K w agent pair_address percentage slippage) as [t r] eqn:E.
  unfold sell_body, submit_and_confirm in E.
  unfold trace, outcome; simpl.
  destruct (negb ((1 <=? percentage) && (percentage <=? 100)));
    simpl in E; [settle_run E|].
  run E; settle_run E.
Qed.

(** A call returns [True] exactly when its body does. *)
Lemma try_except_print_true w (m : M bool) :
  outcome (try_except m (fun e => print_exception w e;; mret false)) = Ok true
  <-> outcome m = Ok true.
Proof.
  rewrite outcome_try_except_print. unfold handled.
  destruct (outcome m) as [b|e]; [reflexivity|].
  destruct (is_Exception e); [destruct (str_of_exn w e)|];
    split; intros H; discriminate H.
Qed.

(** How a call that raises came to raise. *)
Lemma try_except_print_raise w (m : M bool) e :
  outcome (try_except m (fun e => print_exception w e;; mret false)) = Raise e ->
  (outcome m = Raise e /\ is_Exception e = false) \/
  (exists e0, outcome m = Raise e0 /\ is_Exception e0 = true /\
              str_of_exn w e0 = Raise e).
Proof.
  rewrite outcome_try_except_print. unfold handled.
  destruct (outcome m) as [b|e0]; [discriminate|].
  destruct (is_Exception e0) eqn:Hc.
  - destruct (str_of_exn w e0) eqn:Hs; [discriminate|].
    intros [= ->]. right. exists e0. auto.
  - intros [= ->]. left. auto.
Qed.

(** C2, amended.  Each entry point returns a boolean, not one of three
    variants: [True] exactly when its run ends with a call of
    [confirm_txn] that answered [True]; [False] when a stage raises an
    [Exception] the handler can print (a submission the network
    refuses, for one), and [False] as well when the submission is
    accepted and [confirm_txn] answers [False].  A call ends without a
    value in two cases only: a stage raised an exception that is no
    instance of [Exception], which then reaches the caller, or the
    handler could not print the exception it caught. *)
Theorem outcome_is_confirmation_flag K w agent pair_address sol_in percentage slippage :
  let buy := buy_with_raydium K w agent pair_address sol_in slippage in
  let sell := sell_with_raydium K w agent pair_address percentage slippage in
  let buy_try := buy_body K w agent pair_address sol_in slippage in
  let sell_try := sell_body K w agent pair_address percentage slippage in
  ((outcome buy = Ok true <->
    exists txn_sig, last (trace buy) = Some (CConfirmTxn txn_sig) /\
                    confirm_txn w txn_sig = Ok true) /\
   (forall e, outcome buy = Raise e ->
      (outcome buy_try = Raise e /\ is_Exception e = false) \/
      (exists e0, outcome buy_try = Raise e0 /\ is_Exception e0 = true /\
                  str_of_exn w e0 = Raise e)) /\
   (forall e line, outcome buy_try = Raise e -> is_Exception e = true ->
      str_of_exn w e = Ok line -> outcome buy = Ok false) /\
   (forall pool_keys amount_in minimum_amount_out token_account_check
           wsol_token_account balance_needed blockhash txn_sig,
      buy_answers K w agent pair_address sol_in slippage pool_keys amount_in
        minimum_amount_out token_account_check wsol_token_account balance_needed ->
      submission_accepted w agent
        (buy_instructions K w agent pool_keys amount_in minimum_amount_out
           token_account_check wsol_token_account balance_needed)
        blockhash txn_sig ->
      confirm_txn w txn_sig = Ok false ->
      outcome buy = Ok false)) /\
  ((outcome sell = Ok true <->
    exists txn_sig, last (trace sell) = Some (CConfirmTxn txn_sig) /\
                    confirm_txn w txn_sig = Ok true) /\
   (forall e, outcome sell = Raise e ->
      (outcome sell_try = Raise e /\ is_Exception e = false) \/
      (exists e0, outcome sell_try = Raise e0 /\ is_Exception e0 = true /\
                  str_of_exn w e0 = Raise e)) /\
   (forall e line, outcome sell_try = Raise e -> is_Exception e = true ->
      str_of_exn w e = Ok line -> outcome sell = Ok false) /\
   (forall pool_keys amount_in minimum_amount_out wsol_token_account
           balance_needed blockhash txn_sig,
      sell_answers K w agent pair_address percentage slippage pool_keys amount_in
        minimum_amount_out wsol_token_account balance_needed ->
      submission_accepted w agent
        (sell_instructions K w agent percentage pool_keys amount_in
           minimum_amount_out wsol_token_account balance_needed)
        blockhash txn_sig ->
      confirm_txn w txn_sig = Ok false ->
      outcome sell = Ok false)).
Proof.
  cbv zeta. split; (split; [|split; [|split]]).
  - unfold buy_with_raydium.
    rewrite try_except_print_true, trace_try_except_print.
    apply buy_body_confirmed.
  - intros e. apply try_except_print_raise.
  - intros e line He Hc Hs. unfold buy_with_raydium.
    rewrite outcome_try_except_print, He, Hc. unfold handled. rewrite Hs.
    reflexivity.
  - intros pk ai mo accs ws bn bh sig Ha Hs Hc.
    unfold buy_with_raydium. rewrite outcome_try_except_print.
    rewrite (buy_body_runs _ _ _ _ _ _ _ _ _ _ _ _ _ _ Ha Hs).
    unfold outcome. cbn [snd]. rewrite Hc. reflexivity.
  - unfold sell_with_raydium.
    rewrite try_except_print_true, trace_try_except_print.
    apply sell_body_confirmed.
  - intros e. apply try_except_print_raise.
  - intros e line He Hc Hs. unfold sell_with_raydium.
    rewrite outcome_try_except_print, He, Hc. unfold handled. rewrite Hs.
    reflexivity.
  - intros pk ai mo ws bn bh sig Ha Hs Hc.
    unfold sell_with_raydium. rewrite outcome_try_except_print.
    rewrite (sell_body_runs _ _ _ _ _ _ _ _ _ _ _ _ _ Ha Hs).
    unfold outcome. cbn [snd]. rewrite Hc. reflexivity.
Qed.

(** A transaction that is accepted and not seen confirmed: both sample
    calls return [False]. *)
Lemma outcome_is_confirmation_flag_witness :
  let K := Sample.constants in
  let w := Sample.world_timed_out in
  outcome (buy_with_raydium K w Sample.agent "pool" 0.5%float 5) = Ok false /\
  outcome (sell_with_raydium K w Sample.agent "pool" 100 5) = Ok false.
Proof.
  intros K w.
  set (wsol := ("wallet/" +:+ urlsafe_b64encode (random_bytes w 24))%string).
  destruct (outcome_is_confirmation_flag K w Sample.agent "pool" 0.5%float 100 5)
    as ((_ & _ & _ & Hbuy) & (_ & _ & _ & Hsell)).
  split.
  - apply (Hbuy Sample.pool 500000000 950000 [] wsol 2039280
             "blockhash"%string "signature"%string);
      [answer_stages | answer_stages | reflexivity].
  - apply (Hsell Sample.pool 250000000 950000000 wsol 2039280
             "blockhash"%string "signature"%string);
      [answer_stages | answer_stages | reflexivity].
Defined.

(* ===================================================================== *)
(** * Swap math *)
(* ===================================================================== *)

Lemma native_for_asset_defined (asset_in base_reserve quote_reserve : Q) :
  (0 < base_reserve + asset_in)%Q ->
  native_for_asset asset_in base_reserve quote_reserve =
  Ok (quote_reserve - (base_reserve * quote_reserve) / (base_reserve + asset_in))%Q.
Proof.
  intros H. unfold native_for_asset.
  destruct (Qlt_le_dec 0 (base_reserve + asset_in)) as [_|Hle]; [reflexivity|].
  exfalso. apply (Qlt_irrefl 0). eapply Qlt_le_trans; eassumption.
Qed.

(** C3, as stated, fails where both the base reserve and the input are
    zero: the checked precondition [base_reserve + asset_in > 0] is
    violated and no value is returned. *)
Lemma native_for_asset_empty_pool :
  (0 <= 0)%Q /\ (0 < 1)%Q /\
  native_for_asset 0 0 1 = Raise InvalidReserveStateError /\
  ~ (exists native_out, native_for_asset 0 0 1 = Ok native_out /\ (native_out <= 1)%Q).
Proof.
  repeat split; try reflexivity; try discriminate.
  intros (v & Hv & _). discriminate Hv.
Qed.

(** C3, amended.  For a non-negative base reserve, a positive quote
    reserve and a non-negative input whose sum with the base reserve is
    positive, [native_for_asset] returns a value that is at most the
    quote reserve, and a larger input returns at least as much. *)
Theorem native_for_asset_bounded_monotone
    (asset_in asset_in' base_reserve quote_reserve : Q) :
  (0 <= base_reserve)%Q -> (0 < quote_reserve)%Q ->
  (0 <= asset_in)%Q -> (asset_in <= asset_in')%Q ->
  (0 < base_reserve + asset_in)%Q ->
  exists native_out native_out',
    native_for_asset asset_in base_reserve quote_reserve = Ok native_out /\
    native_for_asset asset_in' base_reserve quote_reserve = Ok native_out' /\
    (native_out <= quote_reserve)%Q /\
    (native_out' <= quote_reserve)%Q /\
    (native_out <= native_out')%Q.
Proof.
  intros Hb Hq Ha Haa Hpos.
  assert (Hpos' : (0 < base_reserve + asset_in')%Q).
  { eapply Qlt_le_trans; [exact Hpos|]. apply Qplus_le_r; exact Haa. }
  rewrite !native_for_asset_defined by assumption.
  eexists _, _. split; [reflexivity|]. split; [reflexivity|].
  set (k := (base_reserve * quote_reserve)%Q).
  set (d := (base_reserve + asset_in)%Q) in *.
  set (d' := (base_reserve + asset_in')%Q) in *.
  assert (Hk : (0 <= k)%Q) by (subst k; nra).
  assert (Hdd : (d <= d')%Q) by (subst d d'; lra).
  assert (Hx : (k / d * d == k)%Q) by (rewrite Qmult_comm; apply Qmult_div_r; lra).
  assert (Hy : (k / d' * d' == k)%Q) by (rewrite Qmult_comm; apply Qmult_div_r; lra).
  assert (Hx0 : (0 <= k / d)%Q) by (apply Qle_shift_div_l; lra).
  assert (Hy0 : (0 <= k / d')%Q) by (apply Qle_shift_div_l; lra).
  generalize dependent (k / d)%Q. generalize dependent (k / d')%Q.
  intros y Hy Hy0 x Hx Hx0.
  split; [lra|]. split; [lra|].
  assert (y <= x)%Q by nra. lra.
Qed.

(** The amended statement at the reserves of the specification's example,
    for inputs of 10_000 and 20_000. *)
Lemma native_for_asset_bounded_monotone_witness :
  exists native_out native_out',
    native_for_asset 10000 1000000 500000 = Ok native_out /\
    native_for_asset 20000 1000000 500000 = Ok native_out' /\
    (native_out <= 500000)%Q /\
    (native_out' <= 500000)%Q /\
    (native_out <= native_out')%Q.
Proof.
  apply (native_for_asset_bounded_monotone 10000 20000 1000000 500000);
    vm_compute; congruence.
Defined.

(* ===================================================================== *)
(** * Binary64 arithmetic *)
(* ===================================================================== *)

(** ** Digits and shifts *)

(** [digits2_pos] counts binary digits, as [Pos.size] does. *)
Lemma digits2_pos_size p : digits2_pos p = Pos.size p.
Proof. induction p; simpl; congruence. Qed.

Lemma Zdigits2_bounds m :
  0 < m -> 2 ^ (Zdigits2 m - 1) <= m < 2 ^ Zdigits2 m.
Proof.
  destruct m as [|p|p]; try lia. intros _. simpl Zdigits2.
  rewrite digits2_pos_size.
  pose proof (Pos.size_gt p) as Hgt. pose proof (Pos.size_le p) as Hle.
  apply Pos2Z.pos_lt_pos in Hgt. apply Pos2Z.pos_le_pos in Hle.
  rewrite Pos2Z.inj_pow in Hgt, Hle.
  replace (Z.pos (Pos.size p)) with (Z.succ (Z.pos (Pos.size p) - 1)) in Hle at 1 by lia.
  rewrite Z.pow_succ_r in Hle by lia.
  change (Z.pos p~0) with (2 * Z.pos p) in Hle. lia.
Qed.

Lemma Zdigits2_unique m d :
  0 < d -> 2 ^ (d - 1) <= m < 2 ^ d -> Zdigits2 m = d.
Proof.
  intros Hd Hm.
  assert (0 < m) by (pose proof (Z.pow_pos_nonneg 2 (d - 1)); lia).
  pose proof (Zdigits2_bounds m H) as Hb.
  assert (Hpos : 0 < Zdigits2 m) by (destruct m; simpl; lia).
  destruct (Z.lt_trichotomy (Zdigits2 m) d) as [Hlt|[Heq|Hgt]]; [|exact Heq|].
  - assert (2 ^ Zdigits2 m <= 2 ^ (d - 1)) by (apply Z.pow_le_mono_r; lia). lia.
  - assert (2 ^ d <= 2 ^ (Zdigits2 m - 1)) by (apply Z.pow_le_mono_r; lia). lia.
Qed.

(** [iter_pos] and [Pos.iter] iterate alike. *)
Lemma iter_pos_iter {A} (f : A -> A) p x : iter_pos f p x = Pos.iter f x p.
Proof.
  revert x. induction p as [p IH|p IH|]; intros x; simpl.
  - rewrite !IH. rewrite 2!Pos.iter_swap. reflexivity.
  - rewrite !IH. reflexivity.
  - reflexivity.
Qed.

Lemma shr_1_div2 m r s : 0 <= m ->
  shr_m (shr_1 (Build_shr_record m r s)) = m / 2 /\
  shr_r (shr_1 (Build_shr_record m r s)) = Z.odd m /\
  shr_s (shr_1 (Build_shr_record m r s)) = r || s.
Proof.
  intros Hm. destruct m as [|[p|p|]|p]; try lia; simpl; repeat split.
  - rewrite Pos2Z.inj_xI. apply (Z.div_unique _ _ _ 1); lia.
  - rewrite Pos2Z.inj_xO. apply (Z.div_unique _ _ _ 0); lia.
Qed.

Lemma odd_mod2 m : Z.odd m = true <-> m mod 2 = 1.
Proof. rewrite Zmod_odd. destruct (Z.odd m); split; (discriminate || reflexivity). Qed.

Lemma shifted_first m0 : 0 <= m0 ->
  shifted m0 1 (shr_1 (Build_shr_record m0 false false)).
Proof.
  intros Hm. destruct (shr_1_div2 m0 false false Hm) as (H1 & H2 & H3).
  unfold shifted. rewrite H1, H2, H3. simpl (2 ^ (1 - 1)). change (2 ^ 1) with 2.
  rewrite Z.mod_1_r, odd_mod2. pose proof (Z.mod_pos_bound m0 2 ltac:(lia)).
  repeat split; try discriminate; try lia.
Qed.

Lemma shifted_next m0 j r : 0 <= m0 -> 0 < j ->
  shifted m0 j r -> shifted m0 (j + 1) (shr_1 r).
Proof.
  intros Hm Hj (Hq & Hr & Hs). destruct r as [m r s].
  cbn [shr_m shr_r shr_s] in Hq, Hr, Hs.
  assert (Hg : 0 < 2 ^ (j - 1)) by (apply Z.pow_pos_nonneg; lia).
  assert (Hp' : 2 ^ j = 2 ^ (j - 1) * 2).
  { replace j with (j - 1 + 1) at 1 by lia. rewrite Z.pow_add_r by lia. lia. }
  assert (Hp : 2 ^ (j + 1) = 2 ^ j * 2) by (rewrite Z.pow_add_r by lia; lia).
  assert (Hm' : 0 <= m) by (subst m; apply Z.div_pos; lia).
  destruct (shr_1_div2 m r s Hm') as (H1 & H2 & H3).
  unfold shifted. rewrite H1, H2, H3.
  replace (j + 1 - 1) with j by lia.
  rewrite odd_mod2, orb_true_iff, Hr, Hs. clear Hr Hs H1 H2 H3.
  rewrite Hp, (Z.rem_mul_r m0 (2 ^ j) 2) by lia. rewrite <- Hq.
  pose proof (Z.mod_pos_bound m0 (2 ^ j) ltac:(lia)) as Hb.
  pose proof (Z.mod_pos_bound m 2 ltac:(lia)) as Hb2.
  assert (Hgj : 0 < 2 ^ j) by lia.
  repeat split.
  - subst m. rewrite Z.div_div by lia. reflexivity.
  - intros ->. lia.
  - intros. assert (m mod 2 = 0 \/ m mod 2 = 1) as [Hz|Ho] by lia; [|exact Ho].
    rewrite Hz in *. lia.
  - rewrite Hp', (Z.rem_mul_r m0 (2 ^ (j - 1)) 2) by lia.
    pose proof (Z.mod_pos_bound m0 (2 ^ (j - 1)) ltac:(lia)).
    pose proof (Z.mod_pos_bound (m0 / 2 ^ (j - 1)) 2 ltac:(lia)). intros [?|?]; nia.
  - rewrite Hp', (Z.rem_mul_r m0 (2 ^ (j - 1)) 2) by lia.
    pose proof (Z.mod_pos_bound m0 (2 ^ (j - 1)) ltac:(lia)).
    pose proof (Z.mod_pos_bound (m0 / 2 ^ (j - 1)) 2 ltac:(lia)). intros.
    destruct (Z.eq_dec (m0 mod 2 ^ (j - 1)) 0) as [Hz|Hnz]; [left|right; exact Hnz].
    assert ((m0 / 2 ^ (j - 1)) mod 2 = 0 \/ (m0 / 2 ^ (j - 1)) mod 2 = 1)
      as [Hc|Hc] by lia; rewrite Hc in *; lia.
Qed.

(** [k] shifts, [k] positive. *)
Lemma shifted_iter m0 k : 0 <= m0 ->
  shifted m0 (Z.pos k) (iter_pos shr_1 k (Build_shr_record m0 false false)).
Proof.
  intros Hm. rewrite iter_pos_iter.
  induction k as [|k IH] using Pos.peano_ind.
  - apply shifted_first; exact Hm.
  - rewrite Pos.iter_succ, Pos2Z.inj_succ. apply shifted_next; [exact Hm|lia|exact IH].
Qed.

(** Shifting, then rounding to nearest even: the digit [rne] names. *)
Lemma shr_round m0 e n : 0 <= m0 -> 0 <= n ->
  let '(mrs, e') := shr (Build_shr_record m0 false false) e n in
  round_nearest_even (shr_m mrs) (loc_of_shr_record mrs) = rne m0 (2 ^ n) /\
  e' = e + n.
Proof.
  intros Hm Hn. destruct n as [|k|k]; try lia; simpl shr.
  - unfold rne. simpl. rewrite Z.div_1_r, Z.mod_1_r. simpl. split; [reflexivity|lia].
  - split; [|reflexivity].
    destruct (shifted_iter m0 k Hm) as (Hq & Hr & Hs).
    destruct (iter_pos shr_1 k _) as [m r s].
    cbn [shr_m shr_r shr_s] in Hq, Hr, Hs |- *.
    assert (Hg : 0 < 2 ^ (Z.pos k - 1)) by (apply Z.pow_pos_nonneg; lia).
    assert (Hp : 2 ^ Z.pos k = 2 ^ (Z.pos k - 1) * 2).
    { replace (Z.pos k) with (Z.pos k - 1 + 1) at 1 by lia.
      rewrite Z.pow_add_r by lia. lia. }
    rewrite Hp, (Z.rem_mul_r m0 (2 ^ (Z.pos k - 1)) 2) in Hr by lia.
    pose proof (Z.mod_pos_bound m0 (2 ^ (Z.pos k - 1)) ltac:(lia)) as Hb.
    pose proof (Z.mod_pos_bound (m0 / 2 ^ (Z.pos k - 1)) 2 ltac:(lia)) as Hb2.
    unfold rne. rewrite <- Hq. cbv zeta.
    assert (Hrho : m0 mod 2 ^ Z.pos k = m0 mod 2 ^ (Z.pos k - 1) +
                   2 ^ (Z.pos k - 1) * ((m0 / 2 ^ (Z.pos k - 1)) mod 2)).
    { rewrite Hp at 1. apply Z.rem_mul_r; lia. }
    rewrite Hrho. rewrite Hp.
    set (g := 2 ^ (Z.pos k - 1)) in *. set (sg := m0 mod g) in *.
    set (c := (m0 / g) mod 2) in *.
    assert (Hc : c = 0 \/ c = 1) by lia.
    assert (Hr1 : r = true -> g <= sg + g * c) by apply Hr.
    assert (Hr2 : r = false -> ~ g <= sg + g * c).
    { intros -> Hx. apply Hr in Hx. discriminate. }
    assert (Hs1 : s = true -> sg <> 0) by apply Hs.
    assert (Hs2 : s = false -> sg = 0).
    { intros ->. destruct (Z.eq_dec sg 0) as [|Hnz]; [assumption|].
      apply Hs in Hnz. discriminate. }
    clear Hr Hs Hrho.
    destruct (Z.ltb_spec (g * 2) (2 * (sg + g * c)));
      destruct (Z.eqb_spec (g * 2) (2 * (sg + g * c)));
      destruct r, s; cbn [loc_of_shr_record round_nearest_even orb andb];
      try reflexivity;
      try (exfalso;
           repeat match goal with
                  | H : ?b = ?b -> _ |- _ => specialize (H eq_refl)
                  | H : true = false -> _ |- _ => clear H
                  | H : false = true -> _ |- _ => clear H
                  end;
           destruct Hc as [Hc|Hc]; rewrite Hc in *; lia).
    all: rewrite <- Z.negb_odd; destruct (Z.odd m); reflexivity.
Qed.

Lemma fexp_64 e : fexp prec emax e = Z.max (e - 53) (-1074).
Proof. reflexivity. Qed.

Lemma rne_cases v G : rne v G = v / G \/ rne v G = v / G + 1.
Proof. unfold rne. destruct (_ || _); auto. Qed.

Lemma rne_exact M G : 0 < G -> rne (M * G) G = M.
Proof.
  intros HG. unfold rne. rewrite Z.div_mul, Z.mod_mul by lia.
  replace (G <? 2 * 0) with false by (symmetry; apply Z.ltb_ge; lia).
  replace (G =? 2 * 0) with false by (symmetry; apply Z.eqb_neq; lia).
  reflexivity.
Qed.

(** The digit kept by a shift to the exponent [fexp] has at most 53 bits,
    so its rounding is at most [2^53]. *)
Lemma rne_range m e :
  0 < m ->
  let e' := fexp prec emax (Zdigits2 m + e) in
  e <= e' ->
  0 <= rne m (2 ^ (e' - e)) <= 2 ^ 53.
Proof.
  intros Hm e' He. pose proof (Zdigits2_bounds m Hm) as Hd.
  assert (Hk : Zdigits2 m - 53 <= e' - e) by (subst e'; rewrite fexp_64; lia).
  assert (HG : 0 < 2 ^ (e' - e)) by (apply Z.pow_pos_nonneg; lia).
  assert (0 <= m / 2 ^ (e' - e)) by (apply Z.div_pos; lia).
  assert (m / 2 ^ (e' - e) < 2 ^ 53).
  { apply Z.div_lt_upper_bound; [exact HG|].
    rewrite <- Z.pow_add_r by lia.
    eapply Z.lt_le_trans; [apply Hd|]. apply Z.pow_le_mono_r; lia. }
  destruct (rne_cases m (2 ^ (e' - e))) as [-> | ->]; lia.
Qed.

Lemma Zdigits2_le_53 M : 0 < M < 2 ^ 53 -> 0 < Zdigits2 M <= 53.
Proof.
  intros HM. pose proof (Zdigits2_bounds M ltac:(lia)) as Hd.
  assert (0 < Zdigits2 M) by (destruct M; simpl; lia).
  split; [assumption|].
  destruct (Z_le_gt_dec (Zdigits2 M) 53) as [|Hgt]; [assumption|].
  assert (2 ^ 53 <= 2 ^ (Zdigits2 M - 1)) by (apply Z.pow_le_mono_r; lia). lia.
Qed.

(** [binary_round_aux] on an exact positive input that needs no left
    shift. *)
Lemma binary_round_aux_exact sx m e :
  0 < m ->
  let e' := fexp prec emax (Zdigits2 m + e) in
  e <= e' ->
  let M' := rne m (2 ^ (e' - e)) in
  binary_round_aux prec emax sx m e loc_Exact =
    if M' =? 0 then S754_zero sx
    else if M' =? 2 ^ 53 then
      if e' + 1 <=? 971 then S754_finite sx (Z.to_pos (2 ^ 52)) (e' + 1)
      else S754_infinity sx
    else
      if e' <=? 971 then S754_finite sx (Z.to_pos M') e'
      else S754_infinity sx.
Proof.
  intros Hm e' He M'.
  pose proof (rne_range m e Hm He) as HM. fold e' in HM. fold M' in HM.
  assert (Hemin : -1074 <= e') by (subst e'; rewrite fexp_64; lia).
  unfold binary_round_aux, shr_fexp. fold e'.
  cbn [shr_record_of_loc].
  pose proof (shr_round m e (e' - e) ltac:(lia) ltac:(lia)) as Hshr.
  destruct (shr {| shr_m := m; shr_r := false; shr_s := false |} e (e' - e))
    as [mrs e1].
  destruct Hshr as [Hr He1]. rewrite Hr. fold M'.
  replace e1 with e' by lia. clear He1 Hr mrs e1.
  destruct (Z.eqb_spec M' 0) as [H0|H0].
  - rewrite H0. simpl Zdigits2. rewrite fexp_64.
    unfold shr. destruct (Z.max (0 + e' - 53) (-1074) - e') eqn:E; try lia; reflexivity.
  - destruct (Z.eqb_spec M' (2 ^ 53)) as [H53|H53].
    + rewrite H53. change (Zdigits2 (2 ^ 53)) with 54. rewrite fexp_64.
      replace (Z.max (54 + e' - 53) (-1074) - e') with 1 by lia.
      cbn -[Z.add Z.leb]. reflexivity.
    + pose proof (Zdigits2_le_53 M' ltac:(lia)) as HD. rewrite fexp_64.
      unfold shr.
      destruct (Z.max (Zdigits2 M' + e' - 53) (-1074) - e') eqn:E; try lia.
      * cbn [shr_m]. destruct M'; try lia. reflexivity.
      * cbn [shr_m]. destruct M'; try lia. reflexivity.
Qed.

Lemma Zdigits2_mul_pow2 m n : 0 < m -> 0 <= n ->
  Zdigits2 (m * 2 ^ n) = Zdigits2 m + n.
Proof.
  intros Hm Hn. pose proof (Zdigits2_bounds m Hm) as Hd.
  assert (0 < Zdigits2 m) by (destruct m; simpl; lia).
  assert (0 < 2 ^ n) by (apply Z.pow_pos_nonneg; lia).
  apply Zdigits2_unique; [lia|].
  replace (Zdigits2 m + n - 1) with (Zdigits2 m - 1 + n) by lia.
  rewrite !Z.pow_add_r by lia. nia.
Qed.

(** What validity says of a finite float. *)
Lemma valid_finite s m e :
  valid_binary (S754_finite s m e) = true ->
  fexp prec emax (Zdigits2 (Z.pos m) + e) = e /\ e <= 971 /\
  -1074 <= e /\ Z.pos m < 2 ^ 53.
Proof.
  cbn [valid_binary]. unfold bounded, canonical_mantissa.
  intros H. apply andb_true_iff in H as [Hc Hb].
  apply Z.eqb_eq in Hc. apply Z.leb_le in Hb.
  change (Z.pos (digits2_pos m)) with (Zdigits2 (Z.pos m)) in Hc.
  change (emax - prec) with 971 in Hb.
  split; [exact Hc|]. split; [exact Hb|].
  rewrite fexp_64 in Hc.
  pose proof (Zdigits2_bounds (Z.pos m) ltac:(lia)) as Hd.
  split; [lia|].
  eapply Z.lt_le_trans; [apply Hd|]. apply Z.pow_le_mono_r; lia.
Qed.

(** Multiplying by [1.0] changes no float. *)
Lemma mul_one_r (x : float) : (x * 1)%float = x.
Proof.
  apply Prim2SF_inj. rewrite mul_spec.
  change (Prim2SF 1) with (S754_finite false 4503599627370496 (-52)).
  pose proof (Prim2SF_valid x) as Hv.
  destruct (Prim2SF x) as [s|s| |s m e]; cbn [SF64mul SFmul];
    rewrite ?xorb_false_r; try reflexivity.
  apply valid_finite in Hv as (Hc & He & Hemin & Hm).
  change (Z.pos (m * 4503599627370496)) with (Z.pos m * 2 ^ 52).
  pose proof (binary_round_aux_exact s (Z.pos m * 2 ^ 52) (e + -52)
                ltac:(lia)) as Hbra.
  cbv zeta in Hbra.
  rewrite Zdigits2_mul_pow2 in Hbra by lia.
  replace (Zdigits2 (Z.pos m) + 52 + (e + -52)) with (Zdigits2 (Z.pos m) + e)
    in Hbra by lia.
  rewrite Hc in Hbra. specialize (Hbra ltac:(lia)).
  replace (e - (e + -52)) with 52 in Hbra by lia.
  rewrite rne_exact in Hbra by lia.
  rewrite Hbra.
  destruct (Z.eqb_spec (Z.pos m) 0); [lia|].
  destruct (Z.eqb_spec (Z.pos m) (2 ^ 53)); [lia|].
  destruct (Z.leb_spec e 971); [reflexivity|lia].
Qed.

(** ** Values *)

Lemma Zdigits2_log2 m : 0 < m -> Zdigits2 m = Z.log2 m + 1.
Proof.
  intros Hm. pose proof (Zdigits2_bounds m Hm) as Hd.
  assert (0 < Zdigits2 m) by (destruct m; simpl; lia).
  assert (Z.log2 m = Zdigits2 m - 1); [|lia].
  apply Z.log2_unique; [lia|].
  replace (Z.succ (Zdigits2 m - 1)) with (Zdigits2 m) by lia. exact Hd.
Qed.

Lemma rne_scale m G c : 0 < G -> 0 < c -> rne (m * c) (G * c) = rne m G.
Proof.
  intros HG Hc. unfold rne.
  rewrite Z.div_mul_cancel_r, Z.mul_mod_distr_r by lia.
  replace (G * c <? 2 * (m mod G * c)) with (G <? 2 * (m mod G)).
  2: { destruct (Z.ltb_spec G (2 * (m mod G)));
       symmetry; [apply Z.ltb_lt|apply Z.ltb_ge]; nia. }
  replace (G * c =? 2 * (m mod G * c)) with (G =? 2 * (m mod G)).
  2: { destruct (Z.eqb_spec G (2 * (m mod G)));
       symmetry; [apply Z.eqb_eq|apply Z.eqb_neq]; nia. }
  reflexivity.
Qed.

Lemma rne_mono v1 v2 G : 0 < G -> 0 <= v1 <= v2 -> rne v1 G <= rne v2 G.
Proof.
  intros HG Hv.
  assert (Hq : v1 / G <= v2 / G) by (apply Z.div_le_mono; lia).
  destruct (Z.eq_dec (v1 / G) (v2 / G)) as [Heq|Hne].
  - assert (Hr : v1 mod G <= v2 mod G).
    { rewrite !Z.mod_eq by lia. rewrite Heq. lia. }
    unfold rne. rewrite Heq.
    destruct (Z.ltb_spec G (2 * (v1 mod G))); destruct (Z.ltb_spec G (2 * (v2 mod G)));
      destruct (Z.eqb_spec G (2 * (v1 mod G))); destruct (Z.eqb_spec G (2 * (v2 mod G)));
      destruct (Z.odd (v2 / G)); cbn [orb andb]; lia.
  - destruct (rne_cases v1 G) as [-> | ->], (rne_cases v2 G) as [-> | ->]; lia.
Qed.

Lemma round64_zero : round64 0 = 0.
Proof. reflexivity. Qed.

(** The value of the mantissa-exponent pair [(m, e)], and the exponent of
    its unit in the last place. *)
Lemma log2_scaled m e : 0 < m -> 0 <= e + bias ->
  Z.log2 (m * 2 ^ (e + bias)) = Zdigits2 m - 1 + (e + bias).
Proof.
  intros Hm He. rewrite Zdigits2_log2 by exact Hm.
  rewrite Z.log2_mul_pow2 by lia. lia.
Qed.

Lemma round64_scaled m e : 0 < m -> - bias <= e ->
  let e' := fexp prec emax (Zdigits2 m + e) in
  e <= e' ->
  round64 (m * 2 ^ (e + bias)) = rne m (2 ^ (e' - e)) * 2 ^ (e' + bias).
Proof.
  intros Hm He e' Hee. unfold round64.
  rewrite log2_scaled by lia.
  replace (Z.max (Zdigits2 m - 1 + (e + bias) - 52) (bias - 1074))
    with (e' + bias) by (subst e'; rewrite fexp_64; lia).
  cbv zeta. f_equal.
  replace (e' + bias) with ((e' - e) + (e + bias)) by lia.
  rewrite (Z.pow_add_r 2 (e' - e) (e + bias)) by lia.
  apply rne_scale; apply Z.pow_pos_nonneg; lia.
Qed.

(** A representable value rounds to itself. *)
Lemma round64_representable s m e :
  valid_binary (S754_finite s m e) = true ->
  round64 (sfval (S754_finite s m e)) = sfval (S754_finite s m e).
Proof.
  intros Hv. apply valid_finite in Hv as (Hc & He & Hemin & Hm).
  cbn [sfval].
  rewrite (round64_scaled (Z.pos m) e) by (unfold bias; lia || (rewrite Hc; lia)).
  rewrite Hc. replace (e - e) with 0 by lia.
  change (2 ^ 0) with 1. unfold rne. rewrite Z.div_1_r, Z.mod_1_r. reflexivity.
Qed.

(** Rounding is monotone. *)
Lemma round64_mono v1 v2 : 0 <= v1 <= v2 -> round64 v1 <= round64 v2.
Proof.
  intros Hv. destruct (Z.eq_dec v1 0) as [->|Hnz].
  { rewrite round64_zero. unfold round64. cbv zeta.
    set (E := Z.max _ _).
    assert (0 < 2 ^ E) by (apply Z.pow_pos_nonneg; unfold E, bias; lia).
    assert (0 <= v2 / 2 ^ E) by (apply Z.div_pos; lia).
    destruct (rne_cases v2 (2 ^ E)) as [-> | ->]; nia. }
  assert (Hlog : Z.log2 v1 <= Z.log2 v2) by (apply Z.log2_le_mono; lia).
  unfold round64. cbv zeta.
  set (E1 := Z.max (Z.log2 v1 - 52) (bias - 1074)).
  set (E2 := Z.max (Z.log2 v2 - 52) (bias - 1074)).
  assert (HE : E1 <= E2) by (unfold E1, E2; lia).
  assert (HE1 : 0 <= E1) by (unfold E1, bias; lia).
  assert (HG1 : 0 < 2 ^ E1) by (apply Z.pow_pos_nonneg; lia).
  assert (HG2 : 0 < 2 ^ E2) by (apply Z.pow_pos_nonneg; lia).
  destruct (Z.eq_dec E1 E2) as [Heq|Hne].
  - rewrite <- Heq. apply Z.mul_le_mono_nonneg_r; [lia|].
    apply rne_mono; lia.
  - (* v1 sits in a lower binade than v2 *)
    assert (HE2 : E2 = Z.log2 v2 - 52) by (unfold E1, E2 in *; lia).
    pose proof (Z.log2_spec v1 ltac:(lia)) as [_ Hup1].
    pose proof (Z.log2_spec v2 ltac:(lia)) as [Hlo2 _].
    assert (H1 : rne v1 (2 ^ E1) <= 2 ^ 53).
    { assert (v1 / 2 ^ E1 < 2 ^ 53).
      { apply Z.div_lt_upper_bound; [lia|]. rewrite <- Z.pow_add_r by lia.
        eapply Z.lt_le_trans; [exact Hup1|]. apply Z.pow_le_mono_r; unfold E1; lia. }
      destruct (rne_cases v1 (2 ^ E1)) as [-> | ->]; lia. }
    assert (H2 : 2 ^ 52 <= rne v2 (2 ^ E2)).
    { assert (2 ^ 52 <= v2 / 2 ^ E2).
      { apply Z.div_le_lower_bound; [lia|]. rewrite <- Z.pow_add_r by lia.
        replace (E2 + 52) with (Z.log2 v2) by lia. exact Hlo2. }
      destruct (rne_cases v2 (2 ^ E2)) as [-> | ->]; lia. }
    apply Z.le_trans with (2 ^ 53 * 2 ^ E1);
      [apply Z.mul_le_mono_nonneg_r; lia|].
    apply Z.le_trans with (2 ^ 52 * 2 ^ E2);
      [|apply Z.mul_le_mono_nonneg_r; lia].
    rewrite <- !Z.pow_add_r by lia. apply Z.pow_le_mono_r; lia.
Qed.

(** In a normal binade the kept digit has its top bit set. *)
Lemma rne_normal m e :
  0 < m ->
  let e' := fexp prec emax (Zdigits2 m + e) in
  e <= e' -> -1074 < e' ->
  2 ^ 52 <= rne m (2 ^ (e' - e)).
Proof.
  intros Hm e' He Hn. pose proof (Zdigits2_bounds m Hm) as Hd.
  assert (Hk : e' - e = Zdigits2 m - 53) by (subst e'; rewrite fexp_64 in *; lia).
  rewrite Hk.
  assert (0 <= Zdigits2 m - 53) by lia.
  assert (HG : 0 < 2 ^ (Zdigits2 m - 53)) by (apply Z.pow_pos_nonneg; lia).
  assert (2 ^ 52 <= m / 2 ^ (Zdigits2 m - 53)).
  { apply Z.div_le_lower_bound; [exact HG|].
    rewrite <- Z.pow_add_r by lia.
    replace (Zdigits2 m - 53 + 52) with (Zdigits2 m - 1) by lia. apply Hd. }
  destruct (rne_cases m (2 ^ (Zdigits2 m - 53))) as [-> | ->]; lia.
Qed.

(** The value, class and validity of what [binary_round_aux] returns. *)
Lemma binary_round_aux_value m e :
  0 < m -> - bias <= e ->
  e <= fexp prec emax (Zdigits2 m + e) ->
  let r := binary_round_aux prec emax false m e loc_Exact in
  nonneg r = true /\
  sfval r = Z.min (round64 (m * 2 ^ (e + bias))) top /\
  valid_binary r = true.
Proof.
  intros Hm Hb He r. subst r.
  rewrite binary_round_aux_exact by assumption.
  rewrite round64_scaled by assumption.
  pose proof (rne_range m e Hm He) as HM.
  pose proof (rne_normal m e Hm He) as HN.
  cbv zeta in HM, HN.
  set (e' := fexp prec emax (Zdigits2 m + e)) in *.
  set (M' := rne m (2 ^ (e' - e))) in *.
  assert (Hemin : -1074 <= e') by (subst e'; rewrite fexp_64; lia).
  assert (HP : 0 < 2 ^ (e' + bias)) by (apply Z.pow_pos_nonneg; unfold bias; lia).
  unfold top.
  destruct (Z.eqb_spec M' 0) as [H0|H0].
  { rewrite H0. cbn [nonneg sfval valid_binary].
    assert (0 < 2 ^ (1024 + bias)) by (apply Z.pow_pos_nonneg; unfold bias; lia).
    repeat split; lia. }
  destruct (Z.eqb_spec M' (2 ^ 53)) as [H53|H53].
  { rewrite H53. rewrite <- Z.pow_add_r by (unfold bias; lia).
    destruct (Z.leb_spec (e' + 1) 971) as [Hle|Hgt].
    - cbn [nonneg sfval valid_binary]. split; [reflexivity|]. split.
      + change (Z.pos (Z.to_pos (2 ^ 52))) with (2 ^ 52).
        rewrite <- Z.pow_add_r by (unfold bias; lia).
        replace (52 + (e' + 1 + bias)) with (53 + (e' + bias)) by lia.
        assert (2 ^ (53 + (e' + bias)) < 2 ^ (1024 + bias))
          by (apply Z.pow_lt_mono_r; unfold bias; lia).
        lia.
      + unfold bounded, canonical_mantissa. apply andb_true_intro. split.
        * apply Z.eqb_eq. change (Z.pos (digits2_pos (Z.to_pos (2 ^ 52)))) with 53.
          rewrite fexp_64. lia.
        * apply Z.leb_le. change (emax - prec) with 971. lia.
    - cbn [nonneg sfval valid_binary]. split; [reflexivity|]. split; [|reflexivity].
      assert (2 ^ (1024 + bias) <= 2 ^ (53 + (e' + bias)))
        by (apply Z.pow_le_mono_r; unfold bias; lia).
      lia. }
  assert (HM' : 0 < M' < 2 ^ 53) by lia.
  pose proof (Zdigits2_le_53 M' HM') as HD.
  destruct (Z.leb_spec e' 971) as [Hle|Hgt].
  - cbn [nonneg sfval valid_binary]. rewrite Z2Pos.id by lia.
    split; [reflexivity|]. split.
    + assert (M' * 2 ^ (e' + bias) < 2 ^ 53 * 2 ^ (e' + bias))
        by (apply Z.mul_lt_mono_pos_r; lia).
      assert (2 ^ 53 * 2 ^ (e' + bias) <= 2 ^ (1024 + bias)).
      { rewrite <- Z.pow_add_r by (unfold bias; lia).
        apply Z.pow_le_mono_r; unfold bias; lia. }
      lia.
    + unfold bounded, canonical_mantissa. apply andb_true_intro. split.
      * apply Z.eqb_eq.
        change (Z.pos (digits2_pos (Z.to_pos M'))) with (Zdigits2 (Z.pos (Z.to_pos M'))).
        rewrite Z2Pos.id by lia. rewrite fexp_64.
        destruct (Z.eq_dec e' (-1074)) as [Hs|Hs]; [lia|].
        specialize (HN ltac:(lia)).
        rewrite (Zdigits2_unique M' 53) by lia. lia.
      * apply Z.leb_le. change (emax - prec) with 971. lia.
  - cbn [nonneg sfval valid_binary]. split; [reflexivity|]. split; [|reflexivity].
    specialize (HN ltac:(lia)).
    assert (2 ^ 52 * 2 ^ (e' + bias) <= M' * 2 ^ (e' + bias))
      by (apply Z.mul_le_mono_nonneg_r; lia).
    assert (2 ^ (1024 + bias) <= 2 ^ 52 * 2 ^ (e' + bias)).
    { rewrite <- Z.pow_add_r by (unfold bias; lia).
      apply Z.pow_le_mono_r; unfold bias; lia. }
    lia.
Qed.

(** ** Products *)

Lemma Zdigits2_mul_lower a b : 0 < a -> 0 < b ->
  Zdigits2 a + Zdigits2 b - 1 <= Zdigits2 (a * b).
Proof.
  intros Ha Hb.
  pose proof (Zdigits2_bounds a Ha) as Hda. pose proof (Zdigits2_bounds b Hb) as Hdb.
  pose proof (Zdigits2_bounds (a * b) ltac:(nia)) as Hd.
  assert (0 < Zdigits2 a) by (destruct a; simpl; lia).
  assert (0 < Zdigits2 b) by (destruct b; simpl; lia).
  assert (Hlo : 2 ^ (Zdigits2 a - 1 + (Zdigits2 b - 1)) <= a * b).
  { rewrite Z.pow_add_r by lia.
    apply Z.mul_le_mono_nonneg; try apply Z.pow_nonneg; lia. }
  destruct (Z_lt_le_dec (Zdigits2 (a * b)) (Zdigits2 a + Zdigits2 b - 1)) as [Hlt|]; [|lia].
  assert (2 ^ Zdigits2 (a * b) <= 2 ^ (Zdigits2 a - 1 + (Zdigits2 b - 1)))
    by (apply Z.pow_le_mono_r; lia).
  lia.
Qed.

(** The product of two floats that are zero or positive and finite. *)
Lemma SFmul_fin x y :
  fin x = true -> fin y = true ->
  valid_binary x = true -> valid_binary y = true ->
  nonneg (SF64mul x y) = true /\
  sfval (SF64mul x y) = Z.min (round64 (pv x y)) top.
Proof.
  assert (Htop : 0 < top) by (apply Z.pow_pos_nonneg; unfold bias; lia).
  intros Hx Hy Vx Vy.
  unfold SF64mul.
  destruct x as [sx|sx| |sx mx ex]; try discriminate;
    destruct y as [sy|sy| |sy my ey]; try discriminate;
    try (cbn [SFmul pv nonneg sfval]; rewrite round64_zero;
         split; [reflexivity|symmetry; apply Z.min_l; lia]).
  destruct sx, sy; try discriminate.
  cbn [SFmul xorb pv].
  apply valid_finite in Vx as (Hcx & _ & Hex & _).
  apply valid_finite in Vy as (Hcy & _ & Hey & _).
  pose proof (Zdigits2_mul_lower (Z.pos mx) (Z.pos my) ltac:(lia) ltac:(lia)) as Hd.
  assert (0 < Zdigits2 (Z.pos mx)) by (simpl; lia).
  assert (0 < Zdigits2 (Z.pos my)) by (simpl; lia).
  rewrite fexp_64 in Hcx, Hcy.
  change (Z.pos (mx * my)) with (Z.pos mx * Z.pos my).
  assert (H1 : 0 < Z.pos mx * Z.pos my) by lia.
  assert (H2 : - bias <= ex + ey) by (unfold bias; lia).
  assert (H3 : ex + ey <= fexp prec emax (Zdigits2 (Z.pos mx * Z.pos my) + (ex + ey)))
    by (rewrite fexp_64; lia).
  destruct (binary_round_aux_value _ _ H1 H2 H3) as (Hn & Hval & _).
  split; [exact Hn|exact Hval].
Qed.

Lemma pv_nonneg x y : 0 <= pv x y.
Proof.
  destruct x, y; cbn [pv];
    first [lia | apply Z.mul_nonneg_nonneg; [lia|apply Z.pow_nonneg; lia]].
Qed.

(** The product grows with its first factor. *)
Lemma pv_mono x y c :
  fin x = true -> fin y = true ->
  valid_binary x = true -> valid_binary y = true -> valid_binary c = true ->
  sfval x <= sfval y -> pv x c <= pv y c.
Proof.
  intros Hx Hy Vx Vy Vc Hle.
  destruct c as [sc|sc| |sc mc ec];
    try (destruct x, y; cbn [pv]; lia).
  destruct x as [sx|sx| |sx mx ex]; try discriminate;
    try (cbn [pv]; apply (pv_nonneg y (S754_finite sc mc ec))).
  apply valid_finite in Vx as (_ & _ & Hex & _).
  apply valid_finite in Vc as (_ & _ & Hec & _).
  assert (0 < 2 ^ (ex + bias)) by (apply Z.pow_pos_nonneg; unfold bias; lia).
  destruct y as [sy|sy| |sy my ey]; try discriminate;
    cbn [sfval] in Hle; try lia.
  apply valid_finite in Vy as (_ & _ & Hey & _).
  cbn [pv].
  replace (ex + ec + bias) with ((ex + bias) + (ec + 1074) - 1074) by lia.
  replace (ey + ec + bias) with ((ey + bias) + (ec + 1074) - 1074) by lia.
  assert (Hsplit : forall a, 1074 <= a -> 2 ^ a = 2 ^ (a - 1074) * 2 ^ 1074).
  { intros a Ha. rewrite <- Z.pow_add_r by lia. f_equal. lia. }
  rewrite (Hsplit (ex + bias)), (Hsplit (ey + bias)) in Hle by (unfold bias; lia).
  replace (ex + bias + (ec + 1074) - 1074) with ((ex + bias - 1074) + (ec + 1074)) by lia.
  replace (ey + bias + (ec + 1074) - 1074) with ((ey + bias - 1074) + (ec + 1074)) by lia.
  rewrite (Z.pow_add_r 2 (ex + bias - 1074) (ec + 1074)) by (unfold bias; lia).
  rewrite (Z.pow_add_r 2 (ey + bias - 1074) (ec + 1074)) by (unfold bias; lia).
  assert (0 < 2 ^ (ec + 1074)) by (apply Z.pow_pos_nonneg; lia).
  assert (0 < 2 ^ 1074) by (apply Z.pow_pos_nonneg; lia).
  assert (0 < 2 ^ (ex + bias - 1074)) by (apply Z.pow_pos_nonneg; unfold bias; lia).
  assert (0 < 2 ^ (ey + bias - 1074)) by (apply Z.pow_pos_nonneg; unfold bias; lia).
  set (a := 2 ^ (ex + bias - 1074)) in *. set (b := 2 ^ (ey + bias - 1074)) in *.
  set (k := 2 ^ (ec + 1074)) in *. set (t := 2 ^ 1074) in *.
  assert (Hab : Z.pos mx * a <= Z.pos my * b) by nia.
  replace (Z.pos mx * Z.pos mc * (a * k)) with (Z.pos mx * a * (Z.pos mc * k)) by ring.
  replace (Z.pos my * Z.pos mc * (b * k)) with (Z.pos my * b * (Z.pos mc * k)) by ring.
  apply Z.mul_le_mono_nonneg_r; [nia|exact Hab].
Qed.

(** Multiplying by a factor that is at most one does not go beyond the
    other factor. *)
Lemma pv_le_one x j :
  fin x = true -> valid_binary x = true -> valid_binary j = true ->
  le_one j = true -> pv x j <= sfval x.
Proof.
  intros Hx Vx Vj Hj.
  destruct x as [sx|sx| |sx mx ex]; try discriminate Hx; [cbn [pv sfval]; lia|].
  apply valid_finite in Vx as (_ & _ & Hex & _).
  destruct j as [sj|sj| |[] mj ej]; try discriminate Hj.
  { cbn [pv sfval]. apply Z.mul_nonneg_nonneg; [lia|apply Z.pow_nonneg; lia]. }
  apply valid_finite in Vj as (_ & _ & Hej & _).
  cbn [le_one] in Hj. apply andb_true_iff in Hj as [Hj1 Hj2].
  apply Z.leb_le in Hj1, Hj2.
  cbn [pv sfval].
  replace (ex + bias) with ((ex + ej + bias) + (- ej)) by lia.
  rewrite (Z.pow_add_r 2 (ex + ej + bias) (- ej)) by (unfold bias; lia).
  assert (0 < 2 ^ (ex + ej + bias)) by (apply Z.pow_pos_nonneg; unfold bias; lia).
  set (p := 2 ^ (ex + ej + bias)) in *.
  replace (Z.pos mx * Z.pos mj * p) with (Z.pos mx * p * Z.pos mj) by ring.
  replace (Z.pos mx * (p * 2 ^ (- ej))) with (Z.pos mx * p * 2 ^ (- ej)) by ring.
  apply Z.mul_le_mono_nonneg_l; [nia|exact Hj2].
Qed.

(** ** Conversions *)

Lemma sfval_nonneg f : 0 <= sfval f.
Proof.
  destruct f; cbn [sfval];
    first [ lia | apply Z.pow_nonneg; lia
          | apply Z.mul_nonneg_nonneg; [lia|apply Z.pow_nonneg; lia] ].
Qed.

Lemma top_pos : 0 < top.
Proof. apply Z.pow_pos_nonneg; unfold bias; lia. Qed.

Lemma fin_below_top f :
  fin f = true -> valid_binary f = true -> sfval f < top.
Proof.
  intros Hf Hv. pose proof top_pos.
  destruct f as [s|s| |s m e]; try discriminate Hf; [cbn [sfval]; lia|].
  apply valid_finite in Hv as (_ & He & Hemin & Hm). cbn [sfval]. unfold top.
  assert (0 < 2 ^ (e + bias)) by (apply Z.pow_pos_nonneg; unfold bias; lia).
  assert (Z.pos m * 2 ^ (e + bias) < 2 ^ 53 * 2 ^ (e + bias))
    by (apply Z.mul_lt_mono_pos_r; lia).
  assert (2 ^ 53 * 2 ^ (e + bias) <= 2 ^ (1024 + bias)).
  { rewrite <- Z.pow_add_r by (unfold bias; lia).
    apply Z.pow_le_mono_r; unfold bias; lia. }
  lia.
Qed.

Lemma nonneg_below_top f :
  nonneg f = true -> sfval f < top -> fin f = true.
Proof.
  destruct f as [s|[]| |[] m e]; intros Hn Hlt; try discriminate Hn;
    try reflexivity.
  cbn [sfval] in Hlt. unfold top in Hlt. lia.
Qed.

Lemma le_one_fin f : le_one f = true -> fin f = true.
Proof. destruct f as [s|s| |[] m e]; intros H; try discriminate H; reflexivity. Qed.

(** [int(f)] of a float that is zero or positive and finite. *)
Lemma to_int_fin f :
  fin (Prim2SF f) = true ->
  PyFloat.to_int f = Ok (sfval (Prim2SF f) / 2 ^ bias).
Proof.
  intros Hf. unfold PyFloat.to_int. pose proof (Prim2SF_valid f) as Hv.
  destruct (Prim2SF f) as [s|s| |s m e]; try discriminate Hf.
  - reflexivity.
  - destruct s; [discriminate Hf|].
    apply valid_finite in Hv as (_ & _ & Hemin & _).
    cbn [cond_Zopp sfval]. f_equal.
    destruct (Z_le_gt_dec 0 e) as [He|He].
    + rewrite Z.shiftl_mul_pow2 by lia.
      rewrite (Z.add_comm e bias), Z.pow_add_r by (unfold bias; lia).
      rewrite (Z.mul_comm (2 ^ bias)), Z.mul_assoc.
      rewrite Z.div_mul by (apply Z.pow_nonzero; unfold bias; lia). reflexivity.
    + rewrite Z.shiftl_div_pow2 by lia.
      replace bias with ((- e) + (e + bias)) at 2 by lia.
      rewrite (Z.pow_add_r 2 (- e) (e + bias)) by (unfold bias; lia).
      rewrite Z.div_mul_cancel_r; [reflexivity| |];
        apply Z.pow_nonzero; unfold bias; lia.
Qed.

(** When [int(f)] exists and [f] is not negative, [f] is finite. *)
Lemma to_int_Ok_fin f n :
  nonneg (Prim2SF f) = true -> PyFloat.to_int f = Ok n -> fin (Prim2SF f) = true.
Proof.
  unfold PyFloat.to_int.
  destruct (Prim2SF f) as [s|[]| |[] m e]; intros Hn H;
    try discriminate Hn; try discriminate H; reflexivity.
Qed.

(** A float that compares [>= 0] is not negative and not NaN. *)
Lemma leb_zero_nonneg x : (0 <=? x)%float = true -> nonneg (Prim2SF x) = true.
Proof.
  rewrite leb_spec. change (Prim2SF 0) with (S754_zero false).
  destruct (Prim2SF x) as [s|[]| |[] m e]; cbn; intros H;
    try discriminate H; reflexivity.
Qed.

Lemma pos_iter_xO p d : Z.pos (Pos.iter xO p d) = Z.pos p * 2 ^ Z.pos d.
Proof.
  induction d as [|d IH] using Pos.peano_ind.
  - simpl. lia.
  - rewrite Pos.iter_succ, Pos2Z.inj_xO, IH, Pos2Z.inj_succ, Z.pow_succ_r by lia. lia.
Qed.

(** [float(z)] of an integer that is not negative. *)
Lemma of_int_fin z c :
  0 <= z -> PyFloat.of_int z = Ok c -> fin (Prim2SF c) = true.
Proof.
  intros Hz. unfold PyFloat.of_int.
  set (bn := binary_normalize prec emax z 0 false).
  assert (Hbn : nonneg bn = true /\ valid_binary bn = true).
  { subst bn. destruct z as [|p|p]; try lia; [split; reflexivity|].
    cbn [binary_normalize]. unfold binary_round.
    pose proof (Zdigits2_bounds (Z.pos p) ltac:(lia)) as Hd.
    change (Z.pos (digits2_pos p)) with (Zdigits2 (Z.pos p)).
    set (e' := fexp prec emax (Zdigits2 (Z.pos p) + 0)).
    assert (He' : e' = Z.max (Zdigits2 (Z.pos p) - 53) (-1074))
      by (subst e'; rewrite fexp_64; f_equal; lia).
    assert (Hb : - bias <= 0) by (unfold bias; lia).
    unfold shl_align. destruct (e' - 0) as [|q|q] eqn:Hq.
    - assert (H3 : 0 <= fexp prec emax (Zdigits2 (Z.pos p) + 0)) by (fold e'; lia).
      destruct (binary_round_aux_value (Z.pos p) 0 ltac:(lia) Hb H3) as (Hn & _ & Hv).
      split; assumption.
    - assert (H3 : 0 <= fexp prec emax (Zdigits2 (Z.pos p) + 0)) by (fold e'; lia).
      destruct (binary_round_aux_value (Z.pos p) 0 ltac:(lia) Hb H3) as (Hn & _ & Hv).
      split; assumption.
    - assert (Hb' : - bias <= e') by (unfold bias; lia).
      assert (H3 : e' <= fexp prec emax (Zdigits2 (Z.pos (Pos.iter xO p q)) + e')).
      { rewrite pos_iter_xO, Zdigits2_mul_pow2 by lia. rewrite fexp_64.
        assert (0 < Zdigits2 (Z.pos p)) by (simpl; lia). lia. }
      destruct (binary_round_aux_value (Z.pos (Pos.iter xO p q)) e' ltac:(lia) Hb' H3)
        as (Hn & _ & Hv).
      split; assumption. }
  destruct Hbn as [Hn Hv].
  unfold PyFloat.is_finite.
  pose proof (Prim2SF_SF2Prim bn Hv) as Hf.
  set (f := SF2Prim bn) in *. rewrite Hf.
  destruct bn as [s|[]| |[] m e]; intros H; try discriminate Hn;
    try discriminate H; injection H as <-; rewrite Hf; reflexivity.
Qed.

(** ** The slippage adjustment and the minimum output *)

(** The embedding of Python's arithmetic on the values CPython prints:
    [(7/100).hex()], [(1 - 7/100).hex()], [float(10**23).hex()] and
    [int(0.5 * 1e9)]. *)
Example python_arithmetic_samples :
  PyFloat.int_truediv 7 100 = Ok 0x1.1eb851eb851ecp-4%float /\
  slippage_adjustment 7 = Ok 0x1.dc28f5c28f5c2p-1%float /\
  PyFloat.of_int (10 ^ 23) = Ok 0x1.52d02c7e14af6p+76%float /\
  PyFloat.to_int (0.5 * 1e9) = Ok 500000000.
Proof. vm_compute. auto. Qed.

(** For a whole percentage between 0 and 100, [1 - slippage / 100] is a
    float between zero and one: checked value by value. *)
Lemma adjustment_table :
  forallb adjustment_le_one (map Z.of_nat (seq 0 101)) = true.
Proof. vm_compute. reflexivity. Qed.

Lemma slippage_adjustment_le_one slippage :
  0 <= slippage <= 100 ->
  exists j, slippage_adjustment slippage = Ok j /\ le_one (Prim2SF j) = true.
Proof.
  intros Hs.
  assert (Hin : In slippage (map Z.of_nat (seq 0 101))).
  { apply in_map_iff. exists (Z.to_nat slippage). split; [lia|].
    apply in_seq. lia. }
  pose proof (proj1 (forallb_forall _ _) adjustment_table slippage Hin) as Hok.
  unfold adjustment_le_one in Hok.
  destruct (slippage_adjustment slippage) as [j|e]; [|discriminate Hok].
  exists j. split; [reflexivity|exact Hok].
Qed.

Lemma slippage_adjustment_zero : slippage_adjustment 0 = Ok 1%float.
Proof. vm_compute. reflexivity. Qed.

(** The heart of the matter: scaling after an adjustment that is at most
    one truncates to no more than scaling without it. *)
Lemma adjusted_scaled_le (a j c : float) estimate :
  nonneg (Prim2SF a) = true ->
  le_one (Prim2SF j) = true ->
  nonneg (Prim2SF c) = true ->
  PyFloat.to_int (a * c) = Ok estimate ->
  exists m, PyFloat.to_int (a * j * c) = Ok m /\ 0 <= m <= estimate.
Proof.
  intros Ha Hj Hc Hest.
  pose proof (Prim2SF_valid a) as Va. pose proof (Prim2SF_valid j) as Vj.
  pose proof (Prim2SF_valid c) as Vc. pose proof (Prim2SF_valid (a * j)) as Vy.
  pose proof top_pos as Htop.
  assert (Hbias : 0 < 2 ^ bias) by (apply Z.pow_pos_nonneg; unfold bias; lia).
  (* the estimate exists: both factors are finite *)
  assert (Hfin : fin (Prim2SF a) = true /\ fin (Prim2SF c) = true).
  { unfold PyFloat.to_int in Hest. rewrite mul_spec in Hest.
    destruct (Prim2SF a) as [sa|[]| |[] ma ea]; try discriminate Ha;
      destruct (Prim2SF c) as [sc|[]| |[] mc ec]; try discriminate Hc;
      try discriminate Hest; split; reflexivity. }
  destruct Hfin as [Fa Fc].
  destruct (SFmul_fin _ _ Fa Fc Va Vc) as (Nac & Vac).
  rewrite <- mul_spec in Nac, Vac.
  pose proof (to_int_Ok_fin _ _ Nac Hest) as Fac.
  rewrite (to_int_fin _ Fac) in Hest. injection Hest as <-.
  pose proof (fin_below_top _ Fac (Prim2SF_valid _)) as Lac.
  (* the adjusted amount is finite and not above the amount *)
  destruct (SFmul_fin _ _ Fa (le_one_fin _ Hj) Va Vj) as (Ny & Vaj).
  rewrite <- mul_spec in Ny, Vaj.
  assert (Hy : sfval (Prim2SF (a * j)) <= sfval (Prim2SF a)).
  { rewrite Vaj. 
    assert (round64 (pv (Prim2SF a) (Prim2SF j)) <= sfval (Prim2SF a)); [|lia].
    destruct (Prim2SF a) as [sa| | |sa ma ea] eqn:Ea; try discriminate Fa.
    - cbn [pv sfval]. rewrite round64_zero. lia.
    - rewrite <- (round64_representable sa ma ea Va).
      apply round64_mono. split; [apply pv_nonneg|].
      apply pv_le_one; assumption. }
  assert (Fy : fin (Prim2SF (a * j)) = true).
  { apply nonneg_below_top; [exact Ny|].
    pose proof (fin_below_top _ Fa Va). lia. }
  (* scaling keeps the order *)
  destruct (SFmul_fin _ _ Fy Fc Vy Vc) as (Nyc & Vyc).
  rewrite <- mul_spec in Nyc, Vyc.
  assert (Hle : sfval (Prim2SF (a * j * c)) <= sfval (Prim2SF (a * c))).
  { rewrite Vyc, Vac.
    assert (round64 (pv (Prim2SF (a * j)) (Prim2SF c))
            <= round64 (pv (Prim2SF a) (Prim2SF c))); [|lia].
    apply round64_mono. split; [apply pv_nonneg|].
    apply pv_mono; assumption. }
  assert (Fyc : fin (Prim2SF (a * j * c)) = true).
  { apply nonneg_below_top; [exact Nyc|lia]. }
  rewrite (to_int_fin _ Fyc). eexists. split; [reflexivity|]. split.
  - apply Z.div_pos; [apply sfval_nonneg|exact Hbias].
  - apply Z.div_le_mono; [exact Hbias|exact Hle].
Qed.

Lemma fin_nonneg f : fin f = true -> nonneg f = true.
Proof. destruct f as [s|s| |[] m e]; intros H; try discriminate H; reflexivity. Qed.

(** C7, as stated, fails: one token at two decimals (an estimate of 100
    smallest units) with 34 percent slippage gives 65, where
    [floor(100 * (1 - 34/100))] is 66; one SOL (an estimate of
    1_000_000_000 lamports) with 7 percent gives 929_999_999, not
    930_000_000.  [1 - 34/100] and [1 - 7/100] are not binary64 numbers,
    and the products are truncated after rounding. *)
Lemma minimum_amount_out_not_floor :
  (buy_amount_out_estimate 1 2 = Ok 100 /\
   buy_minimum_amount_out 1 34 2 = Ok 65 /\
   spec_minimum_amount_out 100 34 = 66) /\
  (sell_amount_out_estimate Sample.constants 1 = Ok 1000000000 /\
   sell_minimum_amount_out Sample.constants 1 7 = Ok 929999999 /\
   spec_minimum_amount_out 1000000000 7 = 930000000).
Proof. vm_compute. auto 10. Qed.

(** C7, amended.  For a slippage between 0 and 100 percent and an amount
    that is not negative: whenever the estimate in smallest units exists
    (the scaled amount is finite), the minimum output exists, is not
    negative, is at most the estimate, and is the estimate when the
    slippage is zero.  This holds on the buy path, and on the sell path
    for a [SOL_DECIMAL] that is not negative. *)
Theorem minimum_amount_out_within_estimate
    K (amount_out : float) (slippage : Z) (token_decimal : N) :
  0 <= slippage <= 100 ->
  (0 <=? amount_out)%float = true ->
  (forall estimate,
     buy_amount_out_estimate amount_out token_decimal = Ok estimate ->
     exists minimum_amount_out,
       buy_minimum_amount_out amount_out slippage token_decimal
         = Ok minimum_amount_out /\
       0 <= minimum_amount_out <= estimate /\
       (slippage = 0 -> minimum_amount_out = estimate)) /\
  ((0 <=? SOL_DECIMAL K)%float = true ->
   forall estimate,
     sell_amount_out_estimate K amount_out = Ok estimate ->
     exists minimum_amount_out,
       sell_minimum_amount_out K amount_out slippage = Ok minimum_amount_out /\
       0 <= minimum_amount_out <= estimate /\
       (slippage = 0 -> minimum_amount_out = estimate)).
Proof.
  intros Hs Ha. apply leb_zero_nonneg in Ha.
  destruct (slippage_adjustment_le_one slippage Hs) as (j & Hj & Hj1).
  split.
  - intros estimate Hest.
    unfold buy_amount_out_estimate, buy_minimum_amount_out, PyFloat.mul_int in *.
    rewrite Hj. cbn [mbind result_bind] in *.
    destruct (PyFloat.of_int (10 ^ Z.of_N token_decimal)) as [c|e] eqn:Hc;
      [|discriminate Hest].
    cbn [mbind result_bind] in *.
    assert (Fc : fin (Prim2SF c) = true).
    { apply (of_int_fin _ _ (Z.pow_nonneg 10 _ ltac:(lia)) Hc). }
    destruct (adjusted_scaled_le amount_out j c estimate Ha Hj1 (fin_nonneg _ Fc) Hest)
      as (m & Hm & Hle).
    exists m. split; [exact Hm|]. split; [exact Hle|].
    intros ->. rewrite slippage_adjustment_zero in Hj. injection Hj as <-.
    rewrite mul_one_r in Hm. congruence.
  - intros HK estimate Hest. apply leb_zero_nonneg in HK.
    unfold sell_amount_out_estimate, sell_minimum_amount_out in *.
    rewrite Hj. cbn [mbind result_bind] in *.
    destruct (adjusted_scaled_le amount_out j (SOL_DECIMAL K) estimate Ha Hj1 HK Hest)
      as (m & Hm & Hle).
    exists m. split; [exact Hm|]. split; [exact Hle|].
    intros ->. rewrite slippage_adjustment_zero in Hj. injection Hj as <-.
    rewrite mul_one_r in Hm. congruence.
Qed.

(** The amended statement at the inputs of the counterexample. *)
Lemma minimum_amount_out_within_estimate_witness :
  (exists minimum_amount_out,
     buy_minimum_amount_out 1 34 2 = Ok minimum_amount_out /\
     0 <= minimum_amount_out <= 100 /\
     (34 = 0 -> minimum_amount_out = 100)) /\
  (exists minimum_amount_out,
     sell_minimum_amount_out Sample.constants 1 34 = Ok minimum_amount_out /\
     0 <= minimum_amount_out <= 1000000000 /\
     (34 = 0 -> minimum_amount_out = 1000000000)).
Proof.
  destruct (minimum_amount_out_within_estimate Sample.constants 1 34 2)
    as [Hbuy Hsell]; [lia | reflexivity |].
  split; [apply Hbuy | apply Hsell]; reflexivity.
Defined.

(* ===================================================================== *)
(** * Seeds and ephemeral accounts *)
(* ===================================================================== *)

(** The encoder on two byte strings, against CPython's
    [base64.urlsafe_b64encode]. *)
Example urlsafe_b64encode_samples :
  urlsafe_b64encode [x00; x01; x02; xff; xfe] = "AAEC__4="%string /\
  urlsafe_b64encode [xfb; xff; xbf; x00] = "-_-_AA=="%string.
Proof. split; reflexivity. Qed.



Lemma byte_val_range b : 0 <= byte_val b < 256.
Proof.
  unfold byte_val. pose proof (Byte.to_N_bounded b). lia.
Qed.


(** Induction three bytes at a time. *)
Lemma list_ind3 {A} (P : list A -> Prop) :
  P [] -> (forall a, P [a]) -> (forall a b, P [a; b]) ->
  (forall a b c l, P l -> P (a :: b :: c :: l)) ->
  forall l, P l.
Proof.
  intros H0 H1 H2 H3.
  assert (H : forall l, P l /\ (forall a, P (a :: l)) /\ (forall a b, P (a :: b :: l))).
  { induction l as [|x l (IH0 & IH1 & IH2)]; [auto|].
    split; [apply IH1|]. split; [intros a; apply IH2|].
    intros a b. apply H3, IH0. }
  intros l. apply H.
Qed.






(** The ephemeral account of an assembled bundle is the address derived
    from the wallet and the seed, and the seed is the encoding of the 24
    bytes the run drew. *)
Lemma assembled_ephemeral_account K w agent ixs :
  assembles K w agent ixs ->
  exists account,
    create_with_seed w (kp_pubkey (wallet agent))
      (urlsafe_b64encode (random_bytes w 24)) (TOKEN_PROGRAM_ID K) = Ok account /\
    seeds ixs = [urlsafe_b64encode (random_bytes w 24)] /\
    ephemeral_accounts ixs = [account].
Proof.
  intros [(pair_address & sol_in & slippage & Hin)
         |(pair_address & percentage & slippage & Hin)].
  - apply buy_bundle_inv in Hin
      as (pk & ai & rs & ao & mo & accs & ws & bn & _ & _ & _ & _ & _ & _ & Hws & _ & ->).
    exists ws. split; [exact Hws|]. destruct accs; split; reflexivity.
  - apply sell_bundle_inv in Hin
      as (pk & tb & sh & rs & ao & mo & ai & ws & bn & _ & _ & _ & _ & _ & _ & _ & _ & Hws & _ & ->).
    exists ws. split; [exact Hws|]. destruct (percentage =? 100); split; reflexivity.
Qed.

Lemma random_bytes_length w n : List.length (random_bytes w n) = n.
Proof. unfold random_bytes. rewrite length_map. apply length_seq. Qed.






(* ===================================================================== *)
(** * The event bus *)
(* ===================================================================== *)

Section EventBusFacts.
Import EventBus.
Context {S : Type}.
Variable call_object : PyObject -> Event -> S -> S * Event * result unit.
Variable str_of_exn : exn -> result string.

Abbreviation turn := (turn call_object str_of_exn).
Abbreviation deliver := (deliver call_object str_of_exn).
Abbreviation effects := (effects call_object).
Abbreviation contained := (contained call_object str_of_exn).
Abbreviation escaped := (escaped call_object str_of_exn).

(** One turn of the loop of [publish]: the handler is called with the
    event as it is; the turn ends normally when the handler returns and
    when it raises an [Exception] that can be printed, and ends with an
    exception otherwise. *)
Lemma turn_runs event_name handler st :
  turn event_name handler st
  = let '(s1, event1, r) := call_object handler st.2 st.1 in
    match r with
    | Ok _ => ([Invoked handler st.2], (s1, event1), Ok tt)
    | Raise e =>
        if is_Exception e then
          match str_of_exn e with
          | Ok _ => ([Invoked handler st.2; Printed event_name e],
                     (s1, event1), Ok tt)
          | Raise e' => ([Invoked handler st.2], (s1, event1), Raise e')
          end
        else ([Invoked handler st.2], (s1, event1), Raise e)
    end.
Proof.
  unfold EventBus.turn, btry, invoke, print_error.
  destruct (call_object handler st.2 st.1) as [[s1 event1] [[]|e]];
    [reflexivity|].
  destruct (is_Exception e); [|reflexivity].
  destruct (str_of_exn e); [|rewrite app_nil_r]; reflexivity.
Qed.

(** A turn calls its handler, once, and leaves what that call leaves. *)
Lemma turn_effect event_name handler st :
  let '(log, st', r) := turn event_name handler st in
  invocations log = [(handler, st.2)] /\
  st' = (call_object handler st.2 st.1).1 /\
  (forall e, r = Raise e -> escaped handler st.2 e) /\
  (forall u, r = Ok u ->
     log = Invoked handler st.2 ::
           match (call_object handler st.2 st.1).2 with
           | Ok _ => []
           | Raise e => [Printed event_name e]
           end) /\
  (contained handler -> exists u, r = Ok u /\ st'.2 = st.2).
Proof.
  rewrite turn_runs. unfold EventBus.escaped, EventBus.contained.
  destruct (call_object handler st.2 st.1) as [[s1 event1] r] eqn:Hcall.
  destruct r as [[]|e]; simpl.
  - repeat split; try discriminate.
    intros Hc. specialize (Hc st.2 st.1). rewrite Hcall in Hc.
    exists tt. split; [reflexivity|apply Hc].
  - destruct (is_Exception e) eqn:He.
    + destruct (str_of_exn e) as [line|e'] eqn:Hs; simpl.
      * repeat split; try discriminate.
        intros Hc. specialize (Hc st.2 st.1). rewrite Hcall in Hc.
        exists tt. split; [reflexivity|apply Hc].
      * repeat split; try discriminate.
        -- intros e1 [= <-]. exists st.1, e. rewrite Hcall.
           split; [reflexivity|]. right. auto.
        -- intros Hc. specialize (Hc st.2 st.1). rewrite Hcall in Hc.
           simpl in Hc. destruct Hc as (_ & _ & line & Hl). congruence.
    + repeat split; try discriminate.
      * intros e1 [= <-]. exists st.1, e. rewrite Hcall.
        split; [reflexivity|]. left. auto.
      * intros Hc. specialize (Hc st.2 st.1). rewrite Hcall in Hc.
        simpl in Hc. destruct Hc as (_ & Hx & _). congruence.
Qed.

Lemma invocations_app l l' :
  invocations (l ++ l') = invocations l ++ invocations l'.
Proof. apply omap_app. Qed.


(** The loop of [publish] over any list of handlers calls a first part
    of the list, in order, beginning with the event it was given, and
    leaves what those calls leave; it has called the whole list when it
    ends normally; when it ends with an exception, the handler called
    last raised it, or raised one that could not be printed. *)
Lemma deliver_calls event_name handlers st :
  let '(log, st', r) := deliver event_name handlers st in
  (invocations log).*1 `prefix_of` handlers /\
  st' = effects (invocations log).*1 st /\
  (forall handler event, hd_error (invocations log) = Some (handler, event) ->
                         event = st.2) /\
  (forall u, r = Ok u -> (invocations log).*1 = handlers) /\
  (forall e, r = Raise e ->
     exists handler event,
       last (invocations log) = Some (handler, event) /\
       escaped handler event e).
Proof.
  unfold EventBus.deliver.
  revert st. induction handlers as [|h rest IH]; intros st.
  - cbn [for_each]. unfold bret. cbn.
    repeat split; try discriminate. apply prefix_nil.
  - cbn [for_each]. unfold bbind.
    pose proof (turn_effect event_name h st) as Hturn.
    destruct (turn event_name h st) as [[l st1] r1].
    destruct Hturn as (Hinv & Hst & Hesc & _ & _).
    destruct r1 as [[]|e1].
    + specialize (IH st1).
      destruct (for_each rest _ st1) as [[l' st2] r'].
      destruct IH as (Hpre & Hst' & _ & Hall & Hraise).
      rewrite invocations_app, Hinv. cbn [app fmap list_fmap fst].
      split; [apply prefix_cons, Hpre|].
      split.
      { rewrite Hst'. unfold EventBus.effects. cbn [foldl]. rewrite <- Hst.
        reflexivity. }
      split; [intros handler event [= _ <-]; reflexivity|].
      split; [intros u Hu; f_equal; apply (Hall u Hu)|].
      intros e He. destruct (Hraise e He) as (h' & ev' & Hlast & Hesc').
      exists h', ev'. split; [|exact Hesc'].
      rewrite last_cons, Hlast. reflexivity.
    + rewrite Hinv. cbn [fmap list_fmap fst].
      split; [apply prefix_cons, prefix_nil|].
      split; [exact Hst|].
      split; [intros handler event [= _ <-]; reflexivity|].
      split; [discriminate|].
      intros e [= <-]. exists h, st.2. split; [reflexivity|].
      apply Hesc. reflexivity.
Qed.


(** [subscribe] puts a callable handler at the end of the list of its
    event name and leaves the other names alone. *)
Lemma subscribe_appends (bus : Subscribers) event_name handler :
  callable handler = true ->
  exists bus',
    subscribe bus event_name handler = Ok bus' /\
    get_subscribers bus' event_name = get_subscribers bus event_name ++ [handler] /\
    forall other, other <> event_name ->
                  get_subscribers bus' other = get_subscribers bus other.
Proof.
  intros Hc. unfold subscribe. rewrite Hc. simpl.
  eexists. split; [reflexivity|]. unfold get_subscribers. split.
  - rewrite lookup_insert_eq. reflexivity.
  - intros other Hne. rewrite lookup_insert_ne by congruence. reflexivity.
Qed.


End EventBusFacts.



(** A handler can assign to the event it is handed: the handlers after
    it get the event as it left it. *)
Example handlers_share_the_event :
  let bus := after_calls EventBus.identity_ne
               [Subscribe "trade" (EventBus.Callable 1);
                Subscribe "trade" (EventBus.Callable 2)] in
  EventBus.invocations
    (EventBus.publish SampleBus.renaming SampleBus.str_of_exn bus
       "trade" ∅ 0 0%nat).1.1
  = [(EventBus.Callable 1,
      {| EventBus.name := "trade"; EventBus.timestamp := 0; EventBus.data := ∅ |});
     (EventBus.Callable 2,
      {| EventBus.name := "renamed"; EventBus.timestamp := 0; EventBus.data := ∅ |})].
Proof. reflexivity. Qed.

(* ===================================================================== *)
(** * More about the Raydium path *)
(* ===================================================================== *)

(** X1.  The calls a run of [buy_with_raydium] or [sell_with_raydium]
    makes are an initial part of the sequence of calls in the source
    text: each call is made at most once, in that order; no run goes
    back to an earlier call, retries, or submits twice. *)
Theorem calls_follow_source_order K w agent pair_address sol_in percentage slippage :
  map call_name (trace (buy_with_raydium K w agent pair_address sol_in slippage))
    `prefix_of` buy_call_order /\
  map call_name (trace (sell_with_raydium K w agent pair_address percentage slippage))
    `prefix_of` sell_call_order.
Proof.
  unfold buy_with_raydium, sell_with_raydium.
  rewrite !trace_try_except_print. split.
  - destruct (buy_body K w agent pair_address sol_in slippage)
      as [t r] eqn:E.
    unfold buy_body, submit_and_confirm in E. simpl in E.
    unfold trace; simpl.
    run E; injection E as <- <-; simpl; eexists; reflexivity.
  - destruct (sell_body K w agent pair_address percentage slippage)
      as [t r] eqn:E.
    unfold sell_body, submit_and_confirm in E.
    unfold trace; simpl.
    destruct (negb ((1 <=? percentage) && (percentage <=? 100)));
      simpl in E; [injection E as <- <-; eexists; reflexivity|].
    run E; injection E as <- <-; simpl; eexists; reflexivity.
Qed.

(** The end of a branch of a symbolic run, for the statement below. *)
Ltac settle_submission E :=
  injection E as <- <-; simpl;
  repeat (apply Forall_cons; split);
  try apply Forall_nil; simpl; auto 10;
  try (eexists; split; [|eassumption]; simpl; auto 10).

(** X2.  Every transaction a run submits is the one bundle it
    compiled: sent through the client of [agent.rpc_url] with
    [skip_preflight=True], signed by the wallet alone, paid by the
    wallet, with the block hash [get_latest_blockhash] answered.
    [confirm_txn] is only ever asked about the signature that
    submission returned. *)
Theorem one_signed_submission K w agent pair_address sol_in percentage slippage :
  let buy := trace (buy_with_raydium K w agent pair_address sol_in slippage) in
  let sell := trace (sell_with_raydium K w agent pair_address percentage slippage) in
  Forall (well_submitted K w agent buy) buy /\
  Forall (well_submitted K w agent sell) sell.
Proof.
  cbv zeta. unfold buy_with_raydium, sell_with_raydium.
  rewrite !trace_try_except_print. split.
  - destruct (buy_body K w agent pair_address sol_in slippage)
      as [t r] eqn:E.
    unfold buy_body, submit_and_confirm in E. simpl in E.
    unfold trace; simpl.
    run E; settle_submission E.
  - destruct (sell_body K w agent pair_address percentage slippage)
      as [t r] eqn:E.
    unfold sell_body, submit_and_confirm in E.
    unfold trace; simpl.
    destruct (negb ((1 <=? percentage) && (percentage <=? 100)));
      simpl in E; [settle_submission E|].
    run E; settle_submission E.
Qed.

(** X3.  A [percentage] outside [1, 100] ends [sell_with_raydium] at
    once: it returns [False] and has made no call at all, not even the
    pool lookup. *)
Theorem sell_percentage_out_of_range K w agent pair_address percentage slippage :
  ~ (1 <= percentage <= 100) ->
  sell_with_raydium K w agent pair_address percentage slippage = ([], Ok false).
Proof.
  intros Hp. unfold sell_with_raydium, sell_body.
  destruct (negb ((1 <=? percentage) && (percentage <=? 100))) eqn:E;
    [reflexivity|].
  apply negb_false_iff, andb_true_iff in E as [Hlo Hhi].
  apply Z.leb_le in Hlo, Hhi. lia.
Qed.

Lemma sell_percentage_out_of_range_witness :
  sell_with_raydium Sample.constants (Sample.world x00) Sample.agent "pool" 0 5
    = ([], Ok false) /\
  sell_with_raydium Sample.constants (Sample.world x00) Sample.agent "pool" 101 5
    = ([], Ok false).
Proof.
  split; apply (sell_percentage_out_of_range Sample.constants (Sample.world x00));
    lia.
Defined.

Lemma percentage_in_range percentage :
  1 <= percentage <= 100 ->
  negb ((1 <=? percentage) && (percentage <=? 100)) = false.
Proof.
  intros Hp. apply negb_false_iff, andb_true_iff; split; apply Z.leb_le; lia.
Qed.

(** X4.  When [fetch_pool_keys] answers [None], a buy and a sell (with
    a [percentage] in range) return [False] after that one call. *)
Theorem unknown_pool_stops_after_lookup
    K w agent pair_address sol_in percentage slippage :
  fetch_pool_keys w pair_address = Ok None ->
  1 <= percentage <= 100 ->
  buy_with_raydium K w agent pair_address sol_in slippage
    = ([CFetchPoolKeys pair_address], Ok false) /\
  sell_with_raydium K w agent pair_address percentage slippage
    = ([CFetchPoolKeys pair_address], Ok false).
Proof.
  intros Hpool Hp. split.
  - unfold buy_with_raydium, buy_body. rewrite Hpool. reflexivity.
  - unfold sell_with_raydium, sell_body.
    rewrite (percentage_in_range _ Hp), Hpool. reflexivity.
Qed.

Lemma unknown_pool_stops_after_lookup_witness :
  buy_with_raydium Sample.constants Edge.world_without_pool Sample.agent
      "pool" 0.5%float 5
    = ([CFetchPoolKeys "pool"], Ok false) /\
  sell_with_raydium Sample.constants Edge.world_without_pool Sample.agent
      "pool" 100 5
    = ([CFetchPoolKeys "pool"], Ok false).
Proof.
  apply (unknown_pool_stops_after_lookup Sample.constants Edge.world_without_pool);
    [reflexivity|lia].
Defined.

(** X5.  When the balance of the traded mint is [None] or compares
    equal to zero, a sell returns [False] after the pool lookup and the
    balance query: it reads no reserves, draws no seed and sends
    nothing. *)
Theorem sell_without_balance_stops
    K w agent pair_address percentage slippage pool_keys :
  let mint := traded_mint K pool_keys in
  1 <= percentage <= 100 ->
  fetch_pool_keys w pair_address = Ok (Some pool_keys) ->
  (get_token_balance w mint = Ok None \/
   exists token_balance,
     get_token_balance w mint = Ok (Some token_balance) /\
     (token_balance =? 0)%float = true) ->
  sell_with_raydium K w agent pair_address percentage slippage
    = ([CFetchPoolKeys pair_address; CGetTokenBalance mint], Ok false).
Proof.
  intros mint Hp Hpool Hbal. subst mint.
  unfold sell_with_raydium, sell_body.
  rewrite (percentage_in_range _ Hp), Hpool. simpl.
  destruct Hbal as [Hbal|(b & Hbal & Hzero)]; rewrite Hbal; simpl;
    [reflexivity|].
  rewrite Hzero. reflexivity.
Qed.

Lemma sell_without_balance_stops_witness :
  sell_with_raydium Sample.constants Edge.world_without_balance Sample.agent
      "pool" 100 5
    = ([CFetchPoolKeys "pool"; CGetTokenBalance "mint"], Ok false).
Proof.
  apply (sell_without_balance_stops Sample.constants Edge.world_without_balance
           Sample.agent "pool" 100 5 Sample.pool);
    [lia | reflexivity | right; exists (-0)%float; split; reflexivity].
Defined.

(** X6.  A buy sends the bought tokens to the first token account the
    wallet already holds for the mint, and then its bundle creates no
    associated account (six instructions); when the wallet holds none,
    the bundle creates the associated account of the wallet for the
    mint (seven instructions) and the swap pays into that address. *)
Theorem buy_destination_account K w agent pair_address sol_in slippage :
  let client := {| endpoint := rpc_url agent |} in
  let payer := kp_pubkey (wallet agent) in
  Forall (fun ixs =>
    exists pool_keys accounts,
      let mint := traded_mint K pool_keys in
      fetch_pool_keys w pair_address = Ok (Some pool_keys) /\
      get_token_accounts_by_owner w client payer mint = Ok accounts /\
      match accounts with
      | first :: _ =>
          associated_accounts_created ixs = [] /\
          (snd <$> swaps ixs) = [first] /\
          List.length ixs = 6%nat
      | [] =>
          associated_accounts_created ixs = [mint] /\
          (snd <$> swaps ixs) = [get_associated_token_address w payer mint] /\
          List.length ixs = 7%nat
      end)
    (bundles (trace (buy_with_raydium K w agent pair_address sol_in slippage))).
Proof.
  intros client payer; apply Forall_forall; intros ixs Hin.
  apply list_elem_of_In, buy_bundle_inv in Hin
    as (pk & ai & rs & ao & mo & accs & ws & bn & Hpk & _ & _ & _ & _ & Haccs & _ & _ & ->).
  exists pk, accs. cbv zeta. split; [exact Hpk|]. split; [exact Haccs|].
  destruct accs; repeat split; reflexivity.
Qed.

Example buy_destination_account_samples :
  let bundle w :=
    hd [] (bundles (trace (buy_with_raydium Sample.constants w
                             Sample.agent "pool" 0.5%float 5))) in
  (snd <$> swaps (bundle (Sample.world x00))) = ["wallet/mint"%string] /\
  associated_accounts_created (bundle (Sample.world x00)) = ["mint"%string] /\
  (snd <$> swaps (bundle Edge.world_with_token_account)) = ["token-account"%string] /\
  associated_accounts_created (bundle Edge.world_with_token_account) = [].
Proof. vm_compute. auto. Qed.

(** X7.  On a full sell ([percentage = 100]) the swap spends
    [int(token_balance * 10**token_decimal)] for the balance
    [get_token_balance] answered: the factor [100 / 100] is exactly
    [1.0] and the product [token_balance * 1.0] is [token_balance].
    (The truncated binary64 product can be one unit short of the
    balance held, as the example below shows.) *)
Theorem full_sell_amount_in K w agent pair_address slippage :
  Forall (fun ixs =>
    exists pool_keys token_balance reserves amount_in,
      fetch_pool_keys w pair_address = Ok (Some pool_keys) /\
      get_token_balance w (traded_mint K pool_keys) = Ok (Some token_balance) /\
      get_token_reserves w pool_keys = Ok reserves /\
      (scaled ← PyFloat.mul_int token_balance (10 ^ Z.of_N reserves.2);
       PyFloat.to_int scaled) = Ok amount_in /\
      ((fun s => s.1.1.1) <$> swaps ixs) = [amount_in])
    (bundles (trace (sell_with_raydium K w agent pair_address 100 slippage))).
Proof.
  apply Forall_forall; intros ixs Hin.
  apply list_elem_of_In, sell_bundle_inv in Hin
    as (pk & tb & sh & rs & ao & mo & ai & ws & bn
        & _ & Hpk & Htb & Hsh & Hrs & _ & _ & Hai & _ & _ & ->).
  assert (Hone : PyFloat.int_truediv 100 100 = Ok 1%float)
    by (vm_compute; reflexivity).
  rewrite Hone in Hsh. injection Hsh as <-.
  rewrite mul_one_r in Hai.
  exists pk, tb, rs, ai. repeat split; assumption.
Qed.

(** A balance of 0.29 tokens at two decimals is 29 units; the amount a
    full sell spends is [int(0.29 * 100)], which is 28. *)
Example full_sell_can_leave_one_unit :
  (scaled ← PyFloat.mul_int 0.29%float (10 ^ Z.of_N 2);
   PyFloat.to_int scaled) = Ok 28.
Proof. vm_compute. reflexivity. Qed.

(** The character of a six-bit group is one of the 64 of the alphabet. *)
Lemma b64_char_alphabet v : 0 <= v < 64 -> In (b64_char v) b64_alphabet.
Proof.
  intros Hv. unfold b64_char. apply nth_In.
  change (List.length b64_alphabet) with 64%nat. lia.
Qed.

(** The encoding of a byte string that starts with a whole group. *)
Lemma urlsafe_b64encode_group a b c (rest : list byte) :
  urlsafe_b64encode (a :: b :: c :: rest) =
  let n := byte_val a * 65536 + byte_val b * 256 + byte_val c in
  String (b64_char (n / 262144))
    (String (b64_char (n / 4096 mod 64))
       (String (b64_char (n / 64 mod 64))
          (String (b64_char (n mod 64)) (urlsafe_b64encode rest)))).
Proof. reflexivity. Qed.

(** Whole groups of three bytes are written without padding: four
    characters of the alphabet each. *)
Lemma urlsafe_b64encode_whole_groups (bs : list byte) (k : nat) :
  List.length bs = (3 * k)%nat ->
  String.length (urlsafe_b64encode bs) = (4 * k)%nat /\
  List.Forall (fun c => In c b64_alphabet)
    (list_ascii_of_string (urlsafe_b64encode bs)).
Proof.
  revert k. induction bs as [|a|a b|a b c l IH] using list_ind3; intros k Hlen.
  - destruct k; [|discriminate]. split; [reflexivity|constructor].
  - simpl in Hlen. lia.
  - simpl in Hlen. lia.
  - destruct k as [|k]; [discriminate|].
    assert (Hl : List.length l = (3 * k)%nat) by (simpl in Hlen; lia).
    destruct (IH k Hl) as [IHlen IHall].
    pose proof (byte_val_range a). pose proof (byte_val_range b).
    pose proof (byte_val_range c).
    rewrite urlsafe_b64encode_group.
    cbn [String.length list_ascii_of_string].
    split; [rewrite IHlen; lia|].
    repeat (apply List.Forall_cons;
            [apply b64_char_alphabet; first
               [ apply Z.mod_pos_bound; lia
               | split; [apply Z.div_pos; lia | apply Z.div_lt_upper_bound; lia] ]|]).
    exact IHall.
Qed.

(** X8.  The seed of every assembled bundle has exactly 32 characters,
    each from the URL-safe alphabet: 24 bytes are eight whole groups,
    so the encoding carries no padding. *)
Theorem seed_is_32_url_safe_characters
    K w agent pair_address sol_in percentage slippage :
  Forall (fun ixs =>
    exists seed,
      seeds ixs = [seed] /\
      String.length seed = 32%nat /\
      List.Forall (fun c => In c b64_alphabet) (list_ascii_of_string seed))
    (bundles (trace (buy_with_raydium K w agent pair_address sol_in slippage)) ++
     bundles (trace (sell_with_raydium K w agent pair_address percentage slippage))).
Proof.
  apply Forall_forall; intros ixs Hin.
  assert (Hasm : assembles K w agent ixs).
  { apply list_elem_of_In, in_app_or in Hin as [Hin|Hin];
      [left|right]; eexists _, _, _; exact Hin. }
  apply assembled_ephemeral_account in Hasm as (account & _ & Hseeds & _).
  eexists. split; [exact Hseeds|].
  apply (urlsafe_b64encode_whole_groups _ 8). apply random_bytes_length.
Qed.

(* ===================================================================== *)
(** * More about the event bus *)
(* ===================================================================== *)

Section EventBusChanges.
Import EventBus.
Context {S : Type}.
Variable call_object : PyObject -> Event -> S -> S * Event * result unit.
Variable str_of_exn : exn -> result string.
Variable py_ne : PyObject -> PyObject -> result bool.

Abbreviation turn := (turn call_object str_of_exn).
Abbreviation deliver := (deliver call_object str_of_exn).
Abbreviation effects := (effects call_object).
Abbreviation publish := (publish call_object str_of_exn).
Abbreviation unsubscribe := (unsubscribe py_ne).
Abbreviation without := (without py_ne).

(** The comprehension of [unsubscribe] keeps the handlers for which
    [h != handler] is true, in their order. *)
Lemma without_ok handlers handler kept :
  without handlers handler = Ok kept ->
  kept = filter (fun h => py_ne h handler = Ok true) handlers.
Proof.
  revert kept. induction handlers as [|h rest IH]; intros kept.
  - intros [= <-]. reflexivity.
  - cbn [EventBus.without]. unfold mbind, result_bind.
    destruct (py_ne h handler) as [keep|e] eqn:Hne; [|discriminate].
    destruct (EventBus.without py_ne rest handler) as [kept'|e]; [|discriminate].
    intros [= <-]. rewrite (IH kept' eq_refl).
    destruct keep.
    + rewrite filter_cons_True by exact Hne. reflexivity.
    + rewrite filter_cons_False by (rewrite Hne; discriminate). reflexivity.
Qed.

(** It raises what the first comparison that raises has raised. *)
Lemma without_raise handlers handler e :
  without handlers handler = Raise e ->
  exists h, h ∈ handlers /\ py_ne h handler = Raise e.
Proof.
  induction handlers as [|h rest IH]; [discriminate|].
  cbn [EventBus.without]. unfold mbind, result_bind.
  destruct (py_ne h handler) as [keep|e'] eqn:Hne.
  - destruct (EventBus.without py_ne rest handler) as [kept'|e'']; [discriminate|].
    intros [= ->]. destruct (IH eq_refl) as (h' & Hin & Hh').
    exists h'. split; [right; exact Hin|exact Hh'].
  - intros [= ->]. exists h. split; [left|exact Hne].
Qed.

(** It returns when every comparison returns. *)
Lemma without_returns handlers handler :
  Forall (fun h => exists b, py_ne h handler = Ok b) handlers ->
  exists kept, without handlers handler = Ok kept.
Proof.
  induction 1 as [|h rest (b & Hb) _ (kept & IH)]; [exists []; reflexivity|].
  cbn [EventBus.without]. unfold mbind, result_bind. rewrite Hb, IH. eauto.
Qed.

Lemma get_subscribers_unsubscribe (bus bus' : Subscribers) event_name handler :
  unsubscribe bus event_name handler = Ok bus' ->
  get_subscribers bus' event_name
  = filter (fun h => py_ne h handler = Ok true) (get_subscribers bus event_name).
Proof.
  unfold EventBus.unsubscribe, get_subscribers.
  destruct (bus !! event_name) as [hs|] eqn:E.
  - unfold mbind, result_bind.
    destruct (EventBus.without py_ne hs handler) as [kept|e] eqn:Hw; [|discriminate].
    intros [= <-]. rewrite lookup_insert_eq. simpl.
    apply without_ok, Hw.
  - intros [= <-]. rewrite E. reflexivity.
Qed.

Lemma get_subscribers_unsubscribe_ne (bus bus' : Subscribers)
    event_name handler other :
  unsubscribe bus event_name handler = Ok bus' ->
  other <> event_name ->
  get_subscribers bus' other = get_subscribers bus other.
Proof.
  unfold EventBus.unsubscribe, get_subscribers.
  destruct (bus !! event_name) as [hs|]; [|intros [= <-]; reflexivity].
  unfold mbind, result_bind.
  destruct (EventBus.without py_ne hs handler) as [kept|e]; [|discriminate].
  intros [= <-] Hne. rewrite lookup_insert_ne by congruence. reflexivity.
Qed.

Lemma unsubscribe_raise (bus : Subscribers) event_name handler e :
  unsubscribe bus event_name handler = Raise e ->
  exists h, h ∈ get_subscribers bus event_name /\ py_ne h handler = Raise e.
Proof.
  unfold EventBus.unsubscribe, get_subscribers.
  destruct (bus !! event_name) as [hs|]; [|discriminate].
  unfold mbind, result_bind.
  destruct (EventBus.without py_ne hs handler) as [kept|e'] eqn:Hw; [discriminate|].
  intros [= ->]. simpl. apply without_raise, Hw.
Qed.

(** The handlers a run of [publish] calls are subscribers of the event
    name. *)
Lemma publish_calls_subscribers (bus : Subscribers) event_name kwargs now s :
  Forall (fun call => call.1 ∈ get_subscribers bus event_name)
    (invocations (publish bus event_name kwargs now s).1.1).
Proof.
  unfold EventBus.publish.
  destruct (rebinds_parameter kwargs); [constructor|].
  pose proof (deliver_calls call_object str_of_exn event_name
                (get_subscribers bus event_name)
                (s, {| name := event_name; timestamp := now; data := kwargs |}))
    as Hcalls.
  destruct (deliver _ _ _) as [[log st'] r].
  destruct Hcalls as ([k Hk] & _). cbn [fst].
  apply Forall_forall. intros call Hin.
  rewrite Hk. apply elem_of_app. left.
  apply list_elem_of_fmap. exists call. split; [reflexivity|exact Hin].
Qed.

(** X9.  When [unsubscribe] returns, the list of the event name holds
    the handlers [h] of the old list for which [h != handler] was true,
    in their order, and the lists of the other event names are
    untouched; if the handler compares equal to itself, it is no longer
    in the list, and a [publish] of that name afterwards does not call
    it.  [unsubscribe] raises only what a comparison with a subscriber
    of the name raised. *)
Theorem unsubscribe_removes_every_registration
    (bus : Subscribers) event_name handler kwargs now s :
  match unsubscribe bus event_name handler with
  | Ok bus' =>
      get_subscribers bus' event_name
        = filter (fun h => py_ne h handler = Ok true)
            (get_subscribers bus event_name) /\
      (py_ne handler handler = Ok false ->
       (handler ∉ get_subscribers bus' event_name) /\
       Forall (fun call => call.1 <> handler)
         (invocations (publish bus' event_name kwargs now s).1.1)) /\
      (forall other, other <> event_name ->
         get_subscribers bus' other = get_subscribers bus other)
  | Raise e =>
      exists h, h ∈ get_subscribers bus event_name /\ py_ne h handler = Raise e
  end.
Proof.
  destruct (unsubscribe bus event_name handler) as [bus'|e] eqn:Hun;
    [|apply unsubscribe_raise, Hun].
  pose proof (get_subscribers_unsubscribe _ _ _ _ Hun) as Hlist.
  split; [exact Hlist|]. split.
  - intros Heq.
    assert (Hnot : handler ∉ get_subscribers bus' event_name).
    { rewrite Hlist. intros Hin.
      apply list_elem_of_filter in Hin as [Hne _]. congruence. }
    split; [exact Hnot|].
    eapply Forall_impl; [apply publish_calls_subscribers|].
    intros call Hin Hcall. apply Hnot. rewrite <- Hcall. exact Hin.
  - intros other Hne. exact (get_subscribers_unsubscribe_ne _ _ _ _ _ Hun Hne).
Qed.

(** X10.  [unsubscribe] of a handler that compares unequal to every
    subscriber of the event name (in particular, of an event name the
    bus has never seen) leaves the bus exactly as it was: it raises
    nothing and creates no entry. *)
Theorem unsubscribe_absent_handler (bus : Subscribers) event_name handler :
  Forall (fun h => py_ne h handler = Ok true) (get_subscribers bus event_name) ->
  unsubscribe bus event_name handler = Ok bus.
Proof.
  intros Hall. unfold EventBus.unsubscribe, get_subscribers in *.
  destruct (bus !! event_name) as [hs|] eqn:E; [|reflexivity].
  simpl in Hall.
  assert (Hw : without hs handler = Ok hs).
  { clear E. induction Hall as [|h rest Hh _ IH]; [reflexivity|].
    cbn [EventBus.without]. unfold mbind, result_bind. rewrite Hh, IH.
    reflexivity. }
  unfold mbind, result_bind. rewrite Hw. f_equal. apply insert_id, E.
Qed.

(** A call keeps the lists of a bus free of objects that are not
    callable. *)
Lemma after_call_callable (bus : Subscribers) c :
  (forall event_name, Forall (fun h => callable h = true)
                        (get_subscribers bus event_name)) ->
  forall event_name, Forall (fun h => callable h = true)
                       (get_subscribers (after_call py_ne bus c) event_name).
Proof.
  intros Hbus event_name. destruct c as [n h|n h]; simpl.
  - unfold subscribe. destruct (callable h) eqn:Hc; simpl; [|apply Hbus].
    unfold get_subscribers.
    destruct (decide (event_name = n)) as [->|Hne].
    + rewrite lookup_insert_eq. simpl.
      apply Forall_app. split; [apply Hbus|]. apply Forall_singleton, Hc.
    + rewrite lookup_insert_ne by congruence. apply Hbus.
  - destruct (unsubscribe bus n h) as [bus'|e] eqn:Hun; [|apply Hbus].
    destruct (decide (event_name = n)) as [->|Hne].
    + rewrite (get_subscribers_unsubscribe _ _ _ _ Hun). apply Forall_forall.
      intros x Hin. apply list_elem_of_filter in Hin as [_ Hin].
      revert x Hin. apply Forall_forall, Hbus.
    + rewrite (get_subscribers_unsubscribe_ne _ _ _ _ _ Hun Hne). apply Hbus.
Qed.

Lemma after_calls_callable cs event_name :
  Forall (fun h => callable h = true)
    (get_subscribers (after_calls py_ne cs) event_name).
Proof.
  revert event_name. unfold after_calls.
  induction cs as [|c cs IH] using rev_ind; intros event_name.
  - unfold get_subscribers, empty_bus. simpl. rewrite lookup_empty. constructor.
  - rewrite foldl_app. simpl. apply after_call_callable, IH.
Qed.

(** X11.  Whatever sequence of [subscribe] and [unsubscribe] calls has
    built the bus, its lists hold callables only, so [publish] never
    calls an object that is not callable: [subscribe] refuses such an
    object with [ValueError] and leaves the bus unchanged. *)
Theorem publish_calls_only_callables cs event_name kwargs now s :
  Forall (fun h => callable h = true)
    (get_subscribers (after_calls py_ne cs) event_name) /\
  Forall (fun call => callable call.1 = true)
    (invocations (publish (after_calls py_ne cs) event_name kwargs now s).1.1) /\
  (forall handler, callable handler = false ->
     subscribe (after_calls py_ne cs) event_name handler = Raise ValueError /\
     after_call py_ne (after_calls py_ne cs) (Subscribe event_name handler)
       = after_calls py_ne cs).
Proof.
  split; [apply after_calls_callable|]. split.
  - eapply Forall_impl; [apply publish_calls_subscribers|].
    intros call Hin.
    pose proof (after_calls_callable cs event_name) as Hall.
    rewrite Forall_forall in Hall. apply Hall, Hin.
  - intros handler Hc. simpl. unfold subscribe. rewrite Hc. auto.
Qed.

(** X12.  [subscribe] does not deduplicate: a handler subscribed twice
    is listed twice.  One [unsubscribe] that returns then removes both
    registrations, together with any earlier handler that compares
    equal, if the handler compares equal to itself; if it compares
    unequal to itself, both registrations stay.  The [unsubscribe]
    returns when every comparison does. *)
Theorem duplicate_subscription (bus : Subscribers) event_name handler :
  callable handler = true ->
  exists bus1 bus2,
    subscribe bus event_name handler = Ok bus1 /\
    subscribe bus1 event_name handler = Ok bus2 /\
    get_subscribers bus2 event_name
      = get_subscribers bus event_name ++ [handler; handler] /\
    (forall bus3, unsubscribe bus2 event_name handler = Ok bus3 ->
       get_subscribers bus3 event_name
       = filter (fun h => py_ne h handler = Ok true) (get_subscribers bus event_name)
         ++ (if decide (py_ne handler handler = Ok true)
             then [handler; handler] else [])) /\
    (Forall (fun h => exists b, py_ne h handler = Ok b)
       (handler :: get_subscribers bus event_name) ->
     exists bus3, unsubscribe bus2 event_name handler = Ok bus3).
Proof.
  intros Hc.
  destruct (subscribe_appends bus event_name handler Hc) as (bus1 & H1 & Hl1 & _).
  destruct (subscribe_appends bus1 event_name handler Hc) as (bus2 & H2 & Hl2 & _).
  exists bus1, bus2. split; [exact H1|]. split; [exact H2|].
  assert (Hl : get_subscribers bus2 event_name
               = get_subscribers bus event_name ++ [handler; handler]).
  { rewrite Hl2, Hl1, <- app_assoc. reflexivity. }
  split; [exact Hl|]. split.
  - intros bus3 Hun.
    rewrite (get_subscribers_unsubscribe _ _ _ _ Hun), Hl, filter_app.
    f_equal. destruct (decide (py_ne handler handler = Ok true)) as [Hne|Hne].
    + rewrite !filter_cons_True by exact Hne. reflexivity.
    + rewrite !filter_cons_False by exact Hne. reflexivity.
  - intros Hall. apply Forall_cons in Hall as [Hself Hold].
    unfold EventBus.unsubscribe.
    assert (Hsome : bus2 !! event_name = Some (get_subscribers bus2 event_name)).
    { unfold subscribe in H2. rewrite Hc in H2. simpl in H2.
      injection H2 as <-. unfold get_subscribers at 2.
      rewrite !lookup_insert_eq. reflexivity. }
    rewrite Hsome, Hl.
    destruct (without_returns (get_subscribers bus event_name ++ [handler; handler])
                handler) as (kept & Hk).
    { apply Forall_app. split; [exact Hold|].
      repeat apply Forall_cons_2; try apply Forall_nil_2; exact Hself. }
    unfold mbind, result_bind. rewrite Hk. eauto.
Qed.



(** The subscribers of one event name after a call for another. *)
Lemma get_subscribers_after_call_ne (bus : Subscribers) c event_name :
  bus_call_name c <> event_name ->
  get_subscribers (after_call py_ne bus c) event_name
  = get_subscribers bus event_name.
Proof.
  intros Hne. destruct c as [n h|n h]; simpl in *.
  - unfold subscribe. destruct (callable h); simpl; [|reflexivity].
    unfold get_subscribers. rewrite lookup_insert_ne by congruence. reflexivity.
  - destruct (unsubscribe bus n h) as [bus'|e] eqn:Hun; [|reflexivity].
    apply (get_subscribers_unsubscribe_ne _ _ _ _ _ Hun). congruence.
Qed.

(** X15.  A [subscribe] or [unsubscribe] for one event name, whether
    it succeeds or raises, changes nothing in what [publish] does for
    another event name. *)
Theorem publish_ignores_other_event_names
    (bus : Subscribers) c event_name kwargs now s :
  bus_call_name c <> event_name ->
  publish (after_call py_ne bus c) event_name kwargs now s
  = publish bus event_name kwargs now s.
Proof.
  intros Hne. unfold EventBus.publish.
  rewrite get_subscribers_after_call_ne by exact Hne. reflexivity.
Qed.

End EventBusChanges.

(** With the comparison of plain objects, [unsubscribe] removes the
    handler and leaves the other one. *)
Lemma unsubscribe_removes_every_registration_witness :
  let bus := after_calls EventBus.identity_ne
               [Subscribe "trade" (EventBus.Callable 1);
                Subscribe "trade" (EventBus.Callable 2);
                Subscribe "trade" (EventBus.Callable 1)] in
  exists bus',
    EventBus.unsubscribe EventBus.identity_ne bus "trade" (EventBus.Callable 1)
      = Ok bus' /\
    EventBus.get_subscribers bus' "trade" = [EventBus.Callable 2] /\
    Forall (fun call => call.1 <> EventBus.Callable 1)
      (EventBus.invocations
         (EventBus.publish SampleBus.counting SampleBus.str_of_exn bus'
            "trade" ∅ 0 0%nat).1.1).
Proof.
  intros bus.
  pose proof (unsubscribe_removes_every_registration SampleBus.counting
                SampleBus.str_of_exn EventBus.identity_ne bus "trade"
                (EventBus.Callable 1) ∅ 0 0%nat) as H.
  destruct (EventBus.unsubscribe EventBus.identity_ne bus "trade"
              (EventBus.Callable 1)) as [bus'|e] eqn:Hun; [|discriminate Hun].
  destruct H as (Hlist & Hgone & _).
  exists bus'. split; [reflexivity|]. split.
  - rewrite Hlist. reflexivity.
  - apply Hgone. reflexivity.
Defined.

(** What the comparison decides, not the identity of the object: an
    equal bound method takes the subscribed one off the list, and a
    handler that is unequal to itself stays on it. *)
Example unsubscribe_compares_with_ne :
  let bus := after_calls EventBus.identity_ne
               [Subscribe "trade" (EventBus.Callable 1)] in
  (exists bus',
     EventBus.unsubscribe SampleBus.bound_method_ne bus "trade" (EventBus.Callable 2)
       = Ok bus' /\
     EventBus.get_subscribers bus' "trade" = []) /\
  (exists bus',
     EventBus.unsubscribe SampleBus.never_equal_ne bus "trade" (EventBus.Callable 1)
       = Ok bus' /\
     EventBus.get_subscribers bus' "trade" = [EventBus.Callable 1]).
Proof. split; eexists; split; reflexivity. Qed.

Lemma unsubscribe_absent_handler_witness :
  EventBus.unsubscribe EventBus.identity_ne EventBus.empty_bus "trade"
      (EventBus.Callable 1)
    = Ok EventBus.empty_bus /\
  EventBus.unsubscribe EventBus.identity_ne
      (after_calls EventBus.identity_ne [Subscribe "trade" (EventBus.Callable 1)])
      "trade" (EventBus.Callable 2)
    = Ok (after_calls EventBus.identity_ne [Subscribe "trade" (EventBus.Callable 1)]).
Proof.
  split; apply unsubscribe_absent_handler.
  - apply Forall_nil_2.
  - apply Forall_cons_2; [reflexivity|apply Forall_nil_2].
Defined.

Lemma duplicate_subscription_witness :
  exists bus2 bus3,
    EventBus.get_subscribers bus2 "trade"
      = [EventBus.Callable 1; EventBus.Callable 1] /\
    EventBus.unsubscribe EventBus.identity_ne bus2 "trade" (EventBus.Callable 1)
      = Ok bus3 /\
    EventBus.get_subscribers bus3 "trade" = [].
Proof.
  destruct (duplicate_subscription EventBus.identity_ne EventBus.empty_bus "trade"
              (EventBus.Callable 1) eq_refl)
    as (bus1 & bus2 & _ & _ & Hl & Hun & Hret).
  destruct Hret as (bus3 & H3).
  { apply Forall_cons_2; [eexists; reflexivity|apply Forall_nil_2]. }
  exists bus2, bus3. split; [exact Hl|]. split; [exact H3|].
  rewrite (Hun bus3 H3). reflexivity.
Defined.



Lemma publish_ignores_other_event_names_witness :
  EventBus.publish SampleBus.counting SampleBus.str_of_exn
    (after_call EventBus.identity_ne
       (after_calls EventBus.identity_ne [Subscribe "trade" (EventBus.Callable 1)])
       (Unsubscribe "transfer" (EventBus.Callable 1)))
    "trade" ∅ 0 0%nat
  = EventBus.publish SampleBus.counting SampleBus.str_of_exn
      (after_calls EventBus.identity_ne [Subscribe "trade" (EventBus.Callable 1)])
      "trade" ∅ 0 0%nat.
Proof.
  apply (publish_ignores_other_event_names SampleBus.counting SampleBus.str_of_exn
           EventBus.identity_ne
           (after_calls EventBus.identity_ne [Subscribe "trade" (EventBus.Callable 1)])
           (Unsubscribe "transfer" (EventBus.Callable 1)) "trade" ∅ 0 0%nat).
  discriminate.
Defined.

(* ===================================================================== *)
(** * The plugin registry *)
(* ===================================================================== *)

Section PluginRegistryFacts.
Import PluginRegistry.

(** Decorating one more class files it under its name, over whatever
    was there. *)
Lemma decorate_all_snoc (_plugins : Plugins) classes plugin_class :
  decorate_all _plugins (classes ++ [plugin_class])
  = <[__name__ plugin_class := plugin_class]> (decorate_all _plugins classes).
Proof. unfold decorate_all. rewrite foldl_app. reflexivity. Qed.

(** X16.  After a sequence of classes has been decorated with
    [register_plugin], [get_plugin name] is the last class of the
    sequence whose [__name__] is [name]: a second class of the same
    name replaces the first.  When the sequence has no class of that
    name the earlier entry, if any, is still there, and [None] is
    returned for a name that was never registered. *)
Theorem last_registration_wins (_plugins : Plugins) classes name :
  get_plugin (decorate_all _plugins classes) name
  = match last (filter (fun plugin_class => __name__ plugin_class = name) classes) with
    | Some plugin_class => Some plugin_class
    | None => get_plugin _plugins name
    end.
Proof.
  induction classes as [|c classes IH] using rev_ind; [reflexivity|].
  rewrite decorate_all_snoc, filter_app. unfold get_plugin in *.
  destruct (decide (__name__ c = name)) as [Heq|Hne].
  - rewrite filter_cons_True, filter_nil, last_snoc by exact Heq.
    rewrite Heq. apply lookup_insert_eq.
  - rewrite filter_cons_False, filter_nil, app_nil_r by exact Hne.
    rewrite lookup_insert_ne by exact Hne. exact IH.
Qed.

(** X17.  In a registry filled by [register_plugin] alone, every entry
    of [list_plugins] is filed under the [__name__] of its class and is
    one of the decorated classes, and every decorated class finds a
    class of its own name under [get_plugin]. *)
Theorem plugins_listed_under_their_name classes :
  map_Forall (fun name plugin_class =>
                __name__ plugin_class = name /\ In plugin_class classes)
    (list_plugins (decorate_all ∅ classes)) /\
  Forall (fun plugin_class =>
            exists registered,
              get_plugin (decorate_all ∅ classes) (__name__ plugin_class)
                = Some registered /\
              __name__ registered = __name__ plugin_class)
    classes.
Proof.
  unfold list_plugins, get_plugin.
  induction classes as [|c classes [IHlisted IHfound]] using rev_ind.
  - split; [apply map_Forall_empty|constructor].
  - rewrite decorate_all_snoc. split.
    + apply map_Forall_insert_2.
      * split; [reflexivity|]. apply in_or_app. right. left. reflexivity.
      * eapply map_Forall_impl; [exact IHlisted|].
        intros name c' [Hname Hin]. split; [exact Hname|].
        apply in_or_app. left. exact Hin.
    + apply Forall_app. split.
      * eapply Forall_impl; [exact IHfound|].
        intros c' (registered & Hget & Hname).
        destruct (decide (__name__ c = __name__ c')) as [Heq|Hne].
        -- exists c. rewrite <- Heq, lookup_insert_eq. auto.
        -- exists registered. rewrite lookup_insert_ne by exact Hne. auto.
      * apply Forall_singleton. exists c. rewrite lookup_insert_eq. auto.
Qed.

End PluginRegistryFacts.

(* ===================================================================== *)
(** * The configuration *)
(* ===================================================================== *)

Section ConfigFacts.
Import Config.
Variable environ : gmap string string.
Variable int_of_str : string -> result Z.
Variable float_of_str : string -> result float.

Lemma state_eta (st : state) :
  {| _instance := _instance st; _config := _config st |} = st.
Proof. destruct st; reflexivity. Qed.

(** On a configuration that holds something, [cls()] loads nothing. *)
Lemma Config_loaded (st : state) :
  size (_config st) <> 0%nat ->
  Config environ int_of_str float_of_str st
  = ({| _instance := true; _config := _config st |}, Ok tt).
Proof.
  intros Hsize. unfold Config, __new__, __init__, mbind, C_bind. simpl.
  rewrite bool_decide_eq_false_2 by exact Hsize. reflexivity.
Qed.

(** On an empty one it runs [_load_env_vars]. *)
Lemma Config_empty (st : state) :
  size (_config st) = 0%nat ->
  Config environ int_of_str float_of_str st
  = _load_env_vars environ int_of_str float_of_str
      {| _instance := true; _config := ∅ |}.
Proof.
  intros Hsize. unfold Config, __new__, __init__, mbind, C_bind. simpl.
  rewrite bool_decide_eq_true_2 by exact Hsize.
  apply map_size_empty_iff in Hsize. rewrite Hsize. reflexivity.
Qed.

(** [_load_env_vars] leaves [_instance] alone, and a load that succeeds
    leaves a configuration that holds something. *)
Lemma load_keeps_instance (st : state) :
  let run := _load_env_vars environ int_of_str float_of_str st in
  _instance run.1 = _instance st /\
  (forall u, run.2 = Ok u -> size (_config run.1) <> 0%nat).
Proof.
  unfold _load_env_vars, mbind, C_bind, eval, setitem. simpl.
  destruct (getenv_int _ _ _ _) as [v1|e1]; simpl; [|split; [reflexivity|discriminate]].
  destruct (getenv_int _ _ _ _) as [v2|e2]; simpl; [|split; [reflexivity|discriminate]].
  destruct (getenv_int _ _ _ _) as [v3|e3]; simpl; [|split; [reflexivity|discriminate]].
  destruct (getenv_float _ _ _ _) as [v4|e4]; simpl; [|split; [reflexivity|discriminate]].
  split; [reflexivity|]. intros _ _ Hsize.
  apply map_size_empty_iff in Hsize.
  apply (insert_non_empty _ _ _ Hsize).
Qed.

(** [get] on a configuration that holds something reads the dictionary
    and changes nothing. *)
Lemma get_loaded key default (st : state) :
  _instance st = true -> _config st <> ∅ ->
  get environ int_of_str float_of_str key default st
  = (st, Ok (match _config st !! key with
             | Some v => v
             | None => default
             end)).
Proof.
  intros Hinst Hne. unfold get, mbind, C_bind.
  rewrite Config_loaded by (rewrite map_size_empty_iff; exact Hne).
  unfold dict_get. simpl. rewrite <- Hinst, state_eta. reflexivity.
Qed.

(** X18.  After a [Config.set(key, value)] that returned,
    [Config.get(key, default)] returns [value] and changes nothing,
    whatever the default; the call of [cls()] inside [get] does not
    load the environment again. *)
Theorem set_then_get key v default (st st1 : state) :
  set environ int_of_str float_of_str key v st = (st1, Ok tt) ->
  get environ int_of_str float_of_str key default st1 = (st1, Ok v) /\
  _instance st1 = true.
Proof.
  unfold set, mbind, C_bind. intros Hset.
  destruct (Config environ int_of_str float_of_str st) as [st0 [[]|e]] eqn:Hcfg;
    [|discriminate Hset].
  assert (Hinst : _instance st0 = true).
  { destruct (decide (size (_config st) = 0%nat)) as [Hs|Hs].
    - rewrite (Config_empty _ Hs) in Hcfg.
      pose proof (load_keeps_instance {| _instance := true; _config := ∅ |}) as [Hi _].
      rewrite Hcfg in Hi. exact Hi.
    - rewrite (Config_loaded _ Hs) in Hcfg. injection Hcfg as <-. reflexivity. }
  unfold setitem in Hset. injection Hset as <-. rewrite Hinst.
  split; [|reflexivity].
  rewrite get_loaded; simpl; [|reflexivity|apply insert_non_empty].
  rewrite lookup_insert_eq. reflexivity.
Qed.

(** [reload] ends as a load into an empty dictionary does. *)
Lemma reload_is_fresh_load (st : state) :
  reload environ int_of_str float_of_str st
  = _load_env_vars environ int_of_str float_of_str
      {| _instance := true; _config := ∅ |}.
Proof.
  unfold reload, mbind, C_bind.
  destruct (decide (size (_config st) = 0%nat)) as [Hs|Hs].
  - rewrite (Config_empty _ Hs).
    pose proof (load_keeps_instance {| _instance := true; _config := ∅ |}) as [Hi _].
    destruct (_load_env_vars _ _ _ _) as [st0 [[]|e]] eqn:Hload; [|reflexivity].
    simpl in Hi. unfold clear. rewrite Hi. exact Hload.
  - rewrite (Config_loaded _ Hs). reflexivity.
Qed.

(** X19.  [Config.reload()] does not depend on the configuration before
    the call: from any two states of the class it leaves the same state
    and gives the same result, which are those of the first [Config()]
    of a process.  Nothing stored by [Config.set], and nothing loaded
    before, survives it. *)
Theorem reload_discards_every_change (st st' : state) :
  reload environ int_of_str float_of_str st
    = reload environ int_of_str float_of_str st' /\
  reload environ int_of_str float_of_str st
    = Config environ int_of_str float_of_str initial.
Proof.
  rewrite !reload_is_fresh_load. split; [reflexivity|].
  symmetry. apply Config_empty. reflexivity.
Qed.

End ConfigFacts.

Section ConfigFailures.
Import Config.
Variable environ : gmap string string.
Variable int_of_str : string -> result Z.
Variable float_of_str : string -> result float.

(** X20.  When the value of [AGENTX_DEFAULT_SLIPPAGE_BPS] is not a
    number while the first setting loads, [Config.reload()] raises and
    leaves a configuration that is filled in part: the three keys
    assigned before the failing line are present, and a later
    [Config.get] of any of the five keys after it returns the default,
    without raising and without trying to load again. *)
Theorem failed_reload_leaves_partial_config (st : state) lamports e default :
  getenv_int environ int_of_str "AGENTX_LAMPORTS_PER_SOL" 1000000000 = Ok lamports ->
  getenv_int environ int_of_str "AGENTX_DEFAULT_SLIPPAGE_BPS" 300 = Raise e ->
  exists st1,
    reload environ int_of_str float_of_str st = (st1, Raise e) /\
    get environ int_of_str float_of_str "LAMPORTS_PER_SOL" default st1
      = (st1, Ok (VInt lamports)) /\
    Forall (fun key =>
              get environ int_of_str float_of_str key default st1 = (st1, Ok default))
      ["DEFAULT_SLIPPAGE_BPS"; "JUP_API_URL"; "DEFAULT_TOKEN_DECIMALS";
       "DEFAULT_TOKEN_SUPPLY"; "TOKENS"].
Proof.
  intros Hlam Hslip. rewrite reload_is_fresh_load.
  unfold _load_env_vars, mbind, C_bind, eval, setitem. simpl.
  rewrite Hlam. simpl. rewrite Hslip. simpl.
  eexists. split; [reflexivity|].
  split.
  - rewrite get_loaded; simpl; [|reflexivity|apply insert_non_empty].
    rewrite !lookup_insert_ne by discriminate. rewrite lookup_insert_eq.
    reflexivity.
  - repeat (apply Forall_cons; split); try apply Forall_nil; try exact I.
    all: rewrite get_loaded; simpl; [|reflexivity|apply insert_non_empty].
    all: rewrite !lookup_insert_ne by discriminate.
    all: rewrite lookup_empty; reflexivity.
Qed.

(** X21.  When the value of [AGENTX_LAMPORTS_PER_SOL] is not a number,
    the configuration stays empty: the creation of the instance,
    [reload], and every [get] and [set] on the empty configuration
    raise that same error, each after trying to load again. *)
Theorem malformed_first_setting_is_never_overcome (st : state) e key v default :
  let unloaded := {| _instance := true; _config := ∅ |} in
  getenv_int environ int_of_str "AGENTX_LAMPORTS_PER_SOL" 1000000000 = Raise e ->
  Config environ int_of_str float_of_str initial = (unloaded, Raise e) /\
  reload environ int_of_str float_of_str st = (unloaded, Raise e) /\
  get environ int_of_str float_of_str key default unloaded = (unloaded, Raise e) /\
  set environ int_of_str float_of_str key v unloaded = (unloaded, Raise e).
Proof.
  intros unloaded Hlam.
  assert (Hload : _load_env_vars environ int_of_str float_of_str unloaded
                  = (unloaded, Raise e)).
  { unfold _load_env_vars, mbind, C_bind, eval. rewrite Hlam. reflexivity. }
  assert (Hcfg : forall st0, size (_config st0) = 0%nat ->
            Config environ int_of_str float_of_str st0 = (unloaded, Raise e)).
  { intros st0 Hs. rewrite (Config_empty _ _ _ _ Hs). exact Hload. }
  split; [apply Hcfg; reflexivity|].
  split; [rewrite reload_is_fresh_load; exact Hload|].
  split.
  - unfold get, mbind, C_bind. rewrite Hcfg by reflexivity. reflexivity.
  - unfold set, mbind, C_bind. rewrite Hcfg by reflexivity. reflexivity.
Qed.

End ConfigFailures.

Lemma set_then_get_witness :
  let st1 := (Config.set ∅ SampleEnv.int_of_str SampleEnv.float_of_str
                "RPC_URL" (Config.VStr "http://localhost:8899") Config.initial).1 in
  Config.get ∅ SampleEnv.int_of_str SampleEnv.float_of_str
    "RPC_URL" Config.VNone st1
    = (st1, Ok (Config.VStr "http://localhost:8899")) /\
  Config._instance st1 = true.
Proof.
  apply (set_then_get ∅ SampleEnv.int_of_str SampleEnv.float_of_str
           "RPC_URL" (Config.VStr "http://localhost:8899") Config.VNone
           Config.initial).
  vm_compute. reflexivity.
Defined.

Lemma failed_reload_leaves_partial_config_witness :
  exists st1,
    Config.reload SampleEnv.malformed_slippage SampleEnv.int_of_str
      SampleEnv.float_of_str Config.initial = (st1, Raise ValueError) /\
    Config.get SampleEnv.malformed_slippage SampleEnv.int_of_str
      SampleEnv.float_of_str "LAMPORTS_PER_SOL" Config.VNone st1
      = (st1, Ok (Config.VInt 1000000)) /\
    Forall (fun key =>
              Config.get SampleEnv.malformed_slippage SampleEnv.int_of_str
                SampleEnv.float_of_str key Config.VNone st1
              = (st1, Ok Config.VNone))
      ["DEFAULT_SLIPPAGE_BPS"; "JUP_API_URL"; "DEFAULT_TOKEN_DECIMALS";
       "DEFAULT_TOKEN_SUPPLY"; "TOKENS"].
Proof.
  apply (failed_reload_leaves_partial_config SampleEnv.malformed_slippage
           SampleEnv.int_of_str SampleEnv.float_of_str Config.initial
           1000000 ValueError Config.VNone); vm_compute; reflexivity.
Defined.

Lemma malformed_first_setting_is_never_overcome_witness :
  let unloaded := {| Config._instance := true; Config._config := ∅ |} in
  Config.Config SampleEnv.malformed_lamports SampleEnv.int_of_str
    SampleEnv.float_of_str Config.initial = (unloaded, Raise ValueError) /\
  Config.reload SampleEnv.malformed_lamports SampleEnv.int_of_str
    SampleEnv.float_of_str Config.initial = (unloaded, Raise ValueError) /\
  Config.get SampleEnv.malformed_lamports SampleEnv.int_of_str
    SampleEnv.float_of_str "RPC_URL" Config.VNone unloaded
    = (unloaded, Raise ValueError) /\
  Config.set SampleEnv.malformed_lamports SampleEnv.int_of_str
    SampleEnv.float_of_str "RPC_URL" Config.VNone unloaded
    = (unloaded, Raise ValueError).
Proof.
  apply (malformed_first_setting_is_never_overcome SampleEnv.malformed_lamports
           SampleEnv.int_of_str SampleEnv.float_of_str Config.initial
           ValueError "RPC_URL" Config.VNone Config.VNone).
  vm_compute. reflexivity.
Defined.

(* ===================================================================== *)
(** * The client of the foundation layer *)
(* ===================================================================== *)

Section ClientFacts.
Import EventBus Foundation.
Context {S Tx Ix : Type}.
Variable call_object : PyObject -> Event -> S -> S * Event * result unit.
Variable datetime_now : S -> S * Z.
Variable isoformat : Z -> string.
Variable str_of_exn : exn -> result string.
Variable sdk : Foundation.Sdk (Tx := Tx) (Ix := Ix).

Abbreviation send_transaction :=
  (send_transaction call_object datetime_now isoformat str_of_exn).
Abbreviation event_bus_publish :=
  (event_bus_publish call_object datetime_now str_of_exn).
Abbreviation burn_and_close_account :=
  (burn_and_close_account call_object datetime_now isoformat str_of_exn sdk).
Abbreviation burn_and_close_loop :=
  (burn_and_close_loop call_object datetime_now isoformat str_of_exn sdk).
Abbreviation burn_and_close_multiple :=
  (burn_and_close_multiple call_object datetime_now isoformat str_of_exn sdk).

Abbreviation failure := (failure str_of_exn).

(** The three events of a transaction that goes through. *)
Abbreviation confirmed_events :=
  ["transaction_sending"; "transaction_submitted"; "transaction_confirmed"]%string.

Lemma published_app (l1 l2 : list (@step Tx)) :
  published (l1 ++ l2) = published l1 ++ published l2.
Proof. apply omap_app. Qed.

Lemma requests_app (l1 l2 : list (@step Tx)) :
  requests (l1 ++ l2) = requests l1 ++ requests l2.
Proof. apply omap_app. Qed.

Lemma published_delivery (log : list action) :
  published (Tx := Tx) (Delivery <$> log) = [].
Proof. induction log as [|a log IH]; [reflexivity|exact IH]. Qed.

Lemma requests_delivery (log : list action) :
  requests (Tx := Tx) (Delivery <$> log) = [].
Proof. induction log as [|a log IH]; [reflexivity|exact IH]. Qed.

(** The keyword arguments of the four events of [send_transaction] take
    the place of no parameter of [publish]. *)
Lemma two_keys_bind (k1 k2 v1 v2 : string) :
  k1 <> "self"%string -> k1 <> "event_name"%string ->
  k2 <> "self"%string -> k2 <> "event_name"%string ->
  rebinds_parameter ({[ k1 := v1; k2 := v2 ]} : gmap string string) = false.
Proof.
  intros. unfold rebinds_parameter.
  rewrite !bool_decide_eq_false_2; [reflexivity|..];
    rewrite <- eq_None_not_Some;
    rewrite !lookup_insert_ne by congruence;
    apply lookup_singleton_ne; congruence.
Qed.

Lemma three_keys_bind (k1 k2 k3 v1 v2 v3 : string) :
  k1 <> "self"%string -> k1 <> "event_name"%string ->
  k2 <> "self"%string -> k2 <> "event_name"%string ->
  k3 <> "self"%string -> k3 <> "event_name"%string ->
  rebinds_parameter ({[ k1 := v1; k2 := v2; k3 := v3 ]} : gmap string string)
    = false.
Proof.
  intros. unfold rebinds_parameter.
  rewrite !bool_decide_eq_false_2; [reflexivity|..];
    rewrite <- eq_None_not_Some;
    rewrite !lookup_insert_ne by congruence;
    apply lookup_singleton_ne; congruence.
Qed.

(** A call of [event_bus.publish] whose keywords bind: it is logged,
    followed by what [publish] did. *)
Lemma event_bus_publish_runs
    (self : BaseSolanaClient (S := S) (Tx := Tx)) event_name data s :
  rebinds_parameter data = false ->
  exists log s' r,
    event_bus_publish self event_name data s
      = (Published event_name data :: (Delivery <$> log), s', r).
Proof.
  intros Hk. unfold Foundation.event_bus_publish. rewrite Hk.
  destruct (datetime_now s) as [s1 now].
  destruct (publish _ _ _ _ _ _ _) as [[log s2] r].
  eauto.
Qed.

Ltac binds :=
  first [ apply two_keys_bind | apply three_keys_bind ]; discriminate.

(** One step of a symbolic run of a method of the client. *)
Ltac client_step :=
  match goal with
  | |- context [Foundation.event_bus_publish _ _ _ ?self ?n ?d ?s] =>
      let H := fresh "Hpub" in
      let r := fresh "r" in
      destruct (event_bus_publish_runs self n d s) as (? & ? & r & H);
      [binds|rewrite H; clear H; destruct r as [[]|?]]
  | |- context [datetime_now ?s] =>
      destruct (datetime_now s) as [? ?]
  | |- context [conn_send_transaction ?c ?tx ?s] =>
      destruct (conn_send_transaction c tx s) as [? [?|?]] eqn:?
  | |- context [conn_confirm_transaction ?c ?sig ?s] =>
      destruct (conn_confirm_transaction c sig s) as [? [[]|?]] eqn:?
  | |- context [is_Exception ?e] =>
      destruct (is_Exception e) eqn:?
  | |- context [str_of_exn ?e] =>
      destruct (str_of_exn e) eqn:?
  end; cbn beta iota zeta.

Ltac settle_log :=
  repeat (progress (simpl;
                    rewrite ?app_nil_r, ?published_app, ?requests_app,
                      ?published_delivery, ?requests_delivery)).

(** The runs of [send_transaction]. *)
Lemma send_transaction_runs
    (self : BaseSolanaClient (S := S) (Tx := Tx)) (transaction : Tx) (s : S) :
  exists log s' r,
    send_transaction self transaction s = (log, s', r) /\
    (requests log = [] \/ requests log = [SendRequest transaction] \/
     exists signature s0 s1,
       conn_send_transaction (connection self) transaction s0 = (s1, Ok signature) /\
       requests log = [SendRequest transaction; ConfirmRequest signature]) /\
    match r with
    | Ok signature =>
        (exists s0 s1,
           conn_send_transaction (connection self) transaction s0
             = (s1, Ok signature)) /\
        published log = confirmed_events /\
        requests log = [SendRequest transaction; ConfirmRequest signature]
    | Raise e => failure log e
    end.
Proof.
  unfold Foundation.send_transaction, ftry, mbind, F_bind, now_isoformat,
    await_send_transaction, await_confirm_transaction, pure, fraise, mret, F_ret.
  unfold Foundation.failure.
  repeat client_step.
  all: eexists _, _, _; (split; [reflexivity|]); settle_log.
  all: split;
    [ first [ left; reflexivity | right; left; reflexivity
            | right; right; eexists _, _, _; split; [eassumption|reflexivity] ]
    | ].
  all: try (split; [eauto|split; reflexivity]).
  all: first
    [ exists ["transaction_sending"%string];
      split; [auto|];
      first [ left; reflexivity | right; split; [reflexivity|]; eauto 6 ]
    | exists ["transaction_sending"; "transaction_submitted"]%string;
      split; [auto|];
      first [ left; reflexivity | right; split; [reflexivity|]; eauto 6 ]
    | exists confirmed_events;
      split; [auto|];
      first [ left; reflexivity | right; split; [reflexivity|]; eauto 6 ] ].
Qed.

(** X22.  [BaseSolanaClient.send_transaction] publishes
    [transaction_sending] first and sends the transaction to the node
    at most once.  When it returns, it returns the signature the node
    answered, and has published [transaction_sending],
    [transaction_submitted], [transaction_confirmed] and asked for the
    confirmation of that signature.  When it raises, it has published
    one, two or three of these events, in that order, and then either
    [transaction_failed], or nothing more: the latter when the
    exception is no instance of [Exception] (a cancellation of the
    task at an [await], an exit from a handler), which passes the
    [except] clause by, or when [str] raised on the exception that was
    caught. *)
Theorem send_transaction_event_protocol
    (self : BaseSolanaClient (S := S) (Tx := Tx)) (transaction : Tx) (s : S) :
  let '(log, _, r) := send_transaction self transaction s in
  head (published log) = Some "transaction_sending"%string /\
  (requests log = [] \/ requests log = [SendRequest transaction] \/
   exists signature s0 s1,
     conn_send_transaction (connection self) transaction s0 = (s1, Ok signature) /\
     requests log = [SendRequest transaction; ConfirmRequest signature]) /\
  match r with
  | Ok signature =>
      (exists s0 s1,
         conn_send_transaction (connection self) transaction s0
           = (s1, Ok signature)) /\
      published log = confirmed_events /\
      requests log = [SendRequest transaction; ConfirmRequest signature]
  | Raise e =>
      exists before,
        (before = ["transaction_sending"%string] \/
         before = ["transaction_sending"; "transaction_submitted"]%string \/
         before = confirmed_events) /\
        (published log = before ++ ["transaction_failed"%string] \/
         (published log = before /\
          (is_Exception e = false \/
           exists e0, is_Exception e0 = true /\ str_of_exn e0 = Raise e)))
  end.
Proof.
  destruct (send_transaction_runs self transaction s)
    as (log & s' & r & Hrun & Hreq & Hend).
  rewrite Hrun. split; [|split; [exact Hreq|exact Hend]].
  destruct r as [signature|e].
  - destruct Hend as (_ & -> & _). reflexivity.
  - destruct Hend as (before & Hbefore & [->|[-> _]]);
      destruct Hbefore as [->|[->| ->]]; reflexivity.
Qed.

(** The [except] clause of [burn_and_close_account] turns an
    [Exception] that can be converted to a string into
    [AccountError]. *)
Lemma ftry_account_error (m : F (S := S) (Tx := Tx) string) s :
  ftry m (fun e => pure (str_of_exn e);; fraise AccountError) s
  = match m s with
    | (l, s1, Ok a) => (l, s1, Ok a)
    | (l, s1, Raise e) =>
        (l, s1,
         Raise (if is_Exception e
                then match str_of_exn e with
                     | Ok _ => AccountError
                     | Raise e' => e'
                     end
                else e))
    end.
Proof.
  unfold ftry, mbind, F_bind, pure, fraise.
  destruct (m s) as [[l s1] [a|e]]; [reflexivity|].
  destruct (is_Exception e); [|reflexivity].
  destruct (str_of_exn e); rewrite !app_nil_r; reflexivity.
Qed.

(** The runs of [burn_and_close_account]. *)
Lemma burn_and_close_account_runs
    (self : BaseSolanaClient (S := S) (Tx := Tx)) (mint : string) (s : S) :
  exists log s' r,
    burn_and_close_account self mint s = (log, s', r) /\
    match r, burn_and_close_transaction sdk self mint with
    | Ok signature, Ok transaction =>
        published log = confirmed_events /\
        requests log = [SendRequest transaction; ConfirmRequest signature]
    | Ok _, Raise _ => False
    | Raise e, Ok transaction =>
        (e = AccountError \/ is_Exception e = false \/
         exists e0, is_Exception e0 = true /\ str_of_exn e0 = Raise e) /\
        head (published log) = Some "transaction_sending"%string /\
        (requests log = [] \/ head (requests log) = Some (SendRequest transaction))
    | Raise e, Raise e0 =>
        log = [] /\ s' = s /\
        e = (if is_Exception e0
             then match str_of_exn e0 with
                  | Ok _ => AccountError
                  | Raise e' => e'
                  end
             else e0)
    end.
Proof.
  unfold Foundation.burn_and_close_account. rewrite ftry_account_error.
  unfold burn_and_close_transaction, mbind, F_bind, pure, result_bind.
  destruct (Pubkey_from_string sdk mint) as [mint_pubkey|e0]; cbn beta iota zeta;
    [|eexists _, _, _; split; [reflexivity|]; cbv beta iota; auto].
  destruct (AsyncToken sdk _ _ _) as [[]|e0]; cbn beta iota zeta;
    [|eexists _, _, _; split; [reflexivity|]; cbv beta iota; auto].
  destruct (spl_burn sdk _ _ _ _) as [burn_ix|e0]; cbn beta iota zeta;
    [|eexists _, _, _; split; [reflexivity|]; cbv beta iota; auto].
  destruct (spl_close_account sdk _ _ _) as [close_ix|e0]; cbn beta iota zeta;
    [|eexists _, _, _; split; [reflexivity|]; cbv beta iota; auto].
  destruct (Transaction_add sdk _) as [transaction|e0]; cbn beta iota zeta;
    [|eexists _, _, _; split; [reflexivity|]; cbv beta iota; auto].
  destruct (send_transaction_runs self transaction s)
    as (log & s' & r & Hrun & Hreq & Hend).
  rewrite Hrun. destruct r as [signature|e]; cbn beta iota zeta.
  - unfold mret, F_ret. eexists _, _, _. split; [reflexivity|].
    rewrite ?app_nil_r. destruct Hend as (_ & Hp & Hr). auto.
  - assert (Hhead : head (published log) = Some "transaction_sending"%string).
    { destruct Hend as (before & Hbefore & [->|[-> _]]);
        destruct Hbefore as [->|[->| ->]]; reflexivity. }
    assert (Hreq' : requests log = [] \/
                    head (requests log) = Some (SendRequest transaction)).
    { destruct Hreq as [->|[->|(sig & _ & _ & _ & ->)]]; auto. }
    eexists _, _, _. split; [reflexivity|].
    rewrite ?app_nil_r. split; [|split; assumption].
    destruct (is_Exception e) eqn:He; [|auto].
    destruct (str_of_exn e) as [line|e'] eqn:Hs; [auto|].
    right. right. eauto.
Qed.

(** X23.  [AccountOps.burn_and_close_account] ends in one of four ways.
    When it returns, the transaction it built (a burn of amount 0, then
    a close) was sent and confirmed, and it returns the signature.
    When building the transaction fails (a mint that is not an address,
    for one) nothing has been published and nothing sent, and it raises
    [AccountError] if what the SDK raised is an [Exception] that can be
    converted to a string.  When sending fails it raises likewise.  An
    exception that is no instance of [Exception] (a cancellation at the
    [await]) reaches the caller as it is, and so does what [str]
    raises. *)
Theorem burn_and_close_account_outcomes
    (self : BaseSolanaClient (S := S) (Tx := Tx)) (mint : string) (s : S) :
  let '(log, s', r) := burn_and_close_account self mint s in
  match r, burn_and_close_transaction sdk self mint with
  | Ok signature, Ok transaction =>
      published log = confirmed_events /\
      requests log = [SendRequest transaction; ConfirmRequest signature]
  | Ok _, Raise _ => False
  | Raise e, Ok transaction =>
      (e = AccountError \/ is_Exception e = false \/
       exists e0, is_Exception e0 = true /\ str_of_exn e0 = Raise e) /\
      head (published log) = Some "transaction_sending"%string /\
      (requests log = [] \/ head (requests log) = Some (SendRequest transaction))
  | Raise e, Raise e0 =>
      log = [] /\ s' = s /\
      (is_Exception e0 = true ->
       (forall line, str_of_exn e0 = Ok line -> e = AccountError) /\
       (forall e', str_of_exn e0 = Raise e' -> e = e')) /\
      (is_Exception e0 = false -> e = e0)
  end.
Proof.
  destruct (burn_and_close_account_runs self mint s)
    as (log & s' & r & Hrun & Hcases).
  rewrite Hrun.
  destruct r as [signature|e];
    destruct (burn_and_close_transaction sdk self mint) as [transaction|e0];
    try exact Hcases.
  destruct Hcases as (-> & -> & ->).
  split; [reflexivity|]. split; [reflexivity|]. split.
  - intros ->. split; [intros line ->|intros e' ->]; reflexivity.
  - intros ->. reflexivity.
Qed.

(** The loop over two lists of mints, one after the other. *)
Lemma burn_and_close_loop_app
    (self : BaseSolanaClient (S := S) (Tx := Tx)) mints1 mints2 signatures s :
  burn_and_close_loop self (mints1 ++ mints2) signatures s
  = match burn_and_close_loop self mints1 signatures s with
    | (log1, s1, Ok signatures1) =>
        let '(log2, s2, r) := burn_and_close_loop self mints2 signatures1 s1 in
        (log1 ++ log2, s2, r)
    | (log1, s1, Raise e) => (log1, s1, Raise e)
    end.
Proof.
  revert signatures s. induction mints1 as [|mint rest IH]; intros signatures s.
  - simpl. unfold mret, F_ret.
    destruct (burn_and_close_loop _ _ _ _) as [[log2 s2] r].
    reflexivity.
  - cbn [app Foundation.burn_and_close_loop]. unfold mbind, F_bind.
    destruct (burn_and_close_account _ _ _) as [[log0 s0] [sig|e]];
      [|reflexivity].
    rewrite IH.
    destruct (burn_and_close_loop _ rest _ _) as [[log1 s1] [sigs1|e]];
      [|reflexivity].
    destruct (burn_and_close_loop _ mints2 _ _) as [[log2 s2] r].
    rewrite app_assoc. reflexivity.
Qed.

(** A loop that returns has added one signature for each mint, and each
    mint has gone through the three events of a confirmed
    transaction. *)
Lemma burn_and_close_loop_returns
    (self : BaseSolanaClient (S := S) (Tx := Tx)) mints signatures s log s' result :
  burn_and_close_loop self mints signatures s = (log, s', Ok result) ->
  exists new,
    result = signatures ++ new /\
    List.length new = List.length mints /\
    published log = mints ≫= (fun _ => confirmed_events).
Proof.
  revert signatures s log. induction mints as [|mint rest IH];
    intros signatures s log Hrun.
  - injection Hrun as <- <- <-. exists []. rewrite app_nil_r. auto.
  - cbn [Foundation.burn_and_close_loop] in Hrun. unfold mbind, F_bind in Hrun.
    destruct (burn_and_close_account_runs self mint s)
      as (log0 & s0 & r0 & Hacc & Hcases).
    rewrite Hacc in Hrun.
    destruct r0 as [sig|e]; [|discriminate Hrun].
    destruct (burn_and_close_transaction sdk self mint) as [tx|e0];
      [|destruct Hcases].
    destruct Hcases as [Hp _].
    destruct (burn_and_close_loop _ rest _ _) as [[log1 s1] r1] eqn:Hrest.
    injection Hrun as <- <- ->.
    apply IH in Hrest as (new & -> & Hlen & Hpub).
    exists (sig :: new). rewrite <- app_assoc. split; [reflexivity|].
    split; [simpl; rewrite Hlen; reflexivity|].
    rewrite published_app, Hp, Hpub. reflexivity.
Qed.

(** X24.  When [AccountOps.burn_and_close_multiple] returns, it
    returns one signature for each mint, and every mint, in order, went
    through the three events of a confirmed transaction. *)
Theorem burn_and_close_multiple_one_signature_per_mint
    (self : BaseSolanaClient (S := S) (Tx := Tx)) mints s log s' signatures :
  burn_and_close_multiple self mints s = (log, s', Ok signatures) ->
  List.length signatures = List.length mints /\
  published log
    = mints ≫= (fun _ => ["transaction_sending"; "transaction_submitted";
                           "transaction_confirmed"]).
Proof.
  intros Hrun. apply burn_and_close_loop_returns in Hrun as (new & -> & Hlen & Hpub).
  auto.
Qed.

(** X25.  [AccountOps.burn_and_close_multiple] stops at the first
    mint that fails: it raises what [burn_and_close_account] raised for
    that mint ([AccountError], or an exception that passed its [except]
    clause by), the mints after it are not touched (the run does not
    depend on them), the accounts before it have been burned and closed
    and stay so, and their signatures are not returned. *)
Theorem burn_and_close_multiple_stops_at_first_failure
    (self : BaseSolanaClient (S := S) (Tx := Tx))
    closed mint rest s log1 s1 signatures log2 s2 e :
  burn_and_close_multiple self closed s = (log1, s1, Ok signatures) ->
  burn_and_close_account self mint s1 = (log2, s2, Raise e) ->
  burn_and_close_multiple self (closed ++ mint :: rest) s
    = (log1 ++ log2, s2, Raise e) /\
  published log1 = closed ≫= (fun _ => confirmed_events) /\
  (e = AccountError \/ is_Exception e = false \/
   exists e0, is_Exception e0 = true /\ str_of_exn e0 = Raise e).
Proof.
  intros Hclosed Hmint. unfold Foundation.burn_and_close_multiple in *.
  rewrite burn_and_close_loop_app, Hclosed.
  cbn [Foundation.burn_and_close_loop]. unfold mbind, F_bind. rewrite Hmint.
  split; [reflexivity|]. split.
  - apply burn_and_close_loop_returns in Hclosed as (new & _ & _ & Hpub).
    exact Hpub.
  - destruct (burn_and_close_account_runs self mint s1)
      as (log0 & s0 & r0 & Hacc & Hcases).
    rewrite Hacc in Hmint. injection Hmint as -> -> ->.
    destruct (burn_and_close_transaction sdk self mint) as [tx|e0].
    + apply Hcases.
    + destruct Hcases as (_ & _ & ->).
      destruct (is_Exception e0) eqn:He; [|auto].
      destruct (str_of_exn e0) eqn:Hs; [auto|]. right. right. eauto.
Qed.

End ClientFacts.

(** The endings of [send_transaction] on three nodes: one that confirms,
    one that refuses the transaction, and one on which the wait for the
    confirmation is cancelled, which ends the call without
    [transaction_failed]. *)
Example send_transaction_endings :
  let run node :=
    Foundation.send_transaction SampleClient.call_object
      SampleClient.datetime_now SampleClient.isoformat SampleBus.str_of_exn
      (SampleClient.client_of node) ["burn"; "close"] 0%nat in
  (Foundation.published (run SampleClient.node).1.1
     = ["transaction_sending"; "transaction_submitted"; "transaction_confirmed"] /\
   (run SampleClient.node).2 = Ok "signature") /\
  (Foundation.published (run SampleClient.refusing_node).1.1
     = ["transaction_sending"; "transaction_failed"] /\
   (run SampleClient.refusing_node).2 = Raise (Exn "RPCException")) /\
  (Foundation.published (run SampleClient.cancelled_node).1.1
     = ["transaction_sending"; "transaction_submitted"] /\
   Foundation.requests (run SampleClient.cancelled_node).1.1
     = [Foundation.SendRequest ["burn"; "close"];
        Foundation.ConfirmRequest "signature"] /\
   (run SampleClient.cancelled_node).2 = Raise CancelledError).
Proof. vm_compute. auto 10. Qed.

Lemma burn_and_close_multiple_one_signature_per_mint_witness :
  let run :=
    Foundation.burn_and_close_multiple SampleClient.call_object
      SampleClient.datetime_now SampleClient.isoformat SampleBus.str_of_exn
      SampleClient.sdk SampleClient.client ["mint-a"; "mint-b"] 0%nat in
  List.length ["signature"; "signature"] = List.length ["mint-a"; "mint-b"] /\
  Foundation.published run.1.1
    = ["mint-a"; "mint-b"]
        ≫= (fun _ => ["transaction_sending"; "transaction_submitted";
                       "transaction_confirmed"]).
Proof.
  cbv zeta.
  apply (burn_and_close_multiple_one_signature_per_mint SampleClient.call_object
           SampleClient.datetime_now SampleClient.isoformat
           SampleBus.str_of_exn SampleClient.sdk SampleClient.client
           ["mint-a"; "mint-b"] 0%nat _ 12%nat).
  vm_compute. reflexivity.
Defined.

Lemma burn_and_close_multiple_stops_at_first_failure_witness :
  let closed :=
    Foundation.burn_and_close_multiple SampleClient.call_object
      SampleClient.datetime_now SampleClient.isoformat SampleBus.str_of_exn
      SampleClient.sdk SampleClient.client ["mint-a"] 0%nat in
  Foundation.burn_and_close_multiple SampleClient.call_object
    SampleClient.datetime_now SampleClient.isoformat SampleBus.str_of_exn
    SampleClient.sdk SampleClient.client (["mint-a"] ++ "" :: ["mint-b"]) 0%nat
  = (closed.1.1 ++ [], 6%nat, Raise AccountError) /\
  Foundation.published closed.1.1
    = ["mint-a"]
        ≫= (fun _ => ["transaction_sending"; "transaction_submitted";
                       "transaction_confirmed"]) /\
  (AccountError = AccountError \/ is_Exception AccountError = false \/
   exists e0, is_Exception e0 = true /\
              SampleBus.str_of_exn e0 = Raise AccountError).
Proof.
  cbv zeta.
  apply (burn_and_close_multiple_stops_at_first_failure SampleClient.call_object
           SampleClient.datetime_now SampleClient.isoformat
           SampleBus.str_of_exn SampleClient.sdk SampleClient.client
           ["mint-a"] "" ["mint-b"] 0%nat _ 6%nat ["signature"]
           [] 6%nat AccountError).
  - vm_compute. reflexivity.
  - vm_compute. reflexivity.
Defined.

(** A cancellation while the second account is being closed: the call
    ends with [CancelledError], not with [AccountError]. *)
Example cancellation_is_not_an_account_error :
  (Foundation.burn_and_close_multiple SampleClient.call_object
     SampleClient.datetime_now SampleClient.isoformat SampleBus.str_of_exn
     SampleClient.sdk (SampleClient.client_of SampleClient.cancelled_node)
     ["mint-a"; "mint-b"] 0%nat).2
  = Raise CancelledError.
Proof. vm_compute. reflexivity. Qed.

Section ClientDeliveries.
Import EventBus Foundation.
Context {S Tx : Type}.
Variable call_object : PyObject -> Event -> S -> S * Event * result unit.
Variable datetime_now : S -> S * Z.
Variable isoformat : Z -> string.
Variable str_of_exn : exn -> result string.

Abbreviation send_transaction :=
  (send_transaction call_object datetime_now isoformat str_of_exn).
Abbreviation event_bus_publish :=
  (event_bus_publish call_object datetime_now str_of_exn).
Abbreviation contained := (contained call_object str_of_exn).



Ltac binds :=
  first [ apply two_keys_bind | apply three_keys_bind ]; discriminate.



End ClientDeliveries.


(** The subscribers that client calls on a node that confirms, on one
    that refuses the transaction, and on one where the wait is
    cancelled. *)
Example send_transaction_deliveries :
  let run node :=
    Foundation.send_transaction SampleClient.call_object
      SampleClient.datetime_now SampleClient.isoformat SampleBus.str_of_exn
      (SampleClient.client_of node) ["burn"; "close"] 0%nat in
  delivered (run SampleClient.node).1.1
    = [(EventBus.Callable 1, "transaction_confirmed"%string)] /\
  delivered (run SampleClient.refusing_node).1.1
    = [(EventBus.Callable 2, "transaction_failed"%string)] /\
  delivered (run SampleClient.cancelled_node).1.1 = [].
Proof. vm_compute. auto. Qed.
